(** * Workzen server: chat, presence and message lifecycle

    A shallow embedding of the chat part of the server:
    - [Model]       the Mongoose documents of models/Chat.js and
                    models/Notification.js with the schema methods
                    [getUnreadCount], [resetUnreadCount], [findDirectChat];
    - [Controller]  the HTTP handlers of controllers/chat.controller.js
                    (and [createNotification] of notification.controller.js);
    - [Socket]      the socket.io event handlers of socket.js with the
                    in-memory registry [userSockets].

    - [Server]      the routes of routes/chat.routes.js and the event
                    table of socket.js, as one step function on the state
                    of the process.

    Every handler is a function from the request data and the store to a
    response and the store afterwards.  An HTTP handler that throws inside
    its [try] block answers 500 from its [catch] and leaves the store as
    it was, since [chat.save()] is its only write and comes last.  Numbers
    are integers (counters and page numbers stay far below 2^53). *)

From Stdlib Require Import ZArith NArith Ascii Lia.
From stdpp Require Import base option list gmap strings sorting.

Set Default Proof Using "Type".

(** ObjectIds are compared through [toString()] everywhere in the source;
    they are modelled by the 96-bit number they denote. *)
Abbreviation ObjectId := N (only parsing).
Abbreviation UserId := N (only parsing).
Abbreviation ChatId := N (only parsing).
Abbreviation MessageId := N (only parsing).
Abbreviation SocketId := N (only parsing).

(** A [Date], in milliseconds since the epoch. *)
Abbreviation Time := Z (only parsing).

(** ** JavaScript arrays and strings *)
Module JS.

Section Arrays.
Context {A : Type}.

(** The first element satisfying [p] is replaced by its image: what
    mutating the result of [Array.prototype.find] (or of Mongoose's
    [DocumentArray.id]) does to the array. *)
Fixpoint update_first (p : A -> bool) (f : A -> A) (l : list A) : list A :=
  match l with
  | [] => []
  | x :: l' => if p x then f x :: l' else x :: update_first p f l'
  end.

(** [ToIntegerOrInfinity] followed by the clamping of a relative index;
    [None] is NaN. *)
Definition rel_index (len : Z) (i : option Z) : Z :=
  match i with
  | None => 0
  | Some k => if (k <? 0)%Z then Z.max (len + k) 0 else Z.min k len
  end.

(** [Array.prototype.slice(start, end)]. *)
Definition slice (l : list A) (start end_ : option Z) : list A :=
  let len := Z.of_nat (length l) in
  let k := rel_index len start in
  let final := rel_index len end_ in
  take (Z.to_nat (final - k)) (drop (Z.to_nat k) l).

(** [Array.prototype.sort(cmp)] is stable: an element goes after the
    elements already placed that do not compare greater than it.
    [cmp a b] is the number the comparator returns. *)
Fixpoint insert_sorted (cmp : A -> A -> Z) (x : A) (l : list A) : list A :=
  match l with
  | [] => [x]
  | y :: l' => if (cmp y x <=? 0)%Z then y :: insert_sorted cmp x l'
               else x :: y :: l'
  end.

Definition sort (cmp : A -> A -> Z) (l : list A) : list A :=
  fold_left (fun acc x => insert_sorted cmp x acc) l [].

(** MongoDB's [$addToSet] with a single value: appended unless an equal
    element is there already. *)
Definition addToSet `{EqDecision A} (x : A) (l : list A) : list A :=
  if bool_decide (x ∈ l) then l else l ++ [x].

End Arrays.

(** Numbers that come out of [parseInt] or of arithmetic on them: an
    integer, or NaN ([None]). *)
Definition num_sub (a b : option Z) : option Z :=
  match a, b with Some x, Some y => Some (x - y)%Z | _, _ => None end.
Definition num_add (a b : option Z) : option Z :=
  match a, b with Some x, Some y => Some (x + y)%Z | _, _ => None end.
Definition num_mul (a b : option Z) : option Z :=
  match a, b with Some x, Some y => Some (x * y)%Z | _, _ => None end.

(** [String.prototype.toLowerCase], for texts of ASCII characters: the
    letters A to Z are lowered.  On such texts it is what the language
    does; the bytes of other characters are left as they are, where the
    language lowers the cased letters of every script, so that what is
    stated of lower case is stated of ASCII texts ([is_ascii]). *)
Definition lower_ascii (c : ascii) : ascii :=
  let n := Ascii.N_of_ascii c in
  if ((65 <=? n) && (n <=? 90))%N then Ascii.ascii_of_N (n + 32) else c.

Fixpoint toLowerCase (s : string) : string :=
  match s with
  | EmptyString => EmptyString
  | String c s' => String (lower_ascii c) (toLowerCase s')
  end.


(** [String.prototype.includes]. *)
Fixpoint includes (s sub : string) : bool :=
  String.prefix sub s ||
  match s with
  | EmptyString => false
  | String _ s' => includes s' sub
  end.

(** [String.prototype.trim].  A string of the model holds the bytes of
    the text in UTF-8.  What [trim] strips are the white space and the
    line terminators of the language: U+0009 to U+000D and U+0020, of
    one byte; U+00A0, of two; U+1680, U+2000 to U+200A, U+2028, U+2029,
    U+202F, U+205F, U+3000 and U+FEFF, of three. *)
Definition is_space (c : ascii) : bool :=
  let n := Ascii.N_of_ascii c in
  ((9 <=? n) && (n <=? 13) || (n =? 32))%N.

Definition is_space2 (c1 c2 : ascii) : bool :=
  ((Ascii.N_of_ascii c1 =? 194) && (Ascii.N_of_ascii c2 =? 160))%N.

Definition is_space3 (c1 c2 c3 : ascii) : bool :=
  let a := Ascii.N_of_ascii c1 in
  let b := Ascii.N_of_ascii c2 in
  let c := Ascii.N_of_ascii c3 in
  ((a =? 225) && (b =? 154) && (c =? 128)
   || (a =? 226) && (b =? 128)
      && ((128 <=? c) && (c <=? 138) || (c =? 168) || (c =? 169) || (c =? 175))
   || (a =? 226) && (b =? 129) && (c =? 159)
   || (a =? 227) && (b =? 128) && (c =? 128)
   || (a =? 239) && (b =? 187) && (c =? 191))%N.

Fixpoint trimStart (s : string) : string :=
  match s with
  | EmptyString => EmptyString
  | String c1 s1 =>
      if is_space c1 then trimStart s1
      else
        match s1 with
        | EmptyString => s
        | String c2 s2 =>
            if is_space2 c1 c2 then trimStart s2
            else
              match s2 with
              | EmptyString => s
              | String c3 s3 =>
                  if is_space3 c1 c2 c3 then trimStart s3 else s
              end
        end
  end.

(** What is left of a string when the white space at its end goes: the
    bytes up to the point from which on there is white space only. *)
Fixpoint trimEnd (s : string) : string :=
  match s with
  | EmptyString => EmptyString
  | String c s' =>
      if String.eqb (trimStart s) "" then EmptyString else String c (trimEnd s')
  end.

Definition trim (s : string) : string := trimEnd (trimStart s).

(** [s.replace(/\\/g, '/')]: every backslash becomes a slash. *)
Fixpoint backslash_to_slash (s : string) : string :=
  match s with
  | EmptyString => EmptyString
  | String c s' =>
      String (if (Ascii.N_of_ascii c =? 92)%N then Ascii.ascii_of_N 47 else c)
             (backslash_to_slash s')
  end.

(** A string is falsy exactly when it is empty; an absent field
    ([undefined]) is falsy too and is written as the empty string. *)
Definition truthy (s : string) : bool := negb (String.eqb s "").

End JS.

(** ** models/Chat.js, models/Notification.js and the stored collections *)
Module Model.

Record Attachment := {
  fileName : string;
  fileType : string;
  fileUrl : string;
  fileSize : Z }.

Record Reaction := {
  reaction_user : UserId;
  emoji : string }.

(** An element of [readBy] or [deliveredTo].  The schema and the HTTP
    handlers write [{ user, readAt }]; the socket handlers write
    [{ userId, readAt }], an element that has no [user] field (whatever
    the casting of the update keeps of [userId]), so that reading its
    [user] gives [undefined]. *)
Inductive Receipt :=
| ReceiptUser (user : UserId) (at_ : Time)
| ReceiptUserId (userId : UserId) (at_ : Time).

Record EditEntry := {
  previous_content : string;
  editedAt : Time }.

Record Message := {
  msg_id : MessageId;
  sender : UserId;
  content : string;
  attachments : list Attachment;
  reactions : list Reaction;
  readBy : list Receipt;
  deliveredTo : list Receipt;
  isDeleted : bool;
  deletedFor : list UserId;
  replyTo : option MessageId;
  edited : bool;
  editHistory : list EditEntry;
  createdAt : Time }.

Inductive ChatType := direct | group.

Record UnreadCount := {
  unread_user : UserId;
  count : Z }.

(** The display fields ([participantDetails], [description], [avatar],
    [lastMessage]) are written at creation only and read by no handler
    below; they are left out. *)
Record Chat := {
  chat_id : ChatId;
  chatType : ChatType;
  participants : list UserId;
  messages : list Message;
  name : string;
  admins : list UserId;
  unreadCounts : list UnreadCount }.

Inductive NotificationType :=
| TASK_ASSIGNED | TASK_UPDATED | TASK_COMPLETED | TASK_OVERDUE
| DEADLINE_APPROACHING | COMMENT_ADDED | REVIEW_REQUESTED | STATUS_CHANGED
| PRIORITY_CHANGED | MENTION | TEAM_UPDATE | MEETING_INVITATION.

Record Notification := {
  notification_user : UserId;
  notification_type : NotificationType;
  title : string;
  notification_message : string;
  task : option ObjectId;
  from : option UserId;
  read : bool }.

(** Of a user, the handlers read the existence and the company. *)
Record User := {
  user_id : UserId;
  company : option ObjectId }.

(** The durable store: the three collections, in insertion order, and the
    next ObjectId the driver hands out. *)
Record DB := {
  users : list User;
  chats : list Chat;
  notifications : list Notification;
  nextId : ObjectId }.

#[global] Instance Attachment_eq_dec : EqDecision Attachment.
Proof. solve_decision. Defined.
#[global] Instance Reaction_eq_dec : EqDecision Reaction.
Proof. solve_decision. Defined.
#[global] Instance Receipt_eq_dec : EqDecision Receipt.
Proof. solve_decision. Defined.
#[global] Instance EditEntry_eq_dec : EqDecision EditEntry.
Proof. solve_decision. Defined.
#[global] Instance Message_eq_dec : EqDecision Message.
Proof. solve_decision. Defined.
#[global] Instance ChatType_eq_dec : EqDecision ChatType.
Proof. solve_decision. Defined.
#[global] Instance UnreadCount_eq_dec : EqDecision UnreadCount.
Proof. solve_decision. Defined.
#[global] Instance Chat_eq_dec : EqDecision Chat.
Proof. solve_decision. Defined.

(** [a.toString() === b.toString()] on ObjectIds, and
    [array.includes(id)] on an array of ObjectIds. *)
Definition same_id (a b : ObjectId) : bool := (a =? b)%N.
Definition includes_id (l : list ObjectId) (x : ObjectId) : bool :=
  existsb (same_id x) l.

(** Field updates of the documents. *)
Definition set_messages (ms : list Message) (c : Chat) : Chat :=
  {| chat_id := chat_id c; chatType := chatType c;
     participants := participants c; messages := ms; name := name c;
     admins := admins c; unreadCounts := unreadCounts c |}.

Definition set_unreadCounts (ucs : list UnreadCount) (c : Chat) : Chat :=
  {| chat_id := chat_id c; chatType := chatType c;
     participants := participants c; messages := messages c; name := name c;
     admins := admins c; unreadCounts := ucs |}.

Definition set_reactions (rs : list Reaction) (m : Message) : Message :=
  {| msg_id := msg_id m; sender := sender m; content := content m;
     attachments := attachments m; reactions := rs; readBy := readBy m;
     deliveredTo := deliveredTo m; isDeleted := isDeleted m;
     deletedFor := deletedFor m; replyTo := replyTo m; edited := edited m;
     editHistory := editHistory m; createdAt := createdAt m |}.

Definition set_readBy (rb : list Receipt) (m : Message) : Message :=
  {| msg_id := msg_id m; sender := sender m; content := content m;
     attachments := attachments m; reactions := reactions m; readBy := rb;
     deliveredTo := deliveredTo m; isDeleted := isDeleted m;
     deletedFor := deletedFor m; replyTo := replyTo m; edited := edited m;
     editHistory := editHistory m; createdAt := createdAt m |}.

Definition set_deletedFor (df : list UserId) (m : Message) : Message :=
  {| msg_id := msg_id m; sender := sender m; content := content m;
     attachments := attachments m; reactions := reactions m;
     readBy := readBy m; deliveredTo := deliveredTo m;
     isDeleted := isDeleted m; deletedFor := df; replyTo := replyTo m;
     edited := edited m; editHistory := editHistory m;
     createdAt := createdAt m |}.

Definition set_isDeleted (b : bool) (m : Message) : Message :=
  {| msg_id := msg_id m; sender := sender m; content := content m;
     attachments := attachments m; reactions := reactions m;
     readBy := readBy m; deliveredTo := deliveredTo m;
     isDeleted := b; deletedFor := deletedFor m; replyTo := replyTo m;
     edited := edited m; editHistory := editHistory m;
     createdAt := createdAt m |}.

Definition set_content (s : string) (m : Message) : Message :=
  {| msg_id := msg_id m; sender := sender m; content := s;
     attachments := attachments m; reactions := reactions m;
     readBy := readBy m; deliveredTo := deliveredTo m;
     isDeleted := isDeleted m; deletedFor := deletedFor m;
     replyTo := replyTo m; edited := edited m;
     editHistory := editHistory m; createdAt := createdAt m |}.

Definition set_attachments (a : list Attachment) (m : Message) : Message :=
  {| msg_id := msg_id m; sender := sender m; content := content m;
     attachments := a; reactions := reactions m;
     readBy := readBy m; deliveredTo := deliveredTo m;
     isDeleted := isDeleted m; deletedFor := deletedFor m;
     replyTo := replyTo m; edited := edited m;
     editHistory := editHistory m; createdAt := createdAt m |}.

Definition set_replyTo (r : option MessageId) (m : Message) : Message :=
  {| msg_id := msg_id m; sender := sender m; content := content m;
     attachments := attachments m; reactions := reactions m;
     readBy := readBy m; deliveredTo := deliveredTo m;
     isDeleted := isDeleted m; deletedFor := deletedFor m;
     replyTo := r; edited := edited m;
     editHistory := editHistory m; createdAt := createdAt m |}.

Definition set_edit (h : list EditEntry) (m : Message) : Message :=
  {| msg_id := msg_id m; sender := sender m; content := content m;
     attachments := attachments m; reactions := reactions m;
     readBy := readBy m; deliveredTo := deliveredTo m;
     isDeleted := isDeleted m; deletedFor := deletedFor m;
     replyTo := replyTo m; edited := true;
     editHistory := h; createdAt := createdAt m |}.

Definition set_chats (cs : list Chat) (db : DB) : DB :=
  {| users := users db; chats := cs; notifications := notifications db;
     nextId := nextId db |}.

(** [Chat.findById(chatId)]. *)
Definition findById (db : DB) (chatId : ChatId) : option Chat :=
  find (fun c => same_id (chat_id c) chatId) (chats db).

(** [chat.messages.id(messageId)]. *)
Definition message_by_id (c : Chat) (messageId : MessageId) : option Message :=
  find (fun m => same_id (msg_id m) messageId) (messages c).

(** Mutating the subdocument [chat.messages.id(messageId)] returned. *)
Definition update_message (messageId : MessageId) (f : Message -> Message)
    (c : Chat) : Chat :=
  set_messages
    (JS.update_first (fun m => same_id (msg_id m) messageId) f (messages c)) c.

(** [chat.save()] of a document that was loaded with [findById]: the
    stored document of that id is replaced. *)
Definition save (c : Chat) (db : DB) : DB :=
  set_chats
    (JS.update_first (fun c0 => same_id (chat_id c0) (chat_id c))
                     (fun _ => c) (chats db)) db.

(** [new Chat({...}).save()]: the document gets a fresh [_id] and joins
    the collection. *)
Definition insert_chat (mk : ChatId -> Chat) (db : DB) : Chat * DB :=
  let c := mk (nextId db) in
  (c, {| users := users db; chats := chats db ++ [c];
         notifications := notifications db; nextId := N.succ (nextId db) |}).

(** [chat.messages.push(newMessage)]: the subdocument gets a fresh [_id]. *)
Definition take_id (db : DB) : DB :=
  {| users := users db; chats := chats db;
     notifications := notifications db; nextId := N.succ (nextId db) |}.

(** The filter of [findDirectChat]:
    [{ type: 'direct', participants: { $all: [user1Id, user2Id], $size: 2 } }]. *)
Definition direct_between (user1Id user2Id : UserId) (c : Chat) : bool :=
  bool_decide (chatType c = direct)
  && includes_id (participants c) user1Id
  && includes_id (participants c) user2Id
  && (length (participants c) =? 2)%nat.

(** [ChatSchema.statics.findDirectChat], a [findOne] with that filter. *)
Definition findDirectChat (db : DB) (user1Id user2Id : UserId) : option Chat :=
  find (direct_between user1Id user2Id) (chats db).

(** [ChatSchema.methods.getUnreadCount]. *)
Definition getUnreadCount (c : Chat) (userId : UserId) : Z :=
  match find (fun item => same_id (unread_user item) userId) (unreadCounts c) with
  | Some userUnreadInfo => count userUnreadInfo
  | None => 0
  end.

(** [ChatSchema.methods.resetUnreadCount]. *)
Definition resetUnreadCount (c : Chat) (userId : UserId) : Chat :=
  match find (fun item => same_id (unread_user item) userId) (unreadCounts c) with
  | Some _ =>
      set_unreadCounts
        (JS.update_first (fun item => same_id (unread_user item) userId)
           (fun item => {| unread_user := unread_user item; count := 0 |})
           (unreadCounts c)) c
  | None =>
      set_unreadCounts
        (unreadCounts c ++ [{| unread_user := userId; count := 0 |}]) c
  end.

(** [User.findById]. *)
Definition findUser (db : DB) (userId : UserId) : option User :=
  find (fun u => same_id (user_id u) userId) (users db).

End Model.

(** ** controllers/chat.controller.js *)
Module Controller.
Import Model.

(** An uploaded file, as multer hands it over in [req.files]. *)
Record File := {
  originalname : string;
  mimetype : string;
  path : string;
  size : Z }.

(** What [res.json] is given. *)
Inductive Body :=
| Msg (message : string)
| ChatDoc (c : Chat)
| MessageDoc (m : Message)
| MessageList (ms : list Message)
| MessagePage (msgs : list Message) (totalCount : nat) (page limit : option Z)
| Deleted (message : string) (forEveryone : bool)
| ReactionAdded (message : string) (reaction : Reaction).

Record Response := {
  status : N;
  body : Body }.

Definition respond (code : N) (b : Body) : Response :=
  {| status := code; body := b |}.

(** The [catch] block of a handler. *)
Definition server_error : Response := respond 500 (Msg "Server error").

(** [exports.createNotification] (notification.controller.js): the only
    place where the controllers build and save a [Notification]. *)
Definition createNotification (n : Notification) (db : DB) : DB :=
  {| users := users db; chats := chats db;
     notifications := notifications db ++ [n]; nextId := nextId db |}.

(** [exports.createDirectChat]; [userId] is [req.user.id] and
    [targetUserId] is [req.body.userId].  A user without a company makes
    [company.toString()] throw. *)
Definition createDirectChat (userId targetUserId : UserId) (db : DB)
    : Response * DB :=
  match findUser db userId, findUser db targetUserId with
  | Some currentUser, Some targetUser =>
      match company currentUser, company targetUser with
      | Some c1, Some c2 =>
          if negb (same_id c1 c2) then
            (respond 403 (Msg "Cannot create chat with users from different companies"), db)
          else
            match findDirectChat db userId targetUserId with
            | Some existingChat => (respond 200 (ChatDoc existingChat), db)
            | None =>
                let (newChat, db') :=
                  insert_chat (fun id =>
                    {| chat_id := id; chatType := direct;
                       participants := [userId; targetUserId];
                       messages := []; name := ""; admins := [];
                       unreadCounts :=
                         [ {| unread_user := userId; count := 0 |};
                           {| unread_user := targetUserId; count := 0 |} ] |}) db in
                (respond 201 (ChatDoc newChat), db')
            end
      | _, _ => (server_error, db)
      end
  | _, _ => (respond 404 (Msg "User not found"), db)
  end.

(** [[...new Set(ids)]]: the first occurrence of each id, in order. *)
Fixpoint unique_ids (seen ids : list ObjectId) : list ObjectId :=
  match ids with
  | [] => []
  | x :: ids' =>
      if includes_id seen x then unique_ids seen ids'
      else x :: unique_ids (x :: seen) ids'
  end.

(** [participantUsers.some(user => user.company.toString() !== companyId)];
    [None] when a user without a company is reached. *)
Fixpoint some_other_company (companyId : ObjectId) (us : list User)
    : option bool :=
  match us with
  | [] => Some false
  | u :: us' =>
      match company u with
      | None => None
      | Some c => if negb (same_id c companyId) then Some true
                  else some_other_company companyId us'
      end
  end.

(** [exports.createGroupChat]; [participants] is [None] when the body
    field is absent or not an array. *)
Definition createGroupChat (userId : UserId) (groupName : string)
    (participants_ : option (list UserId)) (db : DB) : Response * DB :=
  match participants_ with
  | None => (respond 400 (Msg "Name and valid participants are required"), db)
  | Some ps =>
      if negb (JS.truthy groupName) then
        (respond 400 (Msg "Name and valid participants are required"), db)
      else
        let allParticipants := unique_ids [] (userId :: ps) in
        let participantUsers :=
          List.filter (fun u => includes_id allParticipants (user_id u)) (users db) in
        if negb (length participantUsers =? length allParticipants)%nat then
          (respond 404 (Msg "One or more users not found"), db)
        else
          match findUser db userId ≫= company with
          | None => (server_error, db)
          | Some companyId =>
              match some_other_company companyId participantUsers with
              | None => (server_error, db)
              | Some true =>
                  (respond 403 (Msg "Cannot create group with users from different companies"), db)
              | Some false =>
                  let (newChat, db') :=
                    insert_chat (fun id =>
                      {| chat_id := id; chatType := group;
                         participants := allParticipants;
                         messages := []; name := groupName;
                         admins := [userId];
                         unreadCounts :=
                           map (fun id => {| unread_user := id; count := 0 |})
                               allParticipants |}) db in
                  (respond 201 (ChatDoc newChat), db')
              end
          end
  end.

(** The filter of [getMessages]: [msg => !msg.deletedFor.includes(userId)]. *)
Definition visible_to (userId : UserId) (msg : Message) : bool :=
  negb (includes_id (deletedFor msg) userId).

(** [exports.getMessages]; [parsedPage] and [parsedLimit] are the results
    of [parseInt], [None] for NaN. *)
Definition getMessages (userId : UserId) (chatId : ChatId)
    (parsedPage parsedLimit : option Z) (db : DB) : Response * DB :=
  let skip := JS.num_mul (JS.num_sub parsedPage (Some 1%Z)) parsedLimit in
  match findById db chatId with
  | None => (respond 404 (Msg "Chat not found"), db)
  | Some chat =>
      if negb (includes_id (participants chat) userId) then
        (respond 403 (Msg "Not authorized to access this chat"), db)
      else
        let msgs :=
          JS.slice
            (JS.sort (fun a b => (createdAt b - createdAt a)%Z)
                     (List.filter (visible_to userId) (messages chat)))
            skip (JS.num_add skip parsedLimit) in
        let chat' := resetUnreadCount chat userId in
        (respond 200
           (MessagePage (rev msgs)
              (length (List.filter (visible_to userId) (messages chat')))
              parsedPage parsedLimit),
         save chat' db)
  end.

(** The message that [sendMessage] and [replyToMessage] push; the schema
    supplies the defaults and the timestamps. *)
Definition new_message (id : MessageId) (now : Time) (userId : UserId)
    (text : string) (files : list Attachment) (reply : option MessageId)
    : Message :=
  {| msg_id := id; sender := userId; content := text;
     attachments := files; reactions := [];
     readBy := [ReceiptUser userId now];
     deliveredTo := [ReceiptUser userId now];
     isDeleted := false; deletedFor := []; replyTo := reply;
     edited := false; editHistory := []; createdAt := now |}.

(** [chat.unreadCounts.forEach(item => { if (item.user.toString() !==
    userId.toString()) item.count += 1 })]. *)
Definition bump_others (userId : UserId) (ucs : list UnreadCount)
    : list UnreadCount :=
  map (fun item =>
         if negb (same_id (unread_user item) userId)
         then {| unread_user := unread_user item; count := count item + 1 |}
         else item) ucs.

Definition to_attachment (file : File) : Attachment :=
  {| fileName := originalname file; fileType := mimetype file;
     fileUrl := JS.backslash_to_slash (path file); fileSize := size file |}.

(** [exports.sendMessage].  [content] is a required string of the message
    schema, and Mongoose's required validator rejects the empty string:
    with files and no text, [chat.save()] throws and the [catch] answers. *)
Definition sendMessage (now : Time) (userId : UserId) (chatId : ChatId)
    (content_ : string) (files : list File) (db : DB) : Response * DB :=
  if negb (JS.truthy content_) && (length files =? 0)%nat then
    (respond 400 (Msg "Message content or attachments are required"), db)
  else
    match findById db chatId with
    | None => (respond 404 (Msg "Chat not found"), db)
    | Some chat =>
        if negb (existsb (fun p => same_id p userId) (participants chat)) then
          (respond 403 (Msg "Not authorized to send messages to this chat"), db)
        else
          let newMessage :=
            new_message (nextId db) now userId content_
                        (map to_attachment files) None in
          let chat' :=
            set_unreadCounts (bump_others userId (unreadCounts chat))
              (set_messages (messages chat ++ [newMessage]) chat) in
          if negb (JS.truthy content_) then
            (respond 500 (Msg "Error sending message"), db)
          else
            (respond 201 (MessageDoc newMessage), take_id (save chat' db))
    end.

(** [message.readBy.some(read => read.user.toString() === userId.toString())];
    [None] when the scan reaches a receipt without a [user] field, on
    which [read.user.toString()] throws. *)
Fixpoint read_by (userId : UserId) (rb : list Receipt) : option bool :=
  match rb with
  | [] => Some false
  | ReceiptUser u _ :: rb' =>
      if same_id u userId then Some true else read_by userId rb'
  | ReceiptUserId _ _ :: _ => None
  end.

(** The body of the [forEach] of [markMessagesAsRead], on one message. *)
Definition mark_read (now : Time) (userId : UserId) (message : Message)
    : option Message :=
  seen ← read_by userId (readBy message);
  Some (if negb seen
        then set_readBy (readBy message ++ [ReceiptUser userId now]) message
        else message).

(** [exports.markMessagesAsRead]. *)
Definition markMessagesAsRead (now : Time) (userId : UserId) (chatId : ChatId)
    (db : DB) : Response * DB :=
  match findById db chatId with
  | None => (respond 404 (Msg "Chat not found"), db)
  | Some chat =>
      if negb (includes_id (participants chat) userId) then
        (respond 403 (Msg "Not authorized to access this chat"), db)
      else
        let chat' := resetUnreadCount chat userId in
        match mapM (mark_read now userId) (messages chat') with
        | None => (server_error, db)
        | Some ms =>
            (respond 200 (Msg "Messages marked as read"),
             save (set_messages ms chat') db)
        end
  end.

(** The placeholder a message deleted for everyone is given. *)
Definition deleted_placeholder : string := "This message was deleted".

Definition tombstone (message : Message) : Message :=
  set_attachments [] (set_content deleted_placeholder (set_isDeleted true message)).

Definition delete_for (userId : UserId) (message : Message) : Message :=
  if negb (includes_id (deletedFor message) userId)
  then set_deletedFor (deletedFor message ++ [userId]) message
  else message.

(** [exports.deleteMessage]; [forEveryone] is the truth value of the query
    parameter. *)
Definition deleteMessage (userId : UserId) (chatId : ChatId)
    (messageId : MessageId) (forEveryone : bool) (db : DB) : Response * DB :=
  match findById db chatId with
  | None => (respond 404 (Msg "Chat not found"), db)
  | Some chat =>
      match message_by_id chat messageId with
      | None => (respond 404 (Msg "Message not found"), db)
      | Some message =>
          if forEveryone && negb (same_id (sender message) userId) then
            (respond 403 (Msg "Only the sender can delete for everyone"), db)
          else
            let chat' :=
              if forEveryone then update_message messageId tombstone chat
              else update_message messageId (delete_for userId) chat in
            (respond 200 (Deleted "Message deleted successfully" forEveryone),
             save chat' db)
      end
  end.

(** [message.reactions.filter(reaction => reaction.user.toString() !==
    userId.toString())]. *)
Definition without_reaction_of (userId : UserId) (rs : list Reaction)
    : list Reaction :=
  List.filter (fun reaction => negb (same_id (reaction_user reaction) userId)) rs.

Definition react (userId : UserId) (emoji_ : string) (message : Message)
    : Message :=
  set_reactions
    (without_reaction_of userId (reactions message)
       ++ [{| reaction_user := userId; emoji := emoji_ |}]) message.

Definition unreact (userId : UserId) (message : Message) : Message :=
  set_reactions (without_reaction_of userId (reactions message)) message.

(** [exports.addReaction]. *)
Definition addReaction (userId : UserId) (chatId : ChatId)
    (messageId : MessageId) (emoji_ : string) (db : DB) : Response * DB :=
  if negb (JS.truthy emoji_) then
    (respond 400 (Msg "Emoji is required"), db)
  else
    match findById db chatId with
    | None => (respond 404 (Msg "Chat not found"), db)
    | Some chat =>
        if negb (includes_id (participants chat) userId) then
          (respond 403 (Msg "Not authorized to react to messages in this chat"), db)
        else
          match message_by_id chat messageId with
          | None => (respond 404 (Msg "Message not found"), db)
          | Some _ =>
              (respond 200
                 (ReactionAdded "Reaction added successfully"
                    {| reaction_user := userId; emoji := emoji_ |}),
               save (update_message messageId (react userId emoji_) chat) db)
          end
    end.

(** [exports.removeReaction]. *)
Definition removeReaction (userId : UserId) (chatId : ChatId)
    (messageId : MessageId) (db : DB) : Response * DB :=
  match findById db chatId with
  | None => (respond 404 (Msg "Chat not found"), db)
  | Some chat =>
      match message_by_id chat messageId with
      | None => (respond 404 (Msg "Message not found"), db)
      | Some _ =>
          (respond 200 (Msg "Reaction removed successfully"),
           save (update_message messageId (unreact userId) chat) db)
      end
  end.

Definition edit (now : Time) (content_ : string) (message : Message) : Message :=
  set_content content_
    (set_edit (editHistory message
                 ++ [{| previous_content := content message; editedAt := now |}])
              message).

(** [exports.editMessage].  An absent chat makes [chat.messages] throw;
    an empty new content fails the validation of [chat.save()]. *)
Definition editMessage (now : Time) (userId : UserId) (chatId : ChatId)
    (messageId : MessageId) (content_ : string) (db : DB) : Response * DB :=
  match findById db chatId with
  | None => (server_error, db)
  | Some chat =>
      match message_by_id chat messageId with
      | None => (respond 403 (Msg "Not authorized to edit this message"), db)
      | Some message =>
          if negb (same_id (sender message) userId) then
            (respond 403 (Msg "Not authorized to edit this message"), db)
          else if negb (JS.truthy content_) then (server_error, db)
          else
            (respond 200 (MessageDoc (edit now content_ message)),
             save (update_message messageId (edit now content_) chat) db)
      end
  end.

(** [exports.searchMessages]; [query] is [None] when the query parameter
    is absent, and then [query.toLowerCase()] throws on the first message
    the filter visits.  The handler reads neither [req.user] nor
    [deletedFor]. *)
Definition searchMessages (chatId : ChatId) (query : option string) (db : DB)
    : Response * DB :=
  match findById db chatId with
  | None => (server_error, db)
  | Some chat =>
      match query with
      | Some q =>
          (respond 200
             (MessageList
                (List.filter
                   (fun msg => JS.includes (JS.toLowerCase (content msg))
                                           (JS.toLowerCase q))
                   (messages chat))), db)
      | None =>
          match messages chat with
          | [] => (respond 200 (MessageList []), db)
          | _ :: _ => (server_error, db)
          end
      end
  end.

(** [exports.replyToMessage].  The message is stored with its [replyTo];
    in the answer, [replyTo] has been populated from the collection of
    the model Message, which no handler writes, and is [null]. *)
Definition replyToMessage (now : Time) (userId : UserId) (chatId : ChatId)
    (messageId : MessageId) (content_ : string) (db : DB) : Response * DB :=
  if negb (JS.truthy content_) || String.eqb (JS.trim content_) "" then
    (respond 400 (Msg "Reply content is required"), db)
  else
    match findById db chatId with
    | None => (respond 404 (Msg "Chat not found"), db)
    | Some chat =>
        match message_by_id chat messageId with
        | None => (respond 404 (Msg "Original message not found"), db)
        | Some _ =>
            let newMessage :=
              new_message (nextId db) now userId content_ [] (Some messageId) in
            let chat' :=
              set_unreadCounts (bump_others userId (unreadCounts chat))
                (set_messages (messages chat ++ [newMessage]) chat) in
            (respond 201 (MessageDoc (set_replyTo None newMessage)),
             take_id (save chat' db))
        end
    end.

End Controller.

(** ** socket.js *)
Module Socket.
Import Model.

Inductive Status := online | offline.

#[global] Instance Status_eq_dec : EqDecision Status.
Proof. solve_decision. Defined.

(** The process state: the durable store and [userSockets], the map from
    a user to the id of the socket registered last for that user. *)
Record Server := {
  db : DB;
  userSockets : gmap UserId SocketId }.

(** Where an event is sent. *)
Inductive Target :=
| ToSender                      (* socket.emit *)
| ToOthers                      (* socket.broadcast.emit *)
| ToRoomButSender (chatId : ChatId)    (* socket.to(`chat-${chatId}`).emit *)
| ToUser (userId : UserId).     (* io.to(`user-${userId}`).emit *)

Inductive Event :=
| userStatusChange (userId : UserId) (status : Status)
| newMessage (chatId : ChatId) (messageId : MessageId)
| messageReadBy (messageId : MessageId) (userId : UserId) (chatId : ChatId) (readAt : Time)
| messageReaction (chatId : ChatId) (messageId : MessageId) (reaction : Reaction)
| reactionRemoved (chatId : ChatId) (messageId : MessageId) (userId : UserId)
| messageDeleted (chatId : ChatId) (messageId : MessageId) (forEveryone : bool)
| presenceInfo (info : gmap UserId Status).

Definition Emitted : Type := list (Target * Event).

Definition set_db (d : DB) (st : Server) : Server :=
  {| db := d; userSockets := userSockets st |}.

(** [Chat.updateOne({ _id: chatId, 'messages._id': messageId }, update)]
    where [update] acts on [messages.$], the first message of that id, of
    the first chat the filter matches. *)
Definition matches (chatId : ChatId) (messageId : MessageId) (c : Chat) : bool :=
  same_id (chat_id c) chatId
  && existsb (fun m => same_id (msg_id m) messageId) (messages c).

Definition updateOne (chatId : ChatId) (messageId : MessageId)
    (f : Message -> Message) (d : DB) : DB :=
  set_chats
    (JS.update_first (matches chatId messageId) (update_message messageId f)
                     (chats d)) d.

(** [io.on('connection')]: the socket is registered, replacing the one
    registered before for the user, and the others are told. *)
Definition on_connection (userId : UserId) (socketId : SocketId) (st : Server)
    : Server * Emitted :=
  ({| db := db st; userSockets := <[userId := socketId]> (userSockets st) |},
   [(ToOthers, userStatusChange userId online)]).

(** [socket.on('disconnect')]. *)
Definition on_disconnect (userId : UserId) (st : Server) : Server * Emitted :=
  ({| db := db st; userSockets := delete userId (userSockets st) |},
   [(ToOthers, userStatusChange userId offline)]).

(** [socket.on('sendMessage')].  [chat.participants] holds ObjectIds
    (Chat.js), so that [p.user] is undefined in the callback of the
    filter and [p.user.toString()] throws on the first participant; the
    [catch] logs the error.  Only a chat without participants reaches the
    broadcast, and then neither the delivery update nor the notification
    loop has anything to do. *)
Definition on_sendMessage (userId : UserId) (chatId : ChatId)
    (messageId : MessageId) (st : Server) : Server * Emitted :=
  match findById (db st) chatId with
  | None => (st, [])
  | Some chat =>
      match participants chat with
      | _ :: _ => (st, [])
      | [] => (st, [(ToRoomButSender chatId, newMessage chatId messageId)])
      end
  end.

(** [socket.on('messageRead')]; [userId] comes with the event.  The
    receipt is added by [$addToSet] with the time of the call; the update
    is cast to the schema, which makes the receipt a subdocument with an
    [_id] of its own, equal to none of the stored ones: it is appended
    every time.  The handler then reads [chat.unreadCount], which the schema does not have,
    and calls [get] on the empty object it falls back to: that throws, so
    the counter is left alone and the broadcast is reached only when the
    chat does not exist. *)
Definition on_messageRead (now : Time) (chatId : ChatId)
    (messageId : MessageId) (userId : UserId) (st : Server) : Server * Emitted :=
  let d :=
    updateOne chatId messageId
      (fun m => set_readBy (readBy m ++ [ReceiptUserId userId now]) m)
      (db st) in
  match findById d chatId with
  | Some _ => (set_db d st, [])
  | None =>
      (set_db d st,
       [(ToRoomButSender chatId, messageReadBy messageId userId chatId now)])
  end.

(** [socket.on('addReaction')]: a [$pull] of the reactions of the user,
    then an [$addToSet] of the new one ([createdAt] is not a field of the
    reaction schema). *)
Definition on_addReaction (userId : UserId) (chatId : ChatId)
    (messageId : MessageId) (emoji_ : string) (st : Server) : Server * Emitted :=
  let r := {| reaction_user := userId; emoji := emoji_ |} in
  let d1 :=
    updateOne chatId messageId
      (fun m => set_reactions
                  (List.filter (fun x => negb (same_id (reaction_user x) userId))
                               (reactions m)) m)
      (db st) in
  let d2 :=
    updateOne chatId messageId
      (fun m => set_reactions (JS.addToSet r (reactions m)) m) d1 in
  (set_db d2 st, [(ToRoomButSender chatId, messageReaction chatId messageId r)]).

(** [socket.on('removeReaction')]. *)
Definition on_removeReaction (userId : UserId) (chatId : ChatId)
    (messageId : MessageId) (st : Server) : Server * Emitted :=
  let d :=
    updateOne chatId messageId
      (fun m => set_reactions
                  (List.filter (fun x => negb (same_id (reaction_user x) userId))
                               (reactions m)) m)
      (db st) in
  (set_db d st, [(ToRoomButSender chatId, reactionRemoved chatId messageId userId)]).

(** The check of [socket.on('deleteMessage')]:
    [Chat.findOne({ _id: chatId, 'messages._id': messageId,
    'messages.sender': socket.userId })].  Each of the two conditions on
    [messages] is met by any element of the array. *)
Definition may_delete_for_everyone (userId : UserId) (chatId : ChatId)
    (messageId : MessageId) (d : DB) : option Chat :=
  find (fun c =>
          same_id (chat_id c) chatId
          && existsb (fun m => same_id (msg_id m) messageId) (messages c)
          && existsb (fun m => same_id (sender m) userId) (messages c))
       (chats d).

(** [socket.on('deleteMessage')]. *)
Definition on_deleteMessage (userId : UserId) (chatId : ChatId)
    (messageId : MessageId) (forEveryone : bool) (st : Server)
    : Server * Emitted :=
  if forEveryone then
    match may_delete_for_everyone userId chatId messageId (db st) with
    | None => (st, [])
    | Some _ =>
        (set_db (updateOne chatId messageId (set_isDeleted true) (db st)) st,
         [(ToRoomButSender chatId, messageDeleted chatId messageId true)])
    end
  else
    (set_db
       (updateOne chatId messageId
          (fun m => set_deletedFor (JS.addToSet userId (deletedFor m)) m)
          (db st)) st,
     []).

(** [getUserStatus]. *)
Definition getUserStatus (registry : gmap UserId SocketId) (userId : UserId)
    : Status :=
  if bool_decide (is_Some (registry !! userId)) then online else offline.

(** [getOnlineUsers]. *)
Definition getOnlineUsers (registry : gmap UserId SocketId) : list UserId :=
  (map_to_list registry).*1.

(** The loop of [socket.on('getPresence')], which fills the object
    [presenceInfo] from [userSockets]. *)
Definition presence_of (registry : gmap UserId SocketId) (userIds : list UserId)
    : gmap UserId Status :=
  foldl (fun info id =>
           <[id := if bool_decide (is_Some (registry !! id))
                   then online else offline]> info)
        ∅ userIds.

(** [socket.on('getPresence')]. *)
Definition on_getPresence (userIds : list UserId) (st : Server)
    : Server * Emitted :=
  (st, [(ToSender, presenceInfo (presence_of (userSockets st) userIds))]).

End Socket.

(** ** routes/chat.routes.js and the event table of socket.js *)
Module Server.
Import Model Controller Socket.

(** The routes of the chat router that reach the store, with what each
    handler reads of the request. *)
Inductive Request :=
| CreateDirectChat (userId targetUserId : UserId)
| CreateGroupChat (userId : UserId) (groupName : string)
                  (participants_ : option (list UserId))
| GetMessages (userId : UserId) (chatId : ChatId) (page limit : option Z)
| SendMessage (now : Time) (userId : UserId) (chatId : ChatId)
              (content_ : string) (files : list File)
| EditMessage (now : Time) (userId : UserId) (chatId : ChatId)
              (messageId : MessageId) (content_ : string)
| DeleteMessage (userId : UserId) (chatId : ChatId) (messageId : MessageId)
                (forEveryone : bool)
| AddReaction (userId : UserId) (chatId : ChatId) (messageId : MessageId)
              (emoji_ : string)
| RemoveReaction (userId : UserId) (chatId : ChatId) (messageId : MessageId)
| ReplyToMessage (now : Time) (userId : UserId) (chatId : ChatId)
                 (messageId : MessageId) (content_ : string)
| MarkMessagesAsRead (now : Time) (userId : UserId) (chatId : ChatId)
| SearchMessages (chatId : ChatId) (query : option string).

Definition handle (r : Request) (d : DB) : Response * DB :=
  match r with
  | CreateDirectChat u t => createDirectChat u t d
  | CreateGroupChat u n ps => createGroupChat u n ps d
  | GetMessages u c page limit => getMessages u c page limit d
  | SendMessage now u c text files => sendMessage now u c text files d
  | EditMessage now u c m text => editMessage now u c m text d
  | DeleteMessage u c m b => deleteMessage u c m b d
  | AddReaction u c m e => addReaction u c m e d
  | RemoveReaction u c m => removeReaction u c m d
  | ReplyToMessage now u c m text => replyToMessage now u c m text d
  | MarkMessagesAsRead now u c => markMessagesAsRead now u c d
  | SearchMessages c q => searchMessages c q d
  end.

(** The events a connected socket of user [userId] can send. *)
Inductive SocketEvent :=
| Connection (socketId : SocketId)
| Disconnect
| EvSendMessage (chatId : ChatId) (messageId : MessageId)
| EvMessageRead (now : Time) (chatId : ChatId) (messageId : MessageId)
                (reader : UserId)
| EvAddReaction (chatId : ChatId) (messageId : MessageId) (emoji_ : string)
| EvRemoveReaction (chatId : ChatId) (messageId : MessageId)
| EvDeleteMessage (chatId : ChatId) (messageId : MessageId) (forEveryone : bool)
| EvGetPresence (userIds : list UserId).

Definition on (userId : UserId) (e : SocketEvent) (st : Server)
    : Server * Emitted :=
  match e with
  | Connection s => on_connection userId s st
  | Disconnect => on_disconnect userId st
  | EvSendMessage c m => on_sendMessage userId c m st
  | EvMessageRead now c m reader => on_messageRead now c m reader st
  | EvAddReaction c m e => on_addReaction userId c m e st
  | EvRemoveReaction c m => on_removeReaction userId c m st
  | EvDeleteMessage c m b => on_deleteMessage userId c m b st
  | EvGetPresence ids => on_getPresence ids st
  end.

(** One unit of work of the process: an HTTP request on the chat routes,
    or an event of the socket of a user. *)
Inductive Action :=
| Http (r : Request)
| Ws (userId : UserId) (e : SocketEvent).

Definition step (st : Server) (a : Action) : Server :=
  match a with
  | Http r => set_db (handle r (db st)).2 st
  | Ws u e => (on u e st).1
  end.

Definition run (st : Server) (actions : list Action) : Server :=
  foldl step st actions.

(** The message of id [messageId] that the handlers find in the chat of
    id [chatId]. *)
Definition lookup_message (d : DB) (chatId : ChatId) (messageId : MessageId)
    : option Message :=
  findById d chatId ≫= fun c => message_by_id c messageId.

(** The reactions of a user on a message. *)
Definition reactions_of (userId : UserId) (m : Message) : list Reaction :=
  List.filter (fun r => same_id (reaction_user r) userId) (reactions m).

(** A user has read a message when [readBy] holds a receipt with the
    user in its [user] field. *)
Definition has_read (userId : UserId) (m : Message) : Prop :=
  exists t, ReceiptUser userId t ∈ readBy m.

(** The unread counters cover the participants and are not negative: so
    the chats are created, and so they stay. *)
Definition has_counter (c : Chat) (userId : UserId) : Prop :=
  userId ∈ map unread_user (unreadCounts c).

Definition counters_ok (c : Chat) : Prop :=
  (forall p, p ∈ participants c -> has_counter c p)
  /\ Forall (fun item => (0 <= count item)%Z) (unreadCounts c).

(** No user has two reactions on a message, in any stored chat. *)
Definition reactions_ok (m : Message) : Prop :=
  forall u, length (reactions_of u m) <= 1.

Definition messages_ok (d : DB) : Prop :=
  Forall (fun c => Forall reactions_ok (messages c)) (chats d).

(** For two different users there is at most one direct chat. *)
Definition direct_chats_unique (d : DB) : Prop :=
  forall a b, a <> b ->
    length (List.filter (direct_between a b) (chats d)) <= 1.

(** What a unit of work may do to a message that is stored: the id and
    the sender stay, receipts are only added at the end of [readBy], a
    user with at most one reaction keeps at most one, and a deletion is
    not taken back. *)
Record evolves (m m' : Message) : Prop := {
  evolves_id : msg_id m' = msg_id m;
  evolves_sender : sender m' = sender m;
  evolves_readBy : readBy m `prefix_of` readBy m';
  evolves_reactions :
    forall u, length (reactions_of u m) <= 1 -> length (reactions_of u m') <= 1;
  evolves_isDeleted : isDeleted m = true -> isDeleted m' = true;
  evolves_deletedFor : deletedFor m ⊆ deletedFor m' }.

End Server.

Import Model Controller Socket Server.

(** ** Scenarios: three users of one company and a direct chat *)
Module Scenario.

Definition alice : UserId := 1%N.
Definition bob : UserId := 2%N.
Definition carol : UserId := 3%N.

Definition people : list User :=
  [ {| user_id := alice; company := Some 50%N |};
    {| user_id := bob; company := Some 50%N |};
    {| user_id := carol; company := Some 50%N |} ].

(** No chat yet. *)
Definition db_start : DB :=
  {| users := people; chats := []; notifications := []; nextId := 100%N |}.

(** Alice has opened a direct chat with Bob: chat 100. *)
Definition chat_empty : Chat :=
  {| chat_id := 100%N; chatType := direct; participants := [alice; bob];
     messages := []; name := ""; admins := [];
     unreadCounts := [ {| unread_user := alice; count := 0 |};
                       {| unread_user := bob; count := 0 |} ] |}.

Definition db_chat : DB :=
  {| users := people; chats := [chat_empty]; notifications := [];
     nextId := 101%N |}.

(** Bob has sent message 101, with a file, at time 1000. *)
Definition report_file : Attachment :=
  {| fileName := "q3.pdf"; fileType := "application/pdf";
     fileUrl := "uploads/q3.pdf"; fileSize := 2048 |}.

Definition msg_report : Message :=
  {| msg_id := 101%N; sender := bob; content := "Quarterly Report";
     attachments := [report_file]; reactions := [];
     readBy := [ReceiptUser bob 1000]; deliveredTo := [ReceiptUser bob 1000];
     isDeleted := false; deletedFor := []; replyTo := None;
     edited := false; editHistory := []; createdAt := 1000 |}.

Definition chat_sent : Chat :=
  {| chat_id := 100%N; chatType := direct; participants := [alice; bob];
     messages := [msg_report]; name := ""; admins := [];
     unreadCounts := [ {| unread_user := alice; count := 1 |};
                       {| unread_user := bob; count := 0 |} ] |}.

Definition db_sent : DB :=
  {| users := people; chats := [chat_sent]; notifications := [];
     nextId := 102%N |}.

(** Alice has deleted message 101 for herself. *)
Definition db_hidden : DB :=
  {| users := people;
     chats := [set_messages [set_deletedFor [alice] msg_report] chat_sent];
     notifications := []; nextId := 102%N |}.

(** Alice has answered with message 102 at time 1500. *)
Definition msg_answer : Message :=
  {| msg_id := 102%N; sender := alice; content := "Thanks";
     attachments := []; reactions := [];
     readBy := [ReceiptUser alice 1500]; deliveredTo := [ReceiptUser alice 1500];
     isDeleted := false; deletedFor := []; replyTo := None;
     edited := false; editHistory := []; createdAt := 1500 |}.

Definition db_answered : DB :=
  {| users := people;
     chats := [ {| chat_id := 100%N; chatType := direct;
                   participants := [alice; bob];
                   messages := [msg_report; msg_answer]; name := "";
                   admins := [];
                   unreadCounts := [ {| unread_user := alice; count := 1 |};
                                     {| unread_user := bob; count := 1 |} ] |} ];
     notifications := []; nextId := 103%N |}.

(** Alice is connected on socket 7; Bob and Carol are not connected. *)
Definition only_alice_online (d : DB) : Server :=
  {| db := d; userSockets := {[ alice := 7%N ]} |}.

(** Alice and Bob are both connected. *)
Definition both_online (d : DB) : Server :=
  {| db := d; userSockets := {[ alice := 7%N; bob := 8%N ]} |}.

Definition upload : File :=
  {| originalname := "q3.pdf"; mimetype := "application/pdf";
     path := "uploads\q3.pdf"; size := 2048 |}.

End Scenario.

(** ** models/Chat.js: the grouping of messages *)
Module Grouping.
Import Model.

(** A group of [groupMessages]: [{ sender, messages, lastMessageAt }]. *)
Record Group := {
  group_sender : UserId;
  group_messages : list Message;
  lastMessageAt : Time }.

(** The body of the [forEach] of [groupMessages].  [groupedMessages]
    holds the object [currentGroup] as its last element, so that the
    pushes to [currentGroup.messages] show in the array: the state is the
    groups before the current one, and the current one. *)
Definition add_message (st : list Group * option Group) (message : Message)
    : list Group * option Group :=
  let (closed, currentGroup) := st in
  let fresh :=
    {| group_sender := sender message; group_messages := [message];
       lastMessageAt := createdAt message |} in
  match currentGroup with
  | None => (closed, Some fresh)
  | Some g =>
      if negb (same_id (group_sender g) (sender message))
         || (300000 <? createdAt message - lastMessageAt g)%Z
      then (closed ++ [g], Some fresh)
      else (closed,
            Some {| group_sender := group_sender g;
                    group_messages := group_messages g ++ [message];
                    lastMessageAt := createdAt message |})
  end.

(** [MessageSchema.statics.groupMessages]. *)
Definition groupMessages (messages_ : list Message) : list Group :=
  let (closed, currentGroup) := foldl add_message ([], None) messages_ in
  closed ++ option_list currentGroup.

End Grouping.

(** ** controllers/notification.controller.js: the requests of a user
    about the notifications *)
Module NotificationController.
Import Model.

(** A stored notification: its [_id] and its fields. *)
Definition Stored : Type := ObjectId * Notification.

Definition set_read (n : Notification) : Notification :=
  {| notification_user := notification_user n;
     notification_type := notification_type n; title := title n;
     notification_message := notification_message n; task := task n;
     from := from n; read := true |}.

(** What a handler answers: a status with a message, a count, or a
    document. *)
Inductive Reply :=
| Text (status : N) (message : string)
| Count (count : nat)
| Document (doc : Stored).

(** What a handler has done: its answer, the collection it leaves, and the
    unread count it has emitted to the room of the user, if any. *)
Record Outcome := {
  reply : Reply;
  collection : list Stored;
  emitted : option nat }.

(** The filter [{ user: req.user.id, read: false }]. *)
Definition unread_of (userId : UserId) (doc : Stored) : bool :=
  same_id (notification_user doc.2) userId && negb (read doc.2).

(** The filter [{ user: req.user.id, read: true }]. *)
Definition read_of (userId : UserId) (doc : Stored) : bool :=
  same_id (notification_user doc.2) userId && read doc.2.

(** The filter [{ _id: req.params.id, user: req.user.id }]. *)
Definition own (id : ObjectId) (userId : UserId) (doc : Stored) : bool :=
  same_id doc.1 id && same_id (notification_user doc.2) userId.

(** [Notification.countDocuments({ user, read: false })]. *)
Definition countUnread (userId : UserId) (docs : list Stored) : nat :=
  length (List.filter (unread_of userId) docs).

(** [exports.getUnreadCount]. *)
Definition getUnreadCount (userId : UserId) (docs : list Stored) : Outcome :=
  {| reply := Count (countUnread userId docs); collection := docs;
     emitted := None |}.

(** [exports.markAsRead]; [id] is [req.params.id], [None] when it is not
    the text of an ObjectId, which makes the query throw. *)
Definition markAsRead (id : option ObjectId) (userId : UserId)
    (docs : list Stored) : Outcome :=
  match id with
  | None =>
      {| reply := Text 500 "Error updating notification"; collection := docs;
         emitted := None |}
  | Some id =>
      match find (own id userId) docs with
      | None =>
          {| reply := Text 404 "Notification not found"; collection := docs;
             emitted := None |}
      | Some doc =>
          let docs' :=
            JS.update_first (own id userId)
                            (fun doc => (doc.1, set_read doc.2)) docs in
          {| reply := Document (doc.1, set_read doc.2); collection := docs';
             emitted := Some (countUnread userId docs') |}
      end
  end.

(** [exports.markAllAsRead]. *)
Definition markAllAsRead (userId : UserId) (docs : list Stored) : Outcome :=
  {| reply := Text 200 "All notifications marked as read";
     collection :=
       map (fun doc => if unread_of userId doc then (doc.1, set_read doc.2)
                       else doc) docs;
     emitted := Some 0 |}.

(** [findOneAndDelete]: the first document that matches goes. *)
Fixpoint delete_first {A} (p : A -> bool) (l : list A) : list A :=
  match l with
  | [] => []
  | x :: l' => if p x then l' else x :: delete_first p l'
  end.

(** [exports.deleteNotification]. *)
Definition deleteNotification (id : option ObjectId) (userId : UserId)
    (docs : list Stored) : Outcome :=
  match id with
  | None =>
      {| reply := Text 500 "Error deleting notification"; collection := docs;
         emitted := None |}
  | Some id =>
      match find (own id userId) docs with
      | None =>
          {| reply := Text 404 "Notification not found"; collection := docs;
             emitted := None |}
      | Some _ =>
          {| reply := Text 200 "Notification deleted";
             collection := delete_first (own id userId) docs;
             emitted := None |}
      end
  end.

(** [exports.clearAllNotifications]. *)
Definition clearAllNotifications (userId : UserId) (docs : list Stored)
    : Outcome :=
  {| reply := Text 200 "All read notifications cleared";
     collection := List.filter (fun doc => negb (read_of userId doc)) docs;
     emitted := None |}.

(** The requests of a user on the notification routes that reach the
    collection by these handlers. *)
Inductive Request :=
| GetUnreadCount
| MarkAsRead (id : option ObjectId)
| MarkAllAsRead
| DeleteNotification (id : option ObjectId)
| ClearAllNotifications.

Definition handle (userId : UserId) (r : Request) (docs : list Stored)
    : Outcome :=
  match r with
  | GetUnreadCount => getUnreadCount userId docs
  | MarkAsRead id => markAsRead id userId docs
  | MarkAllAsRead => markAllAsRead userId docs
  | DeleteNotification id => deleteNotification id userId docs
  | ClearAllNotifications => clearAllNotifications userId docs
  end.

(** The collection after a sequence of requests, each with its user. *)
Definition run (docs : list Stored) (requests : list (UserId * Request))
    : list Stored :=
  foldl (fun docs ur => collection (handle ur.1 ur.2 docs)) docs requests.

(** The notifications of a user, in the collection. *)
Definition of_user (userId : UserId) (docs : list Stored) : list Stored :=
  List.filter (fun doc => same_id (notification_user doc.2) userId) docs.

End NotificationController.

(** ** The routers: routes/chat.routes.js, routes/notification.routes.js,
    routes/task.routes.js *)
Module Express.

Inductive Method := GET | POST | PUT | PATCH | DELETE.

#[global] Instance Method_eq_dec : EqDecision Method.
Proof. solve_decision. Defined.

(** A segment of a route path: a literal, or a parameter [:name]. *)
Inductive Segment := Lit (s : string) | Param (name : string).

(** [router.METHOD(path, ..., handler)]; the handler is kept by its name. *)
Record Route := {
  method : Method;
  pattern : list Segment;
  handler : string }.

(** A request path is the list of its segments: [/a/b] and [/a/b/] are
    [a; b], [/] is the empty list.  A literal is compared without regard
    to case (routing is not case sensitive unless asked to be); a
    parameter takes any segment that is not empty. *)
Definition segment_matches (p : Segment) (s : string) : bool :=
  match p with
  | Lit l => String.eqb (JS.toLowerCase l) (JS.toLowerCase s)
  | Param _ => negb (String.eqb s "")
  end.

Fixpoint path_matches (pat : list Segment) (path : list string) : bool :=
  match pat, path with
  | [], [] => true
  | p :: pat', s :: path' => segment_matches p s && path_matches pat' path'
  | _, _ => false
  end.

Definition route_matches (m : Method) (path : list string) (r : Route) : bool :=
  bool_decide (method r = m) && path_matches (pattern r) path.

(** The router tries its routes in the order of their declaration; the
    first one that matches gets the request, and none of the handlers
    here passes it on. *)
Definition dispatch (table : list Route) (m : Method) (path : list string)
    : option Route :=
  find (route_matches m path) table.

Definition route (m : Method) (pat : list Segment) (h : string) : Route :=
  {| method := m; pattern := pat; handler := h |}.

(** routes/chat.routes.js *)
Definition chat_routes : list Route :=
  [ route POST [Lit "direct"] "createDirectChat";
    route POST [Lit "group"] "createGroupChat";
    route GET [Lit "user"; Lit "chats"] "getUserChats";
    route GET [Param "chatId"] "getChatById";
    route GET [Param "chatId"; Lit "messages"] "getMessages";
    route POST [Param "chatId"; Lit "messages"] "sendMessage";
    route PUT [Param "chatId"; Lit "messages"; Param "messageId"] "editMessage";
    route DELETE [Param "chatId"; Lit "messages"; Param "messageId"]
          "deleteMessage";
    route POST [Param "chatId"; Lit "messages"; Param "messageId"; Lit "reactions"]
          "addReaction";
    route DELETE [Param "chatId"; Lit "messages"; Param "messageId"; Lit "reactions"]
          "removeReaction";
    route POST [Param "chatId"; Lit "messages"; Param "messageId"; Lit "reply"]
          "replyToMessage";
    route POST [Param "chatId"; Lit "read"] "markMessagesAsRead";
    route POST [Param "chatId"; Lit "typing"] "updateTypingStatus";
    route GET [Lit "search"] "searchChats";
    route GET [Param "chatId"; Lit "search"] "searchMessages" ].

(** routes/notification.routes.js *)
Definition notification_routes : list Route :=
  [ route GET [] "getNotifications";
    route GET [Lit "unread-count"] "getUnreadCount";
    route PUT [Param "id"; Lit "read"] "markAsRead";
    route PUT [Lit "mark-all-read"] "markAllAsRead";
    route DELETE [Param "id"] "deleteNotification";
    route DELETE [Lit "clear-all"] "clearAllNotifications" ].

(** routes/task.routes.js *)
Definition task_routes : list Route :=
  [ route GET [Lit "analytics"] "getTaskAnalytics";
    route GET [Lit "my-tasks"] "getMyTasks";
    route GET [Lit "my-stats"] "getMyStats";
    route GET [Lit "my-tasks-createdby"] "getMyTasksCreatedBy";
    route GET [Lit "assigned-tasks"] "getAssignedTasks";
    route POST [] "createTask";
    route GET [] "getTasks";
    route GET [Lit "hierarchy"] "getTasksByHierarchy";
    route GET [Lit "department"; Param "dept"] "getTasksByDepartment";
    route GET [Lit "timeline"] "getTaskTimeline";
    route GET [Param "id"] "getTaskById";
    route DELETE [Param "id"] "deleteTask";
    route POST [Param "id"; Lit "comments"] "addComment";
    route PATCH [Param "id"; Lit "status"] "updateTaskStatus";
    route PATCH [Param "id"] "updateTask";
    route GET [Lit "created-by-me"] "getTasksCreatedByMe";
    route PATCH [Param "id"; Lit "comments"] "patchAddComment";
    route POST [Param "id"; Lit "complete"] "submitTaskCompletion";
    route POST [Param "id"; Lit "attachments"] "addTaskAttachments" ].

End Express.

(** ** Notions used in the further properties *)
Module Notions.
Import Model Controller Socket Server.

(** The messages of the page that [getMessages] answers with. *)
Definition page_messages (r : Response) : list Message :=
  match body r with
  | MessagePage msgs _ _ _ => msgs
  | _ => []
  end.

(** The messages of a chat that a user may see, the newest first: what
    [getMessages] cuts its pages from. *)
Definition newest_first (userId : UserId) (chat : Chat) : list Message :=
  JS.sort (fun a b => (createdAt b - createdAt a)%Z)
          (List.filter (visible_to userId) (messages chat)).

(** What identifies a chat and its members. *)
Definition chat_static (c : Chat)
    : ChatId * ChatType * list UserId * list UserId * string :=
  (chat_id c, chatType c, participants c, admins c, name c).

(** A group chat has an admin, its admins are participants and no
    participant is listed twice. *)
Definition group_ok (c : Chat) : Prop :=
  chatType c = group ->
  admins c <> [] /\ admins c ⊆ participants c /\ NoDup (participants c).

(** The ids and the references of the messages of a chat. *)
Definition message_refs (c : Chat) : list (MessageId * option MessageId) :=
  map (fun m => (msg_id m, replyTo m)) (messages c).

(** Every reply refers to a message of the same chat. *)
Definition replies_ok (c : Chat) : Prop :=
  forall i r, (i, Some r) ∈ message_refs c -> r ∈ (message_refs c).*1.

(** A direct chat has two participants and no admin. *)
Definition direct_ok (c : Chat) : Prop :=
  chatType c = direct -> length (participants c) = 2 /\ admins c = [].

(** What a unit of work may do to a stored chat: what identifies the chat
    and its members stays, and messages are only added at the end, a
    reply among them only to a message of the chat. *)
Definition chat_grows (c c' : Chat) : Prop :=
  chat_static c' = chat_static c
  /\ exists new,
       message_refs c' = message_refs c ++ new
       /\ forall i r, (i, Some r) ∈ new -> r ∈ (message_refs c').*1.

(** What a new chat is sure to be, and to stay. *)
Definition chat_ok (c : Chat) : Prop :=
  replies_ok c /\ group_ok c /\ direct_ok c.

(** ... and to the store: the chats stay where they are, and new chats
    come after them. *)
Definition store_grows (d d' : DB) : Prop :=
  exists kept new,
    chats d' = kept ++ new
    /\ Forall2 chat_grows (chats d) kept
    /\ Forall chat_ok new.

(** The actions that change the registry entry of a user. *)
Definition touches_presence_of (userId : UserId) (a : Action) : bool :=
  match a with
  | Ws u (Connection _) | Ws u Disconnect => same_id u userId
  | _ => false
  end.

(** What holds of every message the handlers store: it has a content, the
    first receipt in [readBy] is the one of its sender, it counts as edited
    exactly when it has an edit history, and no entry of the history is
    empty. *)
Definition message_sound (m : Message) : Prop :=
  content m <> ""%string
  /\ (exists t, head (readBy m) = Some (ReceiptUser (sender m) t))
  /\ (edited m = true <-> editHistory m <> [])
  /\ Forall (fun e => previous_content e <> ""%string) (editHistory m).

Definition store_sound (d : DB) : Prop :=
  Forall (fun c => Forall message_sound (messages c)) (chats d).

(** Neighbours in a list are related. *)
Fixpoint chain {A} (R : A -> A -> Prop) (l : list A) : Prop :=
  match l with
  | x :: (y :: _) as l' => R x y /\ chain R l'
  | _ => True
  end.

(** Two messages that [groupMessages] keeps together: of one sender, the
    second not more than five minutes after the first. *)
Definition close_to (a b : Message) : Prop :=
  sender a = sender b /\ (createdAt b - createdAt a <= 300000)%Z.

(** A group as [groupMessages] builds it. *)
Definition group_wf (g : Grouping.Group) : Prop :=
  (exists m, last (Grouping.group_messages g) = Some m
             /\ Grouping.lastMessageAt g = createdAt m)
  /\ Forall (fun m => sender m = Grouping.group_sender g)
            (Grouping.group_messages g)
  /\ chain close_to (Grouping.group_messages g).

(** Two groups that follow each other: the last message of the one and
    the first of the other could not stay together. *)
Definition apart (g1 g2 : Grouping.Group) : Prop :=
  forall a b,
    last (Grouping.group_messages g1) = Some a ->
    head (Grouping.group_messages g2) = Some b ->
    ~ close_to a b.

(** A path that is made for a route: its literals, and [1] for each
    parameter. *)
Definition path_for (r : Express.Route) : list string :=
  map (fun seg => match seg with
                  | Express.Lit l => l
                  | Express.Param _ => "1"%string
                  end) (Express.pattern r).

(** A route gets a request of its own when there is one that the router
    gives to it. *)
Definition reached (table : list Express.Route) (r : Express.Route) : Prop :=
  exists path, Express.dispatch table (Express.method r) path = Some r.

End Notions.

Import Notions.

(** ** More scenarios *)
Module Cases.
Import Model Controller Socket Server.

(** The chat of [Scenario.db_answered]: two messages, one unread each. *)
Definition chat_answered : Chat :=
  {| chat_id := 100%N; chatType := direct;
     participants := [Scenario.alice; Scenario.bob];
     messages := [Scenario.msg_report; Scenario.msg_answer]; name := "";
     admins := [];
     unreadCounts := [ {| unread_user := Scenario.alice; count := 1 |};
                       {| unread_user := Scenario.bob; count := 1 |} ] |}.

(** Alice has answered message 101 with a reply, message 102, instead. *)
Definition msg_reply : Message :=
  {| msg_id := 102%N; sender := Scenario.alice; content := "Thanks";
     attachments := []; reactions := [];
     readBy := [ReceiptUser Scenario.alice 1500];
     deliveredTo := [ReceiptUser Scenario.alice 1500];
     isDeleted := false; deletedFor := []; replyTo := Some 101%N;
     edited := false; editHistory := []; createdAt := 1500 |}.

Definition chat_replied : Chat :=
  {| chat_id := 100%N; chatType := direct;
     participants := [Scenario.alice; Scenario.bob];
     messages := [Scenario.msg_report; msg_reply]; name := "";
     admins := [];
     unreadCounts := [ {| unread_user := Scenario.alice; count := 1 |};
                       {| unread_user := Scenario.bob; count := 1 |} ] |}.

(** Three notifications: two of Alice, one of them read, and one of Bob. *)
Definition note (userId : UserId) (text : string) (seen : bool) : Notification :=
  {| notification_user := userId; notification_type := TASK_ASSIGNED;
     title := text; notification_message := text; task := None; from := None;
     read := seen |}.

Definition inbox : list NotificationController.Stored :=
  [ (201%N, note Scenario.alice "Report due" false);
    (202%N, note Scenario.bob "Review the report" false);
    (203%N, note Scenario.alice "Welcome" true) ].

(** The server with nobody connected. *)
Definition quiet (d : DB) : Server := {| db := d; userSockets := ∅ |}.

(** Bob sends the report, Alice replies to it. *)
Definition story : list Action :=
  [ Http (SendMessage 1000 Scenario.bob 100 "Quarterly Report" [Scenario.upload]);
    Http (ReplyToMessage 1500 Scenario.alice 100 101 "Thanks") ].

(** Alice opens the group Reports with Bob, naming him twice and herself. *)
Definition open_reports : list Action :=
  [ Http (CreateGroupChat Scenario.alice "Reports"
            (Some [Scenario.bob; Scenario.alice; Scenario.bob])) ].

Definition chat_reports : Chat :=
  {| chat_id := 100%N; chatType := group;
     participants := [Scenario.alice; Scenario.bob];
     messages := []; name := "Reports"; admins := [Scenario.alice];
     unreadCounts := [ {| unread_user := Scenario.alice; count := 0 |};
                       {| unread_user := Scenario.bob; count := 0 |} ] |}.

End Cases.

(** * Properties *)

(** The scenarios are states of the server: each is the store that the
    handlers leave behind. *)
Example scenario_chat :
  createDirectChat Scenario.alice Scenario.bob Scenario.db_start
  = (respond 201 (ChatDoc Scenario.chat_empty), Scenario.db_chat).
Proof. reflexivity. Qed.

Example scenario_sent :
  sendMessage 1000 Scenario.bob 100 "Quarterly Report" [Scenario.upload]
              Scenario.db_chat
  = (respond 201 (MessageDoc Scenario.msg_report), Scenario.db_sent).
Proof. reflexivity. Qed.

(** White space of one, two and three bytes goes at both ends of a text,
    and a reply of white space alone is refused. *)
Example trim_white_space :
  let tab := String (Ascii.ascii_of_N 9) "" in
  let no_break_space :=
    String (Ascii.ascii_of_N 194) (String (Ascii.ascii_of_N 160) "") in
  let em_space :=
    String (Ascii.ascii_of_N 226)
           (String (Ascii.ascii_of_N 128) (String (Ascii.ascii_of_N 131) "")) in
  JS.trim (tab ++ no_break_space ++ " hello world" ++ em_space ++ no_break_space)
  = "hello world"%string
  /\ JS.trim (no_break_space ++ em_space) = ""%string
  /\ replyToMessage 2000 Scenario.alice 100 101 no_break_space Scenario.db_sent
     = (respond 400 (Msg "Reply content is required"), Scenario.db_sent).
Proof. repeat split; reflexivity. Qed.

Example scenario_hidden :
  deleteMessage Scenario.alice 100 101 false Scenario.db_sent
  = (respond 200 (Deleted "Message deleted successfully" false),
     Scenario.db_hidden).
Proof. reflexivity. Qed.

Example scenario_answered :
  sendMessage 1500 Scenario.alice 100 "Thanks" [] Scenario.db_sent
  = (respond 201 (MessageDoc Scenario.msg_answer), Scenario.db_answered).
Proof. reflexivity. Qed.

(** The case analysis of a request: every path through its handler. *)
Ltac handler_cases r :=
  destruct r; simpl;
    [ unfold createDirectChat | unfold createGroupChat | unfold getMessages
    | unfold sendMessage | unfold editMessage | unfold deleteMessage
    | unfold addReaction | unfold removeReaction | unfold replyToMessage
    | unfold markMessagesAsRead | unfold searchMessages ];
    repeat case_match.

(** The store that [insert_chat] has returned, under its name. *)
Ltac name_inserted :=
  match goal with
  | Hi : insert_chat ?mk ?d = (_, ?d0) |- _ =>
      replace d0 with (insert_chat mk d).2 by (by rewrite Hi)
  end.

(** ** Arrays searched and updated by id *)
Section by_key.
Context {A : Type} (key : A -> N).
Implicit Types (f : A -> A) (l : list A) (k : N).

Lemma find_update_first_key f l k' k :
  (forall x, key x = k' -> key (f x) = k') ->
  find (fun x => same_id (key x) k) (JS.update_first (fun x => same_id (key x) k') f l)
  = (if decide (k' = k) then f else id) <$> find (fun x => same_id (key x) k) l.
Proof.
  unfold same_id. intros Hkey. induction l as [|x l IH]; simpl; [done|].
  destruct (N.eqb_spec (key x) k') as [Ek'|Ek']; simpl.
  - rewrite (Hkey x Ek'). destruct (decide (k' = k)) as [->|Hne].
    + rewrite Ek'. by rewrite N.eqb_refl.
    + rewrite Ek'. destruct (N.eqb_spec k' k); [done|].
      by destruct (find _ l).
  - destruct (N.eqb_spec (key x) k) as [Ek|Ek]; [|done].
    destruct (decide (k' = k)); [congruence|done].
Qed.

Lemma find_app_key l x k y :
  find (fun x => same_id (key x) k) l = Some y ->
  find (fun x => same_id (key x) k) (l ++ [x]) = Some y.
Proof.
  induction l as [|z l IH]; simpl; [done|].
  destruct (same_id (key z) k); auto.
Qed.

Lemma find_key_Some l k y :
  find (fun x => same_id (key x) k) l = Some y -> key y = k /\ y ∈ l.
Proof.
  unfold same_id. induction l as [|z l IH]; simpl; [done|].
  destruct (N.eqb_spec (key z) k) as [E|E].
  - intros [= <-]. split; [done|]. by left.
  - intros H. destruct (IH H). split; [done|]. by right.
Qed.

Lemma find_key_None l k :
  find (fun x => same_id (key x) k) l = None <->
  existsb (fun x => same_id (key x) k) l = false.
Proof.
  induction l as [|z l IH]; simpl; [done|].
  destruct (same_id (key z) k); simpl; [split; discriminate|done].
Qed.
End by_key.

Lemma includes_id_spec (l : list ObjectId) (x : ObjectId) :
  includes_id l x = true <-> x ∈ l.
Proof.
  unfold includes_id, same_id. rewrite existsb_exists. split.
  - intros (y & Hy & E). apply N.eqb_eq in E. subst. by apply list_elem_of_In.
  - intros H. exists x. split; [by apply list_elem_of_In|apply N.eqb_refl].
Qed.

Lemma existsb_same_id_spec (l : list ObjectId) (x : ObjectId) :
  existsb (fun p => same_id p x) l = true <-> x ∈ l.
Proof.
  rewrite <- includes_id_spec. unfold includes_id, same_id.
  induction l as [|y l IH]; simpl; [done|].
  rewrite (N.eqb_sym y x). destruct (x =? y)%N; simpl; [done|apply IH].
Qed.

Lemma includes_id_false (l : list ObjectId) (x : ObjectId) :
  includes_id l x = false <-> x ∉ l.
Proof.
  rewrite <- includes_id_spec. by destruct (includes_id l x).
Qed.

Lemma update_first_found {A} (p : A -> bool) f (l : list A) x :
  find p l = Some x -> f x = x -> JS.update_first p f l = l.
Proof.
  intros Hx Hf. induction l as [|y l IH]; simpl in *; [done|].
  destruct (p y); [|by rewrite IH]. injection Hx as ->. by rewrite Hf.
Qed.

Lemma update_first_twice {A} (p : A -> bool) f g (l : list A) :
  (forall x, p x = true -> p (f x) = true) ->
  JS.update_first p g (JS.update_first p f l) = JS.update_first p (fun x => g (f x)) l.
Proof.
  intros Hp. induction l as [|x l IH]; simpl; [done|].
  destruct (p x) eqn:E; simpl.
  - by rewrite (Hp x E).
  - by rewrite E, IH.
Qed.

Lemma update_first_ext {A} (p : A -> bool) f g (l : list A) :
  (forall x, f x = g x) -> JS.update_first p f l = JS.update_first p g l.
Proof.
  intros H. induction l as [|x l IH]; simpl; [done|]. by rewrite H, IH.
Qed.

Lemma Forall_update_first {A} (P : A -> Prop) p f (l : list A) :
  Forall P l -> (forall x, x ∈ l -> P x -> P (f x)) ->
  Forall P (JS.update_first p f l).
Proof.
  induction 1 as [|x l Hx Hl IH]; intros Hf; simpl; [done|].
  destruct (p x).
  - constructor; [|done]. apply Hf; [by left|done].
  - constructor; [done|]. apply IH. intros y Hy. apply Hf. by right.
Qed.

Lemma find_ext {A} (p q : A -> bool) l :
  (forall x, p x = q x) -> find p l = find q l.
Proof.
  intros H. induction l as [|x l IH]; simpl; [done|]. by rewrite H, IH.
Qed.

Lemma find_None_filter {A} (q : A -> bool) l : find q l = None -> List.filter q l = [].
Proof.
  induction l as [|x l IH]; simpl; [done|]. destruct (q x); [done|auto].
Qed.

Lemma filter_update_first_length {A} (p q : A -> bool) f l :
  (forall x, find p l = Some x -> q (f x) = q x) ->
  length (List.filter q (JS.update_first p f l)) = length (List.filter q l).
Proof.
  induction l as [|x l IH]; simpl; [done|]. intros Hq.
  destruct (p x); simpl.
  - rewrite (Hq x eq_refl). by destruct (q x).
  - destruct (q x); simpl; rewrite IH; auto.
Qed.

(** ** The store *)
Lemma findById_save c' d k :
  findById (save c' d) k
  = (if decide (chat_id c' = k) then fun _ => c' else id) <$> findById d k.
Proof.
  unfold findById, save; simpl.
  by rewrite (find_update_first_key chat_id (fun _ => c') (chats d) (chat_id c') k).
Qed.

Lemma findById_save_same c c' d k :
  findById d k = Some c -> chat_id c' = chat_id c ->
  findById (save c' d) k = Some c'.
Proof.
  intros Hc Hid. rewrite findById_save, Hc. simpl.
  apply (find_key_Some chat_id) in Hc as [Hk _].
  destruct (decide (chat_id c' = k)); [done|congruence].
Qed.

Lemma findById_chat_id d k c : findById d k = Some c -> chat_id c = k.
Proof. intros H. by apply (find_key_Some chat_id) in H as [? _]. Qed.

Lemma findById_Forall (P : Chat -> Prop) d cid c :
  Forall P (chats d) -> findById d cid = Some c -> P c.
Proof.
  intros H Hc. apply (find_key_Some chat_id) in Hc as [_ Hc].
  by apply (proj1 (Forall_forall _ _) H).
Qed.

Lemma Forall_save (P : Chat -> Prop) c' d :
  Forall P (chats d) -> P c' -> Forall P (chats (save c' d)).
Proof. intros H Hc. simpl. apply Forall_update_first; auto. Qed.

Lemma save_found c d : findById d (chat_id c) = Some c -> save c d = d.
Proof.
  intros H. unfold save. rewrite (update_first_found _ _ _ c) by done.
  by destruct d.
Qed.

Lemma message_by_id_update g c k' k :
  (forall m, msg_id (g m) = msg_id m) ->
  message_by_id (update_message k' g c) k
  = (if decide (k' = k) then g else id) <$> message_by_id c k.
Proof.
  intros Hg. unfold message_by_id, update_message; simpl.
  apply (find_update_first_key msg_id). intros x <-. apply Hg.
Qed.

(** ** Messages looked up by chat id and message id *)
Lemma lookup_message_save_update g c d cid mid' cid' mid :
  findById d cid = Some c ->
  (forall m, msg_id (g m) = msg_id m) ->
  lookup_message (save (update_message mid' g c) d) cid' mid
  = (if decide (cid = cid' /\ mid' = mid) then g else id)
    <$> lookup_message d cid' mid.
Proof.
  intros Hc Hg. unfold lookup_message. rewrite findById_save. simpl.
  rewrite (findById_chat_id _ _ _ Hc).
  destruct (decide (cid = cid')) as [<-|Hne].
  - rewrite Hc. simpl. rewrite message_by_id_update by done.
    destruct (decide (mid' = mid)), (decide (cid = cid /\ mid' = mid)); done || tauto.
  - rewrite option_fmap_id.
    destruct (decide (cid = cid' /\ mid' = mid)); [tauto|].
    by rewrite option_fmap_id.
Qed.

Lemma lookup_message_save_same_messages c c' d cid cid' mid :
  findById d cid = Some c -> chat_id c' = chat_id c ->
  messages c' = messages c ->
  lookup_message (save c' d) cid' mid = lookup_message d cid' mid.
Proof.
  intros Hc Hid Hms. unfold lookup_message. rewrite findById_save, Hid.
  rewrite (findById_chat_id _ _ _ Hc).
  destruct (decide (cid = cid')) as [<-|Hne].
  - rewrite Hc. simpl. unfold message_by_id. by rewrite Hms.
  - by rewrite option_fmap_id.
Qed.

Lemma lookup_message_updateOne g d cid' mid' cid mid :
  (forall m, msg_id (g m) = msg_id m) ->
  lookup_message (updateOne cid' mid' g d) cid mid
  = (if decide (cid' = cid /\ mid' = mid) then g else id)
    <$> lookup_message d cid mid.
Proof.
  intros Hg. unfold lookup_message, updateOne, findById; simpl.
  induction (chats d) as [|c cs IH]; simpl.
  { by destruct (decide (cid' = cid /\ mid' = mid)). }
  destruct (matches cid' mid' c) eqn:Em; simpl.
  - apply andb_true_iff in Em as [Ec Ex]. apply N.eqb_eq in Ec.
    destruct (same_id (chat_id c) cid) eqn:Ek; simpl.
    + apply N.eqb_eq in Ek. rewrite message_by_id_update by done.
      subst cid' cid.
      destruct (decide (mid' = mid)), (decide (chat_id c = chat_id c /\ mid' = mid));
        done || tauto.
    + apply N.eqb_neq in Ek. subst cid'.
      destruct (decide (chat_id c = cid /\ mid' = mid)); [tauto|].
      by rewrite option_fmap_id.
  - destruct (same_id (chat_id c) cid) eqn:Ek; simpl; [|apply IH].
    apply N.eqb_eq in Ek.
    destruct (decide (cid' = cid /\ mid' = mid)) as [[-> <-]|];
      [|by rewrite option_fmap_id].
    apply andb_false_iff in Em as [Em|Em].
    + apply N.eqb_neq in Em. congruence.
    + apply (find_key_None msg_id) in Em. unfold message_by_id. by rewrite Em.
Qed.

Lemma lookup_message_insert_chat mk d cid mid m :
  lookup_message d cid mid = Some m ->
  lookup_message (insert_chat mk d).2 cid mid = Some m.
Proof.
  unfold lookup_message, findById, insert_chat; simpl.
  destruct (find _ (chats d)) as [c|] eqn:E; [|done].
  by rewrite (find_app_key chat_id _ _ _ _ E).
Qed.

Lemma lookup_message_save_push c ucs new d cid cid' mid m :
  findById d cid = Some c ->
  lookup_message d cid' mid = Some m ->
  lookup_message
    (take_id (save (set_unreadCounts ucs (set_messages (messages c ++ [new]) c)) d))
    cid' mid = Some m.
Proof.
  intros Hc. unfold lookup_message.
  change (findById (take_id ?x) cid') with (findById x cid').
  rewrite findById_save. simpl. rewrite (findById_chat_id _ _ _ Hc).
  destruct (decide (cid = cid')) as [<-|Hne].
  - rewrite Hc. simpl. unfold message_by_id; simpl. apply find_app_key.
  - by rewrite option_fmap_id.
Qed.

Lemma updateOne_twice cid mid g1 g2 d :
  (forall m, msg_id (g1 m) = msg_id m) ->
  updateOne cid mid g2 (updateOne cid mid g1 d)
  = updateOne cid mid (fun m => g2 (g1 m)) d.
Proof.
  intros Hid. unfold updateOne, set_chats; simpl. f_equal.
  assert (forall c, existsb (fun m => same_id (msg_id m) mid)
                      (JS.update_first (fun m => same_id (msg_id m) mid) g1 (messages c))
                    = existsb (fun m => same_id (msg_id m) mid) (messages c)) as Hex.
  { intros c. induction (messages c) as [|m ms IH]; simpl; [done|].
    destruct (same_id (msg_id m) mid) eqn:E; simpl.
    - by rewrite Hid, E.
    - by rewrite E, IH. }
  rewrite update_first_twice.
  - apply update_first_ext. intros c. unfold update_message, set_messages; simpl.
    f_equal. apply update_first_twice. intros m E. by rewrite Hid.
  - intros c. unfold matches; simpl. by rewrite Hex.
Qed.

(** ** The unread counters *)
Lemma getUnreadCount_reset_same c u : getUnreadCount (resetUnreadCount c u) u = 0%Z.
Proof.
  unfold getUnreadCount, resetUnreadCount.
  destruct (find _ (unreadCounts c)) as [i|] eqn:E; simpl.
  - rewrite (find_update_first_key unread_user) by done.
    rewrite E. simpl. by destruct (decide (u = u)).
  - induction (unreadCounts c) as [|x l IH]; simpl in *.
    + unfold same_id. by rewrite N.eqb_refl.
    + destruct (same_id (unread_user x) u); [done|auto].
Qed.

Lemma getUnreadCount_reset_other c u v :
  v <> u -> getUnreadCount (resetUnreadCount c u) v = getUnreadCount c v.
Proof.
  intros Hne. unfold getUnreadCount, resetUnreadCount.
  destruct (find (fun item => same_id (unread_user item) u) _) as [i|] eqn:E; simpl.
  - rewrite (find_update_first_key unread_user) by done.
    destruct (decide (u = v)); [congruence|].
    by rewrite option_fmap_id.
  - clear E. induction (unreadCounts c) as [|x l IH]; simpl.
    + unfold same_id. destruct (N.eqb_spec u v); [congruence|done].
    + destruct (same_id (unread_user x) v); [done|auto].
Qed.

Lemma find_bump_others u v ucs :
  find (fun item => same_id (unread_user item) v) (bump_others u ucs)
  = (fun item => if negb (same_id (unread_user item) u)
                 then {| unread_user := unread_user item; count := count item + 1 |}
                 else item)
    <$> find (fun item => same_id (unread_user item) v) ucs.
Proof.
  induction ucs as [|x l IH]; simpl; [done|].
  destruct (same_id (unread_user x) u) eqn:Eu; simpl;
    destruct (same_id (unread_user x) v) eqn:Ev; simpl; rewrite ?Eu; auto.
Qed.

Lemma getUnreadCount_bump_sender c ms u :
  getUnreadCount (set_unreadCounts (bump_others u (unreadCounts c)) (set_messages ms c)) u
  = getUnreadCount c u.
Proof.
  unfold getUnreadCount; simpl. rewrite find_bump_others.
  destruct (find _ (unreadCounts c)) as [i|] eqn:E; simpl; [|done].
  apply (find_key_Some unread_user) in E as [E _].
  unfold same_id. rewrite E, N.eqb_refl. done.
Qed.

Lemma getUnreadCount_bump_other c ms u p :
  p <> u -> has_counter c p ->
  getUnreadCount (set_unreadCounts (bump_others u (unreadCounts c)) (set_messages ms c)) p
  = (getUnreadCount c p + 1)%Z.
Proof.
  intros Hne Hp. unfold getUnreadCount; simpl. rewrite find_bump_others.
  destruct (find _ (unreadCounts c)) as [i|] eqn:E; simpl.
  - apply (find_key_Some unread_user) in E as [E _].
    unfold same_id. rewrite E. by destruct (N.eqb_spec p u).
  - exfalso. apply (find_key_None unread_user) in E.
    unfold has_counter in Hp. apply list_elem_of_fmap in Hp as (i & -> & Hi).
    assert (existsb (fun x => same_id (unread_user x) (unread_user i)) (unreadCounts c) = true) as H.
    { apply existsb_exists. exists i. split; [by apply list_elem_of_In|].
      apply N.eqb_refl. }
    congruence.
Qed.

Lemma resetUnreadCount_chat_id c u : chat_id (resetUnreadCount c u) = chat_id c.
Proof. unfold resetUnreadCount. by destruct (find _ _). Qed.

Lemma resetUnreadCount_messages c u : messages (resetUnreadCount c u) = messages c.
Proof. unfold resetUnreadCount. by destruct (find _ _). Qed.

Lemma resetUnreadCount_participants c u :
  participants (resetUnreadCount c u) = participants c.
Proof. unfold resetUnreadCount. by destruct (find _ _). Qed.

Lemma counters_ok_same c c' :
  participants c' = participants c -> unreadCounts c' = unreadCounts c ->
  counters_ok c -> counters_ok c'.
Proof. unfold counters_ok, has_counter. by intros -> ->. Qed.

Lemma counters_ok_reset c u : counters_ok c -> counters_ok (resetUnreadCount c u).
Proof.
  unfold counters_ok, has_counter, resetUnreadCount. intros [Hp Hc].
  destruct (find _ (unreadCounts c)) as [i|]; simpl.
  - split.
    + intros p Hin. specialize (Hp p Hin). clear -Hp.
      induction (unreadCounts c) as [|x l IH]; simpl in *; [done|].
      destruct (same_id (unread_user x) u); simpl; [done|].
      apply elem_of_cons in Hp as [->|Hp]; [by left|right; auto].
    + apply Forall_update_first; [done|]. intros x _ _. simpl. lia.
  - split.
    + intros p Hin. rewrite map_app. apply elem_of_app. left. auto.
    + apply Forall_app. split; [done|]. by repeat constructor.
Qed.

Lemma counters_ok_bump c u ms :
  counters_ok c ->
  counters_ok (set_unreadCounts (bump_others u (unreadCounts c)) (set_messages ms c)).
Proof.
  unfold counters_ok, has_counter, bump_others. simpl. intros [Hp Hc]. split.
  - intros p Hin. specialize (Hp p Hin). rewrite map_map.
    erewrite map_ext; [exact Hp|]. intros x. simpl. by destruct (negb _).
  - apply Forall_map. eapply Forall_impl; [exact Hc|].
    intros x Hx. simpl in *. destruct (negb _); simpl; lia.
Qed.

Lemma counters_ok_new id kind ps ms title ads :
  counters_ok
    {| chat_id := id; chatType := kind; participants := ps; messages := ms;
       name := title; admins := ads;
       unreadCounts := map (fun id => {| unread_user := id; count := 0 |}) ps |}.
Proof.
  unfold counters_ok, has_counter. simpl. split.
  - intros p Hp. rewrite map_map. simpl. by rewrite map_id.
  - apply Forall_map. apply Forall_forall. intros x _. simpl. lia.
Qed.

Lemma counters_ok_update_message mid g c :
  counters_ok c -> counters_ok (update_message mid g c).
Proof. by apply counters_ok_same. Qed.

Lemma counters_ok_set_messages ms c :
  counters_ok c -> counters_ok (set_messages ms c).
Proof. by apply counters_ok_same. Qed.

Lemma handle_counters_ok r d :
  Forall counters_ok (chats d) -> Forall counters_ok (chats (handle r d).2).
Proof.
  intros H.
  handler_cases r; try done;
    try (name_inserted; simpl; apply Forall_app; split; [done|];
         apply Forall_cons; split; [|done]);
    try (apply Forall_save; [done|]);
    try match goal with
        | Hc : findById _ _ = Some ?c |- _ =>
            pose proof (findById_Forall _ _ _ _ H Hc) as Hok
        end;
    eauto using counters_ok_reset, counters_ok_bump, counters_ok_update_message,
                counters_ok_set_messages.
  - apply (counters_ok_new _ direct [userId; targetUserId]).
  - apply counters_ok_new.
Qed.

Lemma on_counters_ok u e st :
  Forall counters_ok (chats (db st)) -> Forall counters_ok (chats (db (on u e st).1)).
Proof.
  intros H.
  assert (forall cid mid g d, Forall counters_ok (chats d) ->
            Forall counters_ok (chats (updateOne cid mid g d))) as Hup.
  { intros cid mid g d Hd. simpl. apply Forall_update_first; [done|].
    intros x _. apply counters_ok_update_message. }
  destruct e; cbn [on]; try done.
  - unfold on_sendMessage. by repeat case_match.
  - unfold on_messageRead. case_match; by apply Hup.
  - unfold on_addReaction. by apply Hup, Hup.
  - unfold on_removeReaction. by apply Hup.
  - unfold on_deleteMessage. repeat case_match; done || by apply Hup.
Qed.

Lemma no_chats_counters_ok d : chats d = [] -> Forall counters_ok (chats d).
Proof. by intros ->. Qed.

(** From a store without chats on, whatever requests and events come,
    every participant of every stored chat has an unread counter, and no
    counter is negative. *)
Lemma run_counters_ok st actions :
  Forall counters_ok (chats (db st)) ->
  Forall counters_ok (chats (db (run st actions))).
Proof.
  revert st. induction actions as [|a actions IH]; intros st H; simpl; [done|].
  apply IH. destruct a; simpl; auto using handle_counters_ok, on_counters_ok.
Qed.

(** ** The reactions on a message *)
Lemma without_reaction_of_none u rs :
  List.filter (fun r => same_id (reaction_user r) u) (without_reaction_of u rs) = [].
Proof.
  unfold without_reaction_of. induction rs as [|r rs IH]; simpl; [done|].
  destruct (same_id (reaction_user r) u) eqn:E; simpl; [done|]. by rewrite E.
Qed.

Lemma without_reaction_of_other u v rs :
  v <> u ->
  List.filter (fun r => same_id (reaction_user r) v) (without_reaction_of u rs)
  = List.filter (fun r => same_id (reaction_user r) v) rs.
Proof.
  intros Hne. unfold without_reaction_of, same_id.
  induction rs as [|r rs IH]; simpl; [done|].
  destruct (N.eqb_spec (reaction_user r) u) as [Eu|Eu]; simpl.
  - destruct (N.eqb_spec (reaction_user r) v); [congruence|done].
  - destruct (N.eqb_spec (reaction_user r) v); by rewrite IH.
Qed.

Lemma reactions_of_react u e v m :
  reactions_of v (react u e m)
  = if decide (v = u) then [{| reaction_user := u; emoji := e |}]
    else reactions_of v m.
Proof.
  unfold reactions_of, react; simpl. rewrite List.filter_app; simpl.
  unfold same_id at 2. destruct (decide (v = u)) as [->|Hne].
  - by rewrite without_reaction_of_none, N.eqb_refl.
  - rewrite without_reaction_of_other by done.
    destruct (N.eqb_spec u v); [congruence|apply app_nil_r].
Qed.

Lemma reactions_of_unreact u v m :
  reactions_of v (unreact u m) = if decide (v = u) then [] else reactions_of v m.
Proof.
  unfold reactions_of, unreact; simpl. destruct (decide (v = u)) as [->|Hne].
  - apply without_reaction_of_none.
  - by apply without_reaction_of_other.
Qed.

(** The [$pull] and the [$addToSet] of the socket handler amount to the
    filter and the push of the HTTP handler. *)
Lemma pull_then_addToSet u e m :
  let r := {| reaction_user := u; emoji := e |} in
  set_reactions
    (JS.addToSet r (reactions (set_reactions (without_reaction_of u (reactions m)) m)))
    (set_reactions (without_reaction_of u (reactions m)) m)
  = react u e m.
Proof.
  intros r. unfold react, JS.addToSet; simpl.
  rewrite bool_decide_eq_false_2; [done|].
  unfold without_reaction_of. intros H%list_elem_of_In%filter_In.
  destruct H as [_ H]. simpl in H. unfold same_id in H.
  by rewrite N.eqb_refl in H.
Qed.

(** ** How stored messages evolve *)
Lemma evolves_refl m : evolves m m.
Proof. by split. Qed.

Lemma evolves_trans m1 m2 m3 : evolves m1 m2 -> evolves m2 m3 -> evolves m1 m3.
Proof.
  intros [] []. split; try congruence; try (by etrans); auto.
Qed.

Lemma evolves_react u e m : evolves m (react u e m).
Proof.
  split; simpl; try done. intros v Hv. rewrite reactions_of_react.
  by destruct (decide (v = u)).
Qed.

Lemma evolves_unreact u m : evolves m (unreact u m).
Proof.
  split; simpl; try done. intros v Hv. rewrite reactions_of_unreact.
  destruct (decide (v = u)); [simpl; lia|done].
Qed.

Lemma evolves_tombstone m : evolves m (tombstone m).
Proof. by split. Qed.

Lemma evolves_delete_for u m : evolves m (delete_for u m).
Proof.
  unfold delete_for. destruct (negb _); [|apply evolves_refl].
  split; simpl; try done. set_solver.
Qed.

Lemma evolves_edit now text m : evolves m (edit now text m).
Proof. by split. Qed.

Lemma evolves_mark_read now u m m' : mark_read now u m = Some m' -> evolves m m'.
Proof.
  unfold mark_read. destruct (read_by u (readBy m)) as [[]|]; simpl; [| |done].
  - intros [= <-]. apply evolves_refl.
  - intros [= <-]. split; simpl; try done. by apply prefix_app_r.
Qed.

Lemma evolves_socket_read r m :
  evolves m (set_readBy (readBy m ++ [r]) m).
Proof. split; simpl; try done. by apply prefix_app_r. Qed.

Lemma evolves_socket_delete m : evolves m (set_isDeleted true m).
Proof. by split. Qed.

Lemma evolves_socket_delete_for u m :
  evolves m (set_deletedFor (JS.addToSet u (deletedFor m)) m).
Proof.
  split; simpl; try done. unfold JS.addToSet.
  destruct (bool_decide _); set_solver.
Qed.

(** The ways of a message to evolve, for [eauto]. *)
Create HintDb evolution.
#[local] Hint Resolve evolves_refl evolves_react evolves_unreact
  evolves_tombstone evolves_delete_for evolves_edit evolves_mark_read
  evolves_socket_read evolves_socket_delete evolves_socket_delete_for
  : evolution.

Lemma mapM_mark_read_find now u ms ms' mid m :
  mapM (mark_read now u) ms = Some ms' ->
  find (fun x => same_id (msg_id x) mid) ms = Some m ->
  exists m', find (fun x => same_id (msg_id x) mid) ms' = Some m'
             /\ mark_read now u m = Some m'.
Proof.
  revert ms'. induction ms as [|x ms IH]; intros ms'; simpl; [done|].
  destruct (mark_read now u x) as [x'|] eqn:Ex; simpl; [|done].
  destruct (mapM _ ms) as [k|] eqn:Ek; simpl in *; [|done].
  intros [= <-]. simpl.
  assert (msg_id x' = msg_id x) as ->.
  { pose proof (evolves_mark_read _ _ _ _ Ex) as []. done. }
  destruct (same_id (msg_id x) mid).
  - intros [= <-]. eauto.
  - intros H. by apply (IH k).
Qed.

Lemma lookup_message_save_marked now u c c' ms d cid cid' mid m :
  findById d cid = Some c -> chat_id c' = chat_id c -> messages c' = messages c ->
  mapM (mark_read now u) (messages c') = Some ms ->
  lookup_message d cid' mid = Some m ->
  exists m', lookup_message (save (set_messages ms c') d) cid' mid = Some m'
             /\ evolves m m'.
Proof.
  intros Hc Hid Hms HM. unfold lookup_message. rewrite findById_save. simpl.
  rewrite Hid, (findById_chat_id _ _ _ Hc).
  destruct (decide (cid = cid')) as [<-|Hne].
  - rewrite Hc. simpl. unfold message_by_id; simpl. rewrite <- Hms. intros Hm.
    destruct (mapM_mark_read_find _ _ _ _ _ _ HM Hm) as (m' & ? & ?).
    eauto using evolves_mark_read.
  - rewrite option_fmap_id. eauto using evolves_refl.
Qed.

Lemma lookup_message_save_evolving g c d cid mid' cid' mid m :
  findById d cid = Some c ->
  (forall x, evolves x (g x)) ->
  lookup_message d cid' mid = Some m ->
  exists m', lookup_message (save (update_message mid' g c) d) cid' mid = Some m'
             /\ evolves m m'.
Proof.
  intros Hc Hg Hm. rewrite (lookup_message_save_update g c d cid) by (done || apply Hg).
  rewrite Hm. simpl. destruct (decide _); eauto using evolves_refl.
Qed.

Lemma lookup_message_updateOne_evolving g d cid' mid' cid mid m :
  (forall x, evolves x (g x)) ->
  lookup_message d cid mid = Some m ->
  exists m', lookup_message (updateOne cid' mid' g d) cid mid = Some m'
             /\ evolves m m'.
Proof.
  intros Hg Hm. rewrite lookup_message_updateOne by apply Hg.
  rewrite Hm. simpl. destruct (decide _); eauto using evolves_refl.
Qed.

(** Whatever an HTTP request does, a stored message stays, and evolves. *)
Lemma handle_evolves r d cid mid m :
  lookup_message d cid mid = Some m ->
  exists m', lookup_message (handle r d).2 cid mid = Some m' /\ evolves m m'.
Proof.
  intros Hm.
  handler_cases r; simpl; eauto using evolves_refl;
    try (name_inserted; eauto using lookup_message_insert_chat, evolves_refl).
  - rewrite (lookup_message_save_same_messages c _ d chatId)
      by auto using resetUnreadCount_chat_id, resetUnreadCount_messages.
    eauto using evolves_refl.
  - erewrite lookup_message_save_push; eauto using evolves_refl.
  - eauto using lookup_message_save_evolving with evolution.
  - eauto using lookup_message_save_evolving with evolution.
  - eauto using lookup_message_save_evolving with evolution.
  - eauto using lookup_message_save_evolving with evolution.
  - eauto using lookup_message_save_evolving with evolution.
  - erewrite lookup_message_save_push; eauto using evolves_refl.
  - eapply lookup_message_save_marked;
      eauto using resetUnreadCount_chat_id, resetUnreadCount_messages.
Qed.

Lemma lookup_message_on_addReaction u e st cid' mid' cid mid :
  lookup_message (db (on_addReaction u cid' mid' e st).1) cid mid
  = (if decide (cid' = cid /\ mid' = mid) then react u e else id)
    <$> lookup_message (db st) cid mid.
Proof.
  unfold on_addReaction; simpl.
  rewrite !lookup_message_updateOne by done.
  destruct (lookup_message (db st) cid mid) as [m|]; simpl; [|done].
  destruct (decide (cid' = cid /\ mid' = mid)); simpl; [|done].
  f_equal. apply pull_then_addToSet.
Qed.

Lemma lookup_message_on_removeReaction u st cid' mid' cid mid :
  lookup_message (db (on_removeReaction u cid' mid' st).1) cid mid
  = (if decide (cid' = cid /\ mid' = mid) then unreact u else id)
    <$> lookup_message (db st) cid mid.
Proof.
  unfold on_removeReaction; simpl. by rewrite lookup_message_updateOne.
Qed.

(** Whatever a socket event does, a stored message stays, and evolves. *)
Lemma on_evolves u e st cid mid m :
  lookup_message (db st) cid mid = Some m ->
  exists m', lookup_message (db (on u e st).1) cid mid = Some m' /\ evolves m m'.
Proof.
  intros Hm. destruct e; cbn [on].
  - simpl. eauto with evolution.
  - simpl. eauto with evolution.
  - unfold on_sendMessage. repeat case_match; eauto with evolution.
  - unfold on_messageRead.
    case_match; simpl; eauto using lookup_message_updateOne_evolving with evolution.
  - rewrite lookup_message_on_addReaction, Hm. simpl.
    destruct (decide _); eauto with evolution.
  - rewrite lookup_message_on_removeReaction, Hm. simpl.
    destruct (decide _); eauto with evolution.
  - unfold on_deleteMessage. repeat case_match; simpl;
      eauto using lookup_message_updateOne_evolving with evolution.
  - simpl. eauto with evolution.
Qed.

Lemma step_evolves st a cid mid m :
  lookup_message (db st) cid mid = Some m ->
  exists m', lookup_message (db (step st a)) cid mid = Some m' /\ evolves m m'.
Proof.
  destruct a; simpl; eauto using handle_evolves, on_evolves.
Qed.

Lemma run_evolves actions st cid mid m :
  lookup_message (db st) cid mid = Some m ->
  exists m', lookup_message (db (run st actions)) cid mid = Some m' /\ evolves m m'.
Proof.
  revert st m. induction actions as [|a actions IH]; intros st m Hm; simpl.
  - eauto using evolves_refl.
  - destruct (step_evolves st a _ _ _ Hm) as (m1 & H1 & E1).
    destruct (IH _ _ H1) as (m2 & H2 & E2).
    eauto using evolves_trans.
Qed.

(** ** The listing and the search of a chat *)
Lemma insert_sorted_perm {A} (cmp : A -> A -> Z) x l :
  JS.insert_sorted cmp x l ≡ₚ x :: l.
Proof.
  induction l as [|y l IH]; simpl; [done|].
  destruct (cmp y x <=? 0)%Z; [|done].
  rewrite IH. apply Permutation_swap.
Qed.

Lemma sort_perm {A} (cmp : A -> A -> Z) l : JS.sort cmp l ≡ₚ l.
Proof.
  unfold JS.sort.
  assert (forall acc, fold_left (fun acc x => JS.insert_sorted cmp x acc) l acc
                      ≡ₚ l ++ acc) as H.
  { induction l as [|x l IH]; intros acc; simpl; [done|].
    rewrite IH, insert_sorted_perm. by rewrite Permutation_middle. }
  by rewrite H, app_nil_r.
Qed.

Lemma slice_sublist {A} (l : list A) s e : JS.slice l s e `sublist_of` l.
Proof.
  unfold JS.slice. etrans; [apply sublist_take|apply sublist_drop].
Qed.

(** Every message that [getMessages] returns to a user is a message of the
    chat that is not deleted for that user, whatever its [isDeleted]. *)
Lemma getMessages_hides_deleted userId chatId page limit d msgs total p l :
  (getMessages userId chatId page limit d).1
    = respond 200 (MessagePage msgs total p l) ->
  forall m, m ∈ msgs ->
    (userId ∉ deletedFor m)
    /\ exists chat, findById d chatId = Some chat /\ m ∈ messages chat.
Proof.
  unfold getMessages. destruct (findById d chatId) as [chat|]; [|done].
  destruct (negb _); [done|]. simpl. intros [= <- _ _ _] m Hm.
  apply list_elem_of_In, in_rev, list_elem_of_In in Hm.
  apply (fun H => elem_of_sublist _ _ _ H (slice_sublist _ _ _)) in Hm.
  rewrite sort_perm in Hm.
  apply list_elem_of_In, filter_In in Hm as [Hm Hvis].
  unfold visible_to in Hvis. apply negb_true_iff, includes_id_false in Hvis.
  split; [done|]. exists chat. split; [done|]. by apply list_elem_of_In.
Qed.

(** C1, at a failing input. Alice has deleted message 101 for herself.
    The paginated listing leaves it out for her, but the search of the
    chat for "report", which takes no requesting user at all, answers
    200 with that message in the list. *)
Theorem searchMessages_shows_message_deleted_for_requester :
  let hidden := set_deletedFor [Scenario.alice] Scenario.msg_report in
  lookup_message Scenario.db_hidden 100 101 = Some hidden
  /\ Scenario.alice ∈ deletedFor hidden
  /\ (getMessages Scenario.alice 100 (Some 1%Z) (Some 50%Z) Scenario.db_hidden).1
     = respond 200 (MessagePage [] 0 (Some 1%Z) (Some 50%Z))
  /\ searchMessages 100 (Some "report") Scenario.db_hidden
     = (respond 200 (MessageList [hidden]), Scenario.db_hidden).
Proof.
  intros hidden. split; [reflexivity|].
  split; [apply includes_id_spec; reflexivity|].
  split; reflexivity.
Qed.

(** C10. When a participant fetches the messages of a chat with the
    paginated get-messages query, the query answers 200 and, although it
    is a read, stores the chat with the unread counter of that participant
    at zero; the counters of all other users, the messages and the
    participants of the chat, and the other chats are as before. *)
Theorem getMessages_resets_unread_count
    (userId : UserId) (chatId : ChatId) (page limit : option Z)
    (d : DB) (chat : Chat) :
  findById d chatId = Some chat ->
  userId ∈ participants chat ->
  exists msgs total chat',
    (getMessages userId chatId page limit d).1
      = respond 200 (MessagePage msgs total page limit)
    /\ findById (getMessages userId chatId page limit d).2 chatId = Some chat'
    /\ getUnreadCount chat' userId = 0%Z
    /\ (forall v, v <> userId -> getUnreadCount chat' v = getUnreadCount chat v)
    /\ messages chat' = messages chat
    /\ participants chat' = participants chat
    /\ (forall k, k <> chatId ->
          findById (getMessages userId chatId page limit d).2 k = findById d k).
Proof.
  intros Hchat Hpart. apply includes_id_spec in Hpart.
  unfold getMessages. rewrite Hchat, Hpart. simpl.
  eexists _, _, (resetUnreadCount chat userId).
  assert (chat_id (resetUnreadCount chat userId) = chat_id chat) as Hid.
  { unfold resetUnreadCount. by destruct (find _ _). }
  split; [reflexivity|]. split; [by apply (findById_save_same chat)|].
  split; [apply getUnreadCount_reset_same|].
  split; [intros v Hv; by apply getUnreadCount_reset_other|].
  split; [unfold resetUnreadCount; by destruct (find _ _)|].
  split; [unfold resetUnreadCount; by destruct (find _ _)|].
  intros k Hk. rewrite findById_save, Hid.
  rewrite (findById_chat_id _ _ _ Hchat).
  destruct (decide (chatId = k)); [congruence|apply option_fmap_id].
Qed.

Lemma getMessages_resets_unread_count_witness :
  exists msgs total chat',
    (getMessages Scenario.alice 100 (Some 1%Z) (Some 50%Z) Scenario.db_sent).1
      = respond 200 (MessagePage msgs total (Some 1%Z) (Some 50%Z))
    /\ findById (getMessages Scenario.alice 100 (Some 1%Z) (Some 50%Z) Scenario.db_sent).2 100
       = Some chat'
    /\ getUnreadCount chat' Scenario.alice = 0%Z
    /\ (forall v, v <> Scenario.alice ->
          getUnreadCount chat' v = getUnreadCount Scenario.chat_sent v)
    /\ messages chat' = messages Scenario.chat_sent
    /\ participants chat' = participants Scenario.chat_sent
    /\ (forall k, k <> 100%N ->
          findById (getMessages Scenario.alice 100 (Some 1%Z) (Some 50%Z) Scenario.db_sent).2 k
          = findById Scenario.db_sent k).
Proof.
  apply (getMessages_resets_unread_count Scenario.alice 100 (Some 1%Z) (Some 50%Z)
           Scenario.db_sent Scenario.chat_sent); [reflexivity|].
  apply includes_id_spec. reflexivity.
Defined.

(** The counter that is reset was not zero: the read changes the store. *)
Example getMessages_changes_the_store :
  getUnreadCount Scenario.chat_sent Scenario.alice = 1%Z
  /\ (getMessages Scenario.alice 100 (Some 1%Z) (Some 50%Z) Scenario.db_sent).2
     <> Scenario.db_sent.
Proof. split; [reflexivity|discriminate]. Qed.

(** ** Sending a message *)
(** X27. When a participant sends a message with a text to a chat whose
    participants all have an unread counter (as every chat has from its
    creation on), the request answers 201 with the new message; the
    message is appended to the messages of the chat; the sender is in its
    [readBy] and in its [deliveredTo]; the unread counter of every other
    participant is one more than before, and the counter of the sender is
    as before. *)
Theorem sendMessage_created
    (now : Time) (userId : UserId) (chatId : ChatId) (content_ : string)
    (files : list File) (d : DB) (chat : Chat) :
  findById d chatId = Some chat ->
  userId ∈ participants chat ->
  JS.truthy content_ = true ->
  (forall p, p ∈ participants chat -> has_counter chat p) ->
  exists m d' chat',
    sendMessage now userId chatId content_ files d
      = (respond 201 (MessageDoc m), d')
    /\ findById d' chatId = Some chat'
    /\ messages chat' = messages chat ++ [m]
    /\ sender m = userId /\ content m = content_
    /\ has_read userId m
    /\ (exists t, ReceiptUser userId t ∈ deliveredTo m)
    /\ (forall p, p ∈ participants chat -> p <> userId ->
          getUnreadCount chat' p = (getUnreadCount chat p + 1)%Z)
    /\ getUnreadCount chat' userId = getUnreadCount chat userId.
Proof.
  intros Hchat Hpart Htext Hcounters.
  apply existsb_same_id_spec in Hpart.
  unfold sendMessage. rewrite Htext, Hchat, Hpart. simpl.
  eexists _, _, _. split; [reflexivity|].
  split.
  { apply (findById_save_same chat); [|reflexivity]. exact Hchat. }
  split; [reflexivity|]. split; [reflexivity|]. split; [reflexivity|].
  split; [exists now; simpl; by left|].
  split; [exists now; simpl; by left|].
  split.
  - intros p Hp Hne. by apply getUnreadCount_bump_other; [|apply Hcounters].
  - apply getUnreadCount_bump_sender.
Qed.

Lemma sendMessage_created_witness :
  exists m d' chat',
    sendMessage 1500 Scenario.alice 100 "Thanks" [] Scenario.db_sent
      = (respond 201 (MessageDoc m), d')
    /\ findById d' 100 = Some chat'
    /\ messages chat' = messages Scenario.chat_sent ++ [m]
    /\ sender m = Scenario.alice /\ content m = "Thanks"
    /\ has_read Scenario.alice m
    /\ (exists t, ReceiptUser Scenario.alice t ∈ deliveredTo m)
    /\ (forall p, p ∈ participants Scenario.chat_sent -> p <> Scenario.alice ->
          getUnreadCount chat' p = (getUnreadCount Scenario.chat_sent p + 1)%Z)
    /\ getUnreadCount chat' Scenario.alice
       = getUnreadCount Scenario.chat_sent Scenario.alice.
Proof.
  apply (sendMessage_created 1500 Scenario.alice 100 "Thanks" []
           Scenario.db_sent Scenario.chat_sent).
  - reflexivity.
  - apply includes_id_spec. reflexivity.
  - reflexivity.
  - intros p Hp. exact Hp.
Defined.

(** C6, at a failing input. Bob is a participant of chat 100, in which
    both participants have an unread counter.  He sends a file without a
    text, which the handler means to accept: the request passes its test
    for a content or attachments.  But the content of a stored message is
    required: the request fails with 500, no message is appended to the
    chat and the counter of Alice is not raised.  With a text, the same
    request is answered 201: the message is appended, with Bob in its
    [readBy] and its [deliveredTo], and the counter of Alice is one more. *)
Theorem sendMessage_of_attachments_alone_is_not_created :
  findById Scenario.db_chat 100 = Some Scenario.chat_empty
  /\ Scenario.bob ∈ participants Scenario.chat_empty
  /\ (forall p, p ∈ participants Scenario.chat_empty ->
        has_counter Scenario.chat_empty p)
  /\ sendMessage 1000 Scenario.bob 100 "" [Scenario.upload] Scenario.db_chat
     = (respond 500 (Msg "Error sending message"), Scenario.db_chat)
  /\ messages <$> findById Scenario.db_chat 100 = Some []
  /\ sendMessage 1000 Scenario.bob 100 "Quarterly Report" [Scenario.upload]
                 Scenario.db_chat
     = (respond 201 (MessageDoc Scenario.msg_report), Scenario.db_sent)
  /\ findById Scenario.db_sent 100 = Some Scenario.chat_sent
  /\ messages Scenario.chat_sent = [Scenario.msg_report]
  /\ readBy Scenario.msg_report = [ReceiptUser Scenario.bob 1000]
  /\ deliveredTo Scenario.msg_report = [ReceiptUser Scenario.bob 1000]
  /\ getUnreadCount Scenario.chat_empty Scenario.alice = 0%Z
  /\ getUnreadCount Scenario.chat_sent Scenario.alice = 1%Z.
Proof.
  split; [reflexivity|]. split; [right; left|]. split.
  { intros p Hp. unfold has_counter. simpl.
    apply elem_of_cons in Hp as [->|Hp]; [left|].
    apply elem_of_cons in Hp as [->|Hp]; [right; left|].
    by apply elem_of_nil in Hp. }
  repeat split; reflexivity.
Qed.

(** ** The notification store *)
Lemma handle_notifications r d : notifications (handle r d).2 = notifications d.
Proof.
  handler_cases r; try done;
    by name_inserted.
Qed.

Lemma on_notifications u e st :
  notifications (db (on u e st).1) = notifications (db st).
Proof.
  destruct e; cbn [on]; try done.
  - unfold on_sendMessage. by repeat case_match.
  - unfold on_messageRead. by case_match.
  - unfold on_deleteMessage. by repeat case_match.
Qed.

(** No request on the chat routes and no socket event saves a
    Notification: the notification store is the same after any sequence
    of them. *)
Lemma run_notifications st actions :
  notifications (db (run st actions)) = notifications (db st).
Proof.
  revert st. induction actions as [|a actions IH]; intros st; simpl; [done|].
  rewrite IH. destruct a; simpl; auto using handle_notifications, on_notifications.
Qed.

(** What saving a Notification does to the store, by contrast. *)
Example createNotification_saves :
  let n := {| notification_user := Scenario.bob; notification_type := MENTION;
              title := "New message"; notification_message := "hi";
              task := None; from := Some Scenario.alice; read := false |} in
  notifications (createNotification n Scenario.db_chat) = [n].
Proof. reflexivity. Qed.

Lemma on_sendMessage_state u cid mid st : (on_sendMessage u cid mid st).1 = st.
Proof. unfold on_sendMessage. by repeat case_match. Qed.

(** C5, as the code has it. When a participant A sends a message with a
    text to a chat in which participant B, who has an unread counter that
    is not negative, has no registered connection: the request answers
    201, the notification store is as before (no Notification is saved,
    for B or for anyone), the socket event of the message changes nothing
    either, and the unread counter of B for the chat is one more than
    before, hence at least 1. *)
Theorem send_to_offline_participant
    (now : Time) (A B : UserId) (chatId : ChatId) (content_ : string)
    (files : list File) (st : Server) (chat : Chat) :
  findById (db st) chatId = Some chat ->
  A ∈ participants chat -> B ∈ participants chat -> B <> A ->
  userSockets st !! B = None ->
  has_counter chat B -> (0 <= getUnreadCount chat B)%Z ->
  JS.truthy content_ = true ->
  exists m d' chat',
    sendMessage now A chatId content_ files (db st)
      = (respond 201 (MessageDoc m), d')
    /\ notifications d' = notifications (db st)
    /\ (on_sendMessage A chatId (msg_id m) (set_db d' st)).1 = set_db d' st
    /\ findById d' chatId = Some chat'
    /\ getUnreadCount chat' B = (getUnreadCount chat B + 1)%Z
    /\ (1 <= getUnreadCount chat' B)%Z.
Proof.
  intros Hchat HA HB Hne Hoff Hcounter Hpos Htext.
  apply existsb_same_id_spec in HA.
  unfold sendMessage. rewrite Htext, Hchat, HA. simpl.
  eexists _, _, _. split; [reflexivity|].
  split; [reflexivity|]. split; [apply on_sendMessage_state|].
  split.
  { apply (findById_save_same chat); [exact Hchat|reflexivity]. }
  rewrite getUnreadCount_bump_other by done. split; [done|lia].
Qed.

Lemma send_to_offline_participant_witness :
  let st := Scenario.only_alice_online Scenario.db_chat in
  findById (db st) 100 = Some Scenario.chat_empty
  /\ Scenario.alice ∈ participants Scenario.chat_empty
  /\ Scenario.bob ∈ participants Scenario.chat_empty
  /\ Scenario.bob <> Scenario.alice
  /\ userSockets st !! Scenario.bob = None
  /\ has_counter Scenario.chat_empty Scenario.bob
  /\ (0 <= getUnreadCount Scenario.chat_empty Scenario.bob)%Z
  /\ JS.truthy "hi" = true
  /\ exists m d' chat',
       sendMessage 1000 Scenario.alice 100 "hi" [] (db st)
         = (respond 201 (MessageDoc m), d')
       /\ notifications d' = notifications (db st)
       /\ (on_sendMessage Scenario.alice 100 (msg_id m) (set_db d' st)).1
          = set_db d' st
       /\ findById d' 100 = Some chat'
       /\ getUnreadCount chat' Scenario.bob
          = (getUnreadCount Scenario.chat_empty Scenario.bob + 1)%Z
       /\ (1 <= getUnreadCount chat' Scenario.bob)%Z.
Proof.
  intros st.
  assert (findById (db st) 100 = Some Scenario.chat_empty) as H1 by reflexivity.
  assert (Scenario.alice ∈ participants Scenario.chat_empty) as H2
    by (apply includes_id_spec; reflexivity).
  assert (Scenario.bob ∈ participants Scenario.chat_empty) as H3
    by (apply includes_id_spec; reflexivity).
  assert (Scenario.bob <> Scenario.alice) as H4 by discriminate.
  assert (userSockets st !! Scenario.bob = None) as H5 by reflexivity.
  assert (has_counter Scenario.chat_empty Scenario.bob) as H6 by exact H3.
  assert (0 <= getUnreadCount Scenario.chat_empty Scenario.bob)%Z as H7
    by (vm_compute; discriminate).
  assert (JS.truthy "hi" = true) as H8 by reflexivity.
  repeat (split; [assumption|]).
  exact (send_to_offline_participant 1000 Scenario.alice Scenario.bob 100 "hi" []
           st Scenario.chat_empty H1 H2 H3 H4 H5 H6 H7 H8).
Defined.

(** C5, as stated, fails: Alice sends "hi" to the direct chat while Bob
    has no registered connection, and afterwards the notification store
    holds no Notification for Bob (it holds none at all). *)
Lemma offline_participant_gets_no_notification :
  let st := Scenario.only_alice_online Scenario.db_chat in
  let sent := sendMessage 1000 Scenario.alice 100 "hi" [] (db st) in
  let st' := (on_sendMessage Scenario.alice 100 101 (set_db sent.2 st)).1 in
  userSockets st !! Scenario.bob = None
  /\ Scenario.bob ∈ participants Scenario.chat_empty
  /\ status sent.1 = 201%N
  /\ notifications (db st') = []
  /\ ~ (exists n, n ∈ notifications (db st') /\ notification_user n = Scenario.bob).
Proof.
  intros st sent st'.
  split; [reflexivity|]. split; [apply includes_id_spec; reflexivity|].
  split; [reflexivity|]. split; [reflexivity|].
  intros (n & Hn & _). vm_compute in Hn. by apply elem_of_nil in Hn.
Qed.

(** ** Requests of a user who is not a participant *)
Lemma sendMessage_forbidden now u cid text files d c :
  findById d cid = Some c -> u ∉ participants c -> JS.truthy text = true ->
  sendMessage now u cid text files d
  = (respond 403 (Msg "Not authorized to send messages to this chat"), d).
Proof.
  intros Hc Hu Ht. unfold sendMessage. rewrite Ht, Hc. simpl.
  destruct (existsb _ _) eqn:E; [|done].
  by apply existsb_same_id_spec in E.
Qed.

Lemma addReaction_forbidden u cid mid e d c :
  findById d cid = Some c -> u ∉ participants c -> JS.truthy e = true ->
  addReaction u cid mid e d
  = (respond 403 (Msg "Not authorized to react to messages in this chat"), d).
Proof.
  intros Hc Hu%includes_id_false He. unfold addReaction. by rewrite He, Hc, Hu.
Qed.

Lemma markMessagesAsRead_forbidden now u cid d c :
  findById d cid = Some c -> u ∉ participants c ->
  markMessagesAsRead now u cid d
  = (respond 403 (Msg "Not authorized to access this chat"), d).
Proof.
  intros Hc Hu%includes_id_false. unfold markMessagesAsRead. by rewrite Hc, Hu.
Qed.

Lemma getMessages_forbidden u cid page limit d c :
  findById d cid = Some c -> u ∉ participants c ->
  getMessages u cid page limit d
  = (respond 403 (Msg "Not authorized to access this chat"), d).
Proof.
  intros Hc Hu%includes_id_false. unfold getMessages. by rewrite Hc, Hu.
Qed.

Lemma editMessage_forbidden now u cid mid text d c m :
  findById d cid = Some c -> message_by_id c mid = Some m -> sender m <> u ->
  editMessage now u cid mid text d
  = (respond 403 (Msg "Not authorized to edit this message"), d).
Proof.
  intros Hc Hm Hs. unfold editMessage. rewrite Hc, Hm. unfold same_id.
  by destruct (N.eqb_spec (sender m) u).
Qed.

(** The reply of any user is stored, participant of the chat or not. *)
Lemma replyToMessage_of_anyone now u cid mid text d c m :
  findById d cid = Some c -> message_by_id c mid = Some m ->
  JS.truthy text = true -> JS.trim text <> ""%string ->
  exists reply d' c',
    replyToMessage now u cid mid text d
    = (respond 201 (MessageDoc (set_replyTo None reply)), d')
    /\ sender reply = u /\ replyTo reply = Some mid
    /\ findById d' cid = Some c'
    /\ messages c' = messages c ++ [reply].
Proof.
  intros Hc Hm Ht Hb. unfold replyToMessage. rewrite Ht, Hc, Hm. simpl.
  destruct (String.eqb_spec (JS.trim text) ""); [done|].
  eexists _, _, _. split; [reflexivity|]. split; [done|]. split; [done|].
  split.
  - apply (findById_save_same c); [exact Hc|reflexivity].
  - reflexivity.
Qed.

(** C2, at a failing input. Carol is not a participant of chat 100.  Her
    message is refused with 403, but her reply to message 101 is
    answered 201 and stored, with the unread counters of both
    participants raised; her deletion of message 101 for herself and her
    removal of a reaction are answered 200, and the deletion is stored. *)
Theorem replyToMessage_accepts_non_participant :
  let reply :=
    new_message 102 2000 Scenario.carol "hello" [] (Some 101%N) in
  (Scenario.carol ∉ participants Scenario.chat_sent)
  /\ sendMessage 2000 Scenario.carol 100 "hello" [] Scenario.db_sent
     = (respond 403 (Msg "Not authorized to send messages to this chat"),
        Scenario.db_sent)
  /\ replyToMessage 2000 Scenario.carol 100 101 "hello" Scenario.db_sent
     = (respond 201 (MessageDoc (set_replyTo None reply)),
        {| users := Scenario.people;
           chats :=
             [ {| chat_id := 100%N; chatType := direct;
                  participants := [Scenario.alice; Scenario.bob];
                  messages := [Scenario.msg_report; reply]; name := "";
                  admins := [];
                  unreadCounts :=
                    [ {| unread_user := Scenario.alice; count := 2 |};
                      {| unread_user := Scenario.bob; count := 1 |} ] |} ];
           notifications := []; nextId := 103%N |})
  /\ status (deleteMessage Scenario.carol 100 101 false Scenario.db_sent).1 = 200%N
  /\ deletedFor <$> lookup_message
       (deleteMessage Scenario.carol 100 101 false Scenario.db_sent).2 100 101
     = Some [Scenario.carol]
  /\ status (removeReaction Scenario.carol 100 101 Scenario.db_sent).1 = 200%N.
Proof.
  intros reply. split; [apply includes_id_false; reflexivity|].
  repeat split; reflexivity.
Qed.

(** ** Deleting a message for everyone *)
Lemma tombstone_fields m :
  isDeleted (tombstone m) = true
  /\ content (tombstone m) = deleted_placeholder
  /\ attachments (tombstone m) = []
  /\ tombstone (tombstone m) = tombstone m.
Proof. done. Qed.

(** The sender deletes for everyone: the stored message becomes the
    tombstone, whatever its content was, and doing it again changes
    nothing. *)
Lemma deleteMessage_for_everyone u cid mid d c m :
  findById d cid = Some c -> message_by_id c mid = Some m -> sender m = u ->
  let r := deleteMessage u cid mid true d in
  r.1 = respond 200 (Deleted "Message deleted successfully" true)
  /\ lookup_message r.2 cid mid = Some (tombstone m)
  /\ deleteMessage u cid mid true r.2 = r.
Proof.
  intros Hc Hm Hs r.
  assert (r = (respond 200 (Deleted "Message deleted successfully" true),
               save (update_message mid tombstone c) d)) as Hr.
  { unfold r, deleteMessage. rewrite Hc, Hm, Hs. unfold same_id.
    by rewrite N.eqb_refl. }
  assert (lookup_message r.2 cid mid = Some (tombstone m)) as Hl.
  { rewrite Hr. simpl. rewrite (lookup_message_save_update _ _ _ cid) by done.
    unfold lookup_message. rewrite Hc. simpl. rewrite Hm. simpl.
    destruct (decide _) as [|Hn]; [done|by destruct Hn]. }
  split; [by rewrite Hr|]. split; [done|].
  pose proof (findById_save_same c (update_message mid tombstone c) d cid Hc eq_refl)
    as Hc'.
  assert (message_by_id (update_message mid tombstone c) mid = Some (tombstone m))
    as Hm'.
  { rewrite message_by_id_update by done. rewrite Hm. simpl.
    by destruct (decide (mid = mid)). }
  rewrite Hr at 1. simpl. unfold deleteMessage. rewrite Hc', Hm'. simpl.
  rewrite Hs. unfold same_id. rewrite N.eqb_refl. simpl. rewrite Hr. f_equal.
  assert (update_message mid tombstone (update_message mid tombstone c)
          = update_message mid tombstone c) as ->.
  { unfold update_message at 1. unfold set_messages.
    rewrite (update_first_found _ _ _ (tombstone m)); [done| |done].
    exact Hm'. }
  apply save_found. simpl. by rewrite (findById_chat_id _ _ _ Hc).
Qed.

(** Anyone else is refused, and nothing changes. *)
Lemma deleteMessage_not_sender u cid mid d c m :
  findById d cid = Some c -> message_by_id c mid = Some m -> sender m <> u ->
  deleteMessage u cid mid true d
  = (respond 403 (Msg "Only the sender can delete for everyone"), d).
Proof.
  intros Hc Hm Hs. unfold deleteMessage. rewrite Hc, Hm. unfold same_id.
  by destruct (N.eqb_spec (sender m) u).
Qed.

(** The socket event of the sender marks the message and leaves the rest
    of it as it is. *)
Lemma on_deleteMessage_of_sender u cid mid st m :
  lookup_message (db st) cid mid = Some m -> sender m = u ->
  lookup_message (db (on_deleteMessage u cid mid true st).1) cid mid
  = Some (set_isDeleted true m).
Proof.
  intros Hm Hs. unfold on_deleteMessage.
  destruct (may_delete_for_everyone u cid mid (db st)) eqn:E; simpl.
  - rewrite lookup_message_updateOne by done. rewrite Hm. simpl.
    destruct (decide _) as [|Hn]; [done|by destruct Hn].
  - exfalso. unfold may_delete_for_everyone in E.
    unfold lookup_message in Hm.
    destruct (findById (db st) cid) as [c|] eqn:Hc; [|done]. simpl in Hm.
    pose proof (find_key_Some _ _ _ _ Hc) as [Hid Hin].
    pose proof (find_key_Some _ _ _ _ Hm) as [Hmid Hmin].
    apply list_elem_of_In in Hin, Hmin.
    apply (find_none _ _ E) in Hin.
    assert (existsb (fun x => same_id (msg_id x) mid) (messages c) = true) as H1.
    { apply existsb_exists. exists m. split; [done|]. unfold same_id.
      by apply N.eqb_eq. }
    assert (existsb (fun x => same_id (sender x) u) (messages c) = true) as H2.
    { apply existsb_exists. exists m. split; [done|]. unfold same_id.
      by apply N.eqb_eq. }
    unfold same_id in Hin at 1. rewrite Hid, N.eqb_refl, H1, H2 in Hin. done.
Qed.

(** C3, at a failing input. Bob, the sender of message 101, deletes it
    for everyone through the socket event: the message is marked as
    deleted, but its content is still the original text and its
    attachment is still there.  And Alice, who did not send message 101
    but sent message 102 of the same chat, is let through by the check
    of the socket handler and marks Bob's message as deleted. *)
Theorem on_deleteMessage_keeps_content_and_attachments :
  let st := Scenario.both_online Scenario.db_sent in
  let deleted := set_isDeleted true Scenario.msg_report in
  (on_deleteMessage Scenario.bob 100 101 true st).2
    = [(ToRoomButSender 100, messageDeleted 100 101 true)]
  /\ lookup_message (db (on_deleteMessage Scenario.bob 100 101 true st).1) 100 101
     = Some deleted
  /\ isDeleted deleted = true
  /\ content deleted = "Quarterly Report"
  /\ content deleted <> deleted_placeholder
  /\ attachments deleted = [Scenario.report_file]
  /\ sender Scenario.msg_report <> Scenario.alice
  /\ lookup_message
       (db (on_deleteMessage Scenario.alice 100 101 true
              (Scenario.both_online Scenario.db_answered)).1) 100 101
     = Some deleted.
Proof.
  intros st deleted.
  repeat split; try reflexivity; discriminate.
Qed.

(** ** At most one reaction per user *)
Lemma on_addReaction_db u cid mid e st :
  db (on_addReaction u cid mid e st).1 = updateOne cid mid (react u e) (db st).
Proof.
  unfold on_addReaction; simpl. rewrite updateOne_twice by done.
  unfold updateOne. f_equal. apply update_first_ext. intros c.
  unfold update_message. f_equal. apply update_first_ext. intros m.
  apply pull_then_addToSet.
Qed.

Lemma reactions_ok_evolves m m' : evolves m m' -> reactions_ok m -> reactions_ok m'.
Proof. intros Hev H u. apply (evolves_reactions _ _ Hev), H. Qed.

Lemma reactions_ok_new id now u text files reply :
  reactions_ok (new_message id now u text files reply).
Proof. intros v. simpl. lia. Qed.

Lemma reactions_ok_update_message mid g c :
  (forall m, evolves m (g m)) ->
  Forall reactions_ok (messages c) ->
  Forall reactions_ok (messages (update_message mid g c)).
Proof.
  intros Hg H. simpl. apply Forall_update_first; [done|].
  intros m _. apply reactions_ok_evolves, Hg.
Qed.

Lemma reactions_ok_mapM_mark_read now u ms ms' :
  mapM (mark_read now u) ms = Some ms' ->
  Forall reactions_ok ms -> Forall reactions_ok ms'.
Proof.
  intros HM H. apply mapM_Some in HM.
  induction HM as [|m m' ms ms' Hm _ IH]; [done|].
  apply Forall_cons in H as [H1 H2]. constructor; [|auto].
  eapply reactions_ok_evolves; eauto using evolves_mark_read.
Qed.

Lemma messages_ok_save c' d :
  messages_ok d -> Forall reactions_ok (messages c') -> messages_ok (save c' d).
Proof. intros H Hc. by apply (Forall_save _ c' d). Qed.

Lemma messages_ok_updateOne cid mid g d :
  (forall m, evolves m (g m)) -> messages_ok d -> messages_ok (updateOne cid mid g d).
Proof.
  intros Hg H. unfold messages_ok. simpl. apply Forall_update_first; [done|].
  intros c _. by apply reactions_ok_update_message.
Qed.

Lemma handle_messages_ok r d : messages_ok d -> messages_ok (handle r d).2.
Proof.
  intros H.
  handler_cases r; try done;
    try (name_inserted; apply Forall_app; split; [done|]; by repeat constructor);
    try change (messages_ok (take_id ?x)) with (messages_ok x);
    apply messages_ok_save; try done;
    match goal with
    | Hc : findById _ _ = Some ?c |- _ =>
        pose proof (findById_Forall _ _ _ _ H Hc) as Hok; simpl in Hok
    end;
    eauto using reactions_ok_update_message, evolves_edit, evolves_tombstone,
                evolves_delete_for, evolves_react, evolves_unreact.
  - by rewrite resetUnreadCount_messages.
  - simpl. apply Forall_app. split; [done|].
    apply Forall_singleton, reactions_ok_new.
  - simpl. apply Forall_app. split; [done|].
    apply Forall_singleton, reactions_ok_new.
  - simpl. eapply reactions_ok_mapM_mark_read; [eassumption|].
    by rewrite resetUnreadCount_messages.
Qed.

Lemma on_messages_ok u e st : messages_ok (db st) -> messages_ok (db (on u e st).1).
Proof.
  intros H. destruct e; cbn [on]; try done.
  - unfold on_sendMessage. by repeat case_match.
  - unfold on_messageRead.
    case_match; apply messages_ok_updateOne; auto using evolves_socket_read.
  - rewrite on_addReaction_db. apply messages_ok_updateOne; auto using evolves_react.
  - unfold on_removeReaction.
    apply messages_ok_updateOne; [|done]. intros m. apply (evolves_unreact u).
  - unfold on_deleteMessage. repeat case_match; try done;
      apply messages_ok_updateOne;
      auto using evolves_socket_delete, evolves_socket_delete_for.
Qed.

(** From a store without chats on, whatever requests and events come, no
    user has two reactions on a stored message. *)
Lemma run_messages_ok st actions :
  messages_ok (db st) -> messages_ok (db (run st actions)).
Proof.
  revert st. induction actions as [|a actions IH]; intros st H; simpl; [done|].
  apply IH. destruct a; simpl; auto using handle_messages_ok, on_messages_ok.
Qed.

Lemma no_chats_messages_ok d : chats d = [] -> messages_ok d.
Proof. unfold messages_ok. by intros ->. Qed.

Lemma addReaction_accepted u cid mid e d c m :
  findById d cid = Some c -> message_by_id c mid = Some m ->
  u ∈ participants c -> JS.truthy e = true ->
  addReaction u cid mid e d
  = (respond 200 (ReactionAdded "Reaction added successfully"
                    {| reaction_user := u; emoji := e |}),
     save (update_message mid (react u e) c) d).
Proof.
  intros Hc Hm Hp%includes_id_spec He. unfold addReaction.
  by rewrite He, Hc, Hp, Hm.
Qed.

Lemma addReaction_200 u cid mid e d :
  status (addReaction u cid mid e d).1 = 200%N ->
  lookup_message (addReaction u cid mid e d).2 cid mid
  = react u e <$> lookup_message d cid mid.
Proof.
  unfold addReaction. repeat case_match; simpl; try discriminate. intros _.
  erewrite lookup_message_save_update by done.
  destruct (decide _) as [|Hn]; [done|]. by destruct Hn.
Qed.

(** A reaction with one emoji and then with another leaves the second
    only, whichever way each is sent. *)
Example react_twice :
  let st := Scenario.only_alice_online Scenario.db_sent in
  let st' := run st [ Http (AddReaction Scenario.alice 100 101 "thumbsup");
                      Ws Scenario.alice (EvAddReaction 100 101 "heart") ] in
  status (addReaction Scenario.alice 100 101 "thumbsup" (db st)).1 = 200%N
  /\ reactions <$> lookup_message (db st') 100 101
     = Some [ {| reaction_user := Scenario.alice; emoji := "heart" |} ].
Proof. split; reflexivity. Qed.

(** ** Read receipts *)
Lemma read_by_app u rb extra :
  read_by u rb = Some true -> read_by u (rb ++ extra) = Some true.
Proof.
  induction rb as [|[v t|v t] rb IH]; simpl; [done| |done].
  destruct (same_id v u); auto.
Qed.

Lemma read_by_has_read u m : read_by u (readBy m) = Some true -> has_read u m.
Proof.
  unfold has_read. induction (readBy m) as [|[v t|v t] rb IH]; simpl; [done| |done].
  unfold same_id. destruct (N.eqb_spec v u) as [->|].
  - intros _. exists t. by left.
  - intros H. destruct (IH H) as [t' ?]. exists t'. by right.
Qed.

(** Marking a message that the user has read already is a no-op. *)
Lemma mark_read_again now u m :
  read_by u (readBy m) = Some true -> mark_read now u m = Some m.
Proof. unfold mark_read. by intros ->. Qed.

(** After the marking the user has read the message. *)
Lemma mark_read_read now u m m' :
  mark_read now u m = Some m' -> read_by u (readBy m') = Some true.
Proof.
  unfold mark_read. destruct (read_by u (readBy m)) as [[]|] eqn:E; simpl; [| |done].
  - by intros [= <-].
  - intros [= <-]. simpl. clear -E.
    induction (readBy m) as [|[v t|v t] rb IH]; simpl in *; [|  |done].
    + unfold same_id. by rewrite N.eqb_refl.
    + destruct (same_id v u); [done|auto].
Qed.

(** A receipt is never removed: a user who has read a stored message has
    read it after any sequence of requests and socket events, and the
    test of the HTTP handler keeps finding the receipt. *)
Lemma read_receipts_stay u cid mid st m actions :
  lookup_message (db st) cid mid = Some m ->
  exists m',
    lookup_message (db (run st actions)) cid mid = Some m'
    /\ (has_read u m -> has_read u m')
    /\ (read_by u (readBy m) = Some true -> read_by u (readBy m') = Some true).
Proof.
  intros Hm. destruct (run_evolves actions st _ _ _ Hm) as (m' & Hm' & Hev).
  exists m'. split; [done|].
  destruct (evolves_readBy _ _ Hev) as [extra E]. split.
  - intros [t Ht]. exists t. rewrite E. apply elem_of_app. by left.
  - rewrite E. apply read_by_app.
Qed.

(** The socket event of a reader adds a receipt, every time. *)
Lemma on_messageRead_adds now u cid mid st m :
  lookup_message (db st) cid mid = Some m ->
  readBy <$> lookup_message (db (on_messageRead now cid mid u st).1) cid mid
  = Some (readBy m ++ [ReceiptUserId u now]).
Proof.
  intros Hm.
  assert (db (on_messageRead now cid mid u st).1
          = updateOne cid mid
              (fun m => set_readBy (readBy m ++ [ReceiptUserId u now]) m)
              (db st)) as ->.
  { unfold on_messageRead. by case_match. }
  rewrite lookup_message_updateOne by done. rewrite Hm. simpl.
  destruct (decide _) as [|Hn]; [done|by destruct Hn].
Qed.

(** C7, at a failing input. Bob sent message 101 and is in its [readBy]
    from the start.  When he reads it through the socket event, the
    event is not a no-op: it adds a receipt.  So does every further
    event: Alice reads the message at time 3000 and again at time 4000,
    and the second event adds a second receipt.  The receipts of the
    socket handler have no [user] field, and the unread counter of Alice
    is still 1; the HTTP request that marks the chat as read then fails
    with 500 on these receipts. *)
Theorem on_messageRead_twice_adds_two_receipts :
  let st0 := Scenario.both_online Scenario.db_sent in
  let st1 := (on_messageRead 3000 100 101 Scenario.alice st0).1 in
  let st2 := (on_messageRead 4000 100 101 Scenario.alice st1).1 in
  readBy Scenario.msg_report = [ReceiptUser Scenario.bob 1000]
  /\ readBy <$> lookup_message
       (db (on_messageRead 2000 100 101 Scenario.bob st0).1) 100 101
     = Some [ReceiptUser Scenario.bob 1000; ReceiptUserId Scenario.bob 2000]
  /\ readBy <$> lookup_message (db st1) 100 101
     = Some [ReceiptUser Scenario.bob 1000; ReceiptUserId Scenario.alice 3000]
  /\ readBy <$> lookup_message (db st2) 100 101
     = Some [ReceiptUser Scenario.bob 1000; ReceiptUserId Scenario.alice 3000;
             ReceiptUserId Scenario.alice 4000]
  /\ st2 <> st1
  /\ (fun c => getUnreadCount c Scenario.alice) <$> findById (db st2) 100
     = Some 1%Z
  /\ markMessagesAsRead 5000 Scenario.alice 100 (db st2) = (server_error, db st2).
Proof.
  intros st0 st1 st2.
  split; [reflexivity|]. split; [reflexivity|].
  split; [reflexivity|]. split; [reflexivity|].
  split; [|split; reflexivity].
  intros E.
  apply (f_equal (fun s => length <$> (readBy <$> lookup_message (db s) 100 101))) in E.
  vm_compute in E. discriminate.
Qed.

(** ** Direct chats *)
Lemma direct_between_comm a b c : direct_between a b c = direct_between b a c.
Proof.
  unfold direct_between.
  destruct (bool_decide _), (includes_id _ a), (includes_id _ b); done.
Qed.

Lemma direct_between_same c c' a b :
  chatType c' = chatType c -> participants c' = participants c ->
  direct_between a b c' = direct_between a b c.
Proof. unfold direct_between. by intros -> ->. Qed.

Lemma direct_chats_unique_save c c' d cid :
  findById d cid = Some c -> chat_id c' = chat_id c ->
  chatType c' = chatType c -> participants c' = participants c ->
  direct_chats_unique d -> direct_chats_unique (save c' d).
Proof.
  intros Hc Hid Hty Hps H a b Hab. simpl.
  rewrite filter_update_first_length; [by apply H|].
  intros x Hx. rewrite Hid, (findById_chat_id _ _ _ Hc) in Hx.
  unfold findById in Hc. rewrite Hc in Hx. injection Hx as <-.
  by apply direct_between_same.
Qed.

Lemma direct_chats_unique_updateOne cid mid g d :
  direct_chats_unique d -> direct_chats_unique (updateOne cid mid g d).
Proof.
  intros H a b Hab. simpl. rewrite filter_update_first_length; [by apply H|].
  intros x _. by apply direct_between_same.
Qed.

Lemma direct_chats_unique_new_direct u t d mk :
  (forall id, chatType (mk id) = direct /\ participants (mk id) = [u; t]) ->
  findDirectChat d u t = None ->
  direct_chats_unique d -> direct_chats_unique (insert_chat mk d).2.
Proof.
  intros Hmk Hnone H a b Hab. simpl. rewrite List.filter_app, length_app. simpl.
  destruct (direct_between a b (mk (nextId d))) eqn:E; simpl;
    [|specialize (H a b Hab); lia].
  destruct (Hmk (nextId d)) as [Hty Hps].
  unfold direct_between in E. rewrite Hps in E.
  apply andb_true_iff in E as [E _]. apply andb_true_iff in E as [E Eb].
  apply andb_true_iff in E as [_ Ea].
  apply includes_id_spec in Ea, Eb.
  assert (List.filter (direct_between a b) (chats d) = []) as ->; [|done].
  apply find_None_filter.
  apply list_elem_of_In in Ea, Eb. simpl in Ea, Eb.
  destruct Ea as [<-|[<-|[]]], Eb as [<-|[<-|[]]]; try done.
  unfold findDirectChat in Hnone. rewrite <- Hnone.
  apply find_ext. intros c. apply direct_between_comm.
Qed.

Lemma direct_chats_unique_new_group d mk :
  (forall id, chatType (mk id) = group) ->
  direct_chats_unique d -> direct_chats_unique (insert_chat mk d).2.
Proof.
  intros Hmk H a b Hab. simpl. rewrite List.filter_app, length_app. simpl.
  unfold direct_between at 2. rewrite Hmk. simpl.
  specialize (H a b Hab). lia.
Qed.

Lemma handle_direct_chats_unique r d :
  direct_chats_unique d -> direct_chats_unique (handle r d).2.
Proof.
  intros H.
  handler_cases r; try done;
    try name_inserted;
    try (eapply direct_chats_unique_save; eauto;
         auto using resetUnreadCount_chat_id, resetUnreadCount_participants;
         unfold resetUnreadCount; by case_match).
  - by apply (direct_chats_unique_new_direct userId targetUserId).
  - by apply direct_chats_unique_new_group.
Qed.

Lemma on_direct_chats_unique u e st :
  direct_chats_unique (db st) -> direct_chats_unique (db (on u e st).1).
Proof.
  intros H. destruct e; cbn [on]; try done.
  - unfold on_sendMessage. by repeat case_match.
  - unfold on_messageRead. case_match; by apply direct_chats_unique_updateOne.
  - unfold on_addReaction. by do 2 apply direct_chats_unique_updateOne.
  - unfold on_removeReaction. by apply direct_chats_unique_updateOne.
  - unfold on_deleteMessage.
    repeat case_match; done || by apply direct_chats_unique_updateOne.
Qed.

(** From a store without chats on, whatever requests and events come, two
    different users have at most one direct chat. *)
Lemma run_direct_chats_unique st actions :
  direct_chats_unique (db st) -> direct_chats_unique (db (run st actions)).
Proof.
  revert st. induction actions as [|a actions IH]; intros st H; simpl; [done|].
  apply IH. destruct a; simpl;
    auto using handle_direct_chats_unique, on_direct_chats_unique.
Qed.

Lemma no_chats_direct_chats_unique d : chats d = [] -> direct_chats_unique d.
Proof. intros E a b _. rewrite E. simpl. lia. Qed.

(** A request for a direct chat that exists answers 200 with the chat
    found and stores nothing. *)
Lemma createDirectChat_existing u t d cu ct co existing :
  findUser d u = Some cu -> findUser d t = Some ct ->
  company cu = Some co -> company ct = Some co ->
  findDirectChat d u t = Some existing ->
  createDirectChat u t d = (respond 200 (ChatDoc existing), d).
Proof.
  intros Hu Ht Hcu Hct Hex. unfold createDirectChat.
  rewrite Hu, Ht, Hcu, Hct, Hex. unfold same_id. by rewrite N.eqb_refl.
Qed.

(** A request for a direct chat that does not exist yet stores one, with
    the requester and the target as its two participants. *)
Lemma createDirectChat_new u t d cu ct co :
  findUser d u = Some cu -> findUser d t = Some ct ->
  company cu = Some co -> company ct = Some co ->
  findDirectChat d u t = None ->
  exists c d',
    createDirectChat u t d = (respond 201 (ChatDoc c), d')
    /\ chats d' = chats d ++ [c]
    /\ chatType c = direct /\ participants c = [u; t]
    /\ (u <> t -> NoDup (participants c)).
Proof.
  intros Hu Ht Hcu Hct Hex. unfold createDirectChat.
  rewrite Hu, Ht, Hcu, Hct, Hex. unfold same_id. rewrite N.eqb_refl. simpl.
  eexists _, _. split; [reflexivity|]. simpl. repeat split.
  intros Hne. apply NoDup_cons. split; [|apply NoDup_singleton].
  by intros ->%list_elem_of_singleton.
Qed.

(** C8, at a failing input. Alice asks for a direct chat with herself
    while she has none: the request answers 201 and stores a direct chat
    whose two participants are both Alice. *)
Theorem createDirectChat_with_oneself :
  let chat :=
    {| chat_id := 100%N; chatType := direct;
       participants := [Scenario.alice; Scenario.alice];
       messages := []; name := ""; admins := [];
       unreadCounts := [ {| unread_user := Scenario.alice; count := 0 |};
                         {| unread_user := Scenario.alice; count := 0 |} ] |} in
  createDirectChat Scenario.alice Scenario.alice Scenario.db_start
    = (respond 201 (ChatDoc chat),
       {| users := Scenario.people; chats := [chat]; notifications := [];
          nextId := 101%N |})
  /\ ~ NoDup (participants chat).
Proof.
  intros chat. split; [reflexivity|].
  intros H. apply NoDup_cons in H as [H _]. apply H. by left.
Qed.

(** ** Presence *)
Lemma presence_of_lookup registry userIds id :
  presence_of registry userIds !! id
  = if decide (id ∈ userIds) then Some (getUserStatus registry id) else None.
Proof.
  unfold presence_of.
  assert (forall acc : gmap N Status,
    foldl (fun info i =>
             <[i := if bool_decide (is_Some (registry !! i))
                    then online else offline]> info) acc userIds !! id
    = if decide (id ∈ userIds) then Some (getUserStatus registry id)
      else acc !! id) as H.
  { induction userIds as [|x l IH]; intros acc; simpl.
    - destruct (decide (id ∈ [])) as [H%elem_of_nil|]; done.
    - rewrite IH. destruct (decide (id ∈ l)) as [Hl|Hl].
      + rewrite decide_True; [done|by right].
      + destruct (decide (x = id)) as [->|Hne].
        * rewrite lookup_insert_eq, decide_True; [done|by left].
        * rewrite lookup_insert_ne by done.
          rewrite decide_False; [done|]. intros [?|?]%elem_of_cons; congruence. }
  rewrite H. by destruct (decide _).
Qed.

(** C9. The presence query answers the asking socket, changes nothing,
    and gives each queried id the status online if and only if the id
    has a socket registered in [userSockets], and offline otherwise;
    ids that were not queried are not in the answer, and the answer is
    the same in every state with the same registry, whatever the durable
    store holds. *)
Theorem presence_from_registry
    (st : Server) (userIds : list UserId) (id : UserId) :
  id ∈ userIds ->
  exists info,
    on_getPresence userIds st = (st, [(ToSender, presenceInfo info)])
    /\ (info !! id = Some online <-> is_Some (userSockets st !! id))
    /\ (info !! id = Some offline <-> userSockets st !! id = None)
    /\ (forall other, other ∉ userIds -> info !! other = None)
    /\ (forall st2, userSockets st2 = userSockets st ->
          (on_getPresence userIds st2).2 = [(ToSender, presenceInfo info)]).
Proof.
  intros Hin. exists (presence_of (userSockets st) userIds).
  split; [reflexivity|].
  rewrite presence_of_lookup, decide_True by done. unfold getUserStatus.
  split; [|split; [|split]].
  - destruct (bool_decide_reflect (is_Some (userSockets st !! id))); naive_solver.
  - destruct (bool_decide_reflect (is_Some (userSockets st !! id))) as [H|H].
    + split; [done|]. intros E. rewrite E in H. by destruct H.
    + split; [|done]. intros _. by apply eq_None_not_Some.
  - intros other Hother. by rewrite presence_of_lookup, decide_False.
  - intros st2 E. unfold on_getPresence. simpl. by rewrite E.
Qed.

Lemma presence_from_registry_witness :
  let st := Scenario.only_alice_online Scenario.db_sent in
  let ids := [Scenario.bob; Scenario.alice] in
  Scenario.alice ∈ ids
  /\ exists info,
       on_getPresence ids st = (st, [(ToSender, presenceInfo info)])
       /\ (info !! Scenario.alice = Some online
           <-> is_Some (userSockets st !! Scenario.alice)).
Proof.
  intros st ids.
  assert (Scenario.alice ∈ ids) as H by (apply includes_id_spec; reflexivity).
  split; [exact H|].
  destruct (presence_from_registry st ids Scenario.alice H) as (info & H1 & H2 & _).
  exists info. split; [exact H1|exact H2].
Defined.

(** A user is online from the connection to the disconnection. *)
Example presence_follows_connections :
  let st0 := {| db := Scenario.db_chat; userSockets := ∅ |} in
  let st1 := (on_connection Scenario.bob 9 st0).1 in
  let st2 := (on_disconnect Scenario.bob st1).1 in
  let ids := [Scenario.alice; Scenario.bob] in
  presence_of (userSockets st0) ids
    = {[ Scenario.alice := offline; Scenario.bob := offline ]}
  /\ presence_of (userSockets st1) ids
    = {[ Scenario.alice := offline; Scenario.bob := online ]}
  /\ presence_of (userSockets st2) ids
    = {[ Scenario.alice := offline; Scenario.bob := offline ]}.
Proof. by vm_compute. Qed.

(** * Further properties *)

(** ** Requests that fail *)

(** X1. A request on the chat routes that is answered with a status of
    400 or more (400, 403, 404, 500) leaves the store exactly as it
    was. *)
Theorem failed_request_changes_nothing (r : Request) (d : DB) :
  (400 <= status (handle r d).1)%N -> (handle r d).2 = d.
Proof.
  handler_cases r; simpl; intros Hs; try done; try lia;
    name_inserted; simpl in Hs; lia.
Qed.

Lemma failed_request_changes_nothing_witness :
  let r := SendMessage 2000 Scenario.carol 100 "hello" [] in
  (400 <= status (handle r Scenario.db_sent).1)%N
  /\ (handle r Scenario.db_sent).2 = Scenario.db_sent.
Proof.
  intros r.
  assert (400 <= status (handle r Scenario.db_sent).1)%N as H
    by (vm_compute; discriminate).
  split; [exact H|].
  exact (failed_request_changes_nothing r Scenario.db_sent H).
Defined.

(** ** The pages of [getMessages] *)
Section sort_by_key.
Context {A : Type} (key : A -> Z).

Lemma insert_sorted_newest_first x l :
  StronglySorted (fun a b => (key b <= key a)%Z) l ->
  StronglySorted (fun a b => (key b <= key a)%Z)
                 (JS.insert_sorted (fun a b => (key b - key a)%Z) x l).
Proof.
  induction l as [|y l IH]; simpl; intros Hl.
  { repeat constructor. }
  apply StronglySorted_cons in Hl as [Hy Hl].
  destruct (Z.leb_spec (key x - key y) 0) as [Hle|Hgt].
  - apply StronglySorted_cons. split; [|auto].
    rewrite insert_sorted_perm. constructor; [lia|done].
  - apply StronglySorted_cons. split.
    + constructor; [lia|]. eapply Forall_impl; [exact Hy|]. simpl. intros; lia.
    + by apply StronglySorted_cons.
Qed.

Lemma sort_newest_first l :
  StronglySorted (fun a b => (key b <= key a)%Z)
                 (JS.sort (fun a b => (key b - key a)%Z) l).
Proof.
  unfold JS.sort.
  assert (forall acc,
            StronglySorted (fun a b => (key b <= key a)%Z) acc ->
            StronglySorted (fun a b => (key b <= key a)%Z)
              (fold_left (fun acc x => JS.insert_sorted (fun a b => (key b - key a)%Z) x acc)
                         l acc)) as H.
  { induction l as [|x l IH]; intros acc Hacc; simpl; [done|].
    apply IH. by apply insert_sorted_newest_first. }
  apply H. constructor.
Qed.
End sort_by_key.

Lemma StronglySorted_rev {A} (R : relation A) l :
  StronglySorted R l -> StronglySorted (flip R) (rev l).
Proof.
  induction 1 as [|x l Hl IH Hx]; simpl; [constructor|].
  apply StronglySorted_app_2; [|done|repeat constructor].
  intros y z Hy ->%list_elem_of_singleton. unfold flip.
  apply list_elem_of_In, in_rev, list_elem_of_In in Hy.
  by apply (proj1 (Forall_forall _ _) Hx).
Qed.

Lemma StronglySorted_slice {A} (R : relation A) l s e :
  StronglySorted R l -> StronglySorted R (JS.slice l s e).
Proof.
  intros H. unfold JS.slice.
  set (k := Z.to_nat (JS.rel_index _ s)). set (n := Z.to_nat _).
  rewrite <- (take_drop k l) in H. apply StronglySorted_app_1_r in H.
  rewrite <- (take_drop n (drop k l)) in H. by apply StronglySorted_app_1_l in H.
Qed.

Lemma slice_length_le {A} (l : list A) s n :
  (0 <= n)%Z ->
  (Z.of_nat (length (JS.slice l s (JS.num_add s (Some n)))) <= n)%Z.
Proof.
  intros Hn. unfold JS.slice. rewrite length_take, length_drop.
  destruct s as [k|]; simpl; [|lia].
  destruct (Z.ltb_spec k 0), (Z.ltb_spec (k + n) 0); lia.
Qed.

Lemma filter_sublist {A} (f : A -> bool) l : List.filter f l `sublist_of` l.
Proof.
  induction l as [|x l IH]; simpl; [constructor|].
  destruct (f x); by constructor.
Qed.

(** X2. When [getMessages] answers 200, the requester is a participant
    of the chat and the page holds messages of the chat only, none more
    often than the chat holds it, none of them deleted for the
    requester, in ascending order of creation; [totalCount] is the number
    of messages of the chat that are not deleted for the requester, and
    a limit that is not negative bounds the length of the page. *)
Theorem getMessages_page
    (userId : UserId) (chatId : ChatId) (page limit : option Z) (d : DB)
    (msgs : list Message) (total : nat) (p l : option Z) :
  (getMessages userId chatId page limit d).1
    = respond 200 (MessagePage msgs total p l) ->
  exists chat,
    findById d chatId = Some chat
    /\ userId ∈ participants chat
    /\ msgs ⊆+ messages chat
    /\ (forall m, m ∈ msgs -> userId ∉ deletedFor m)
    /\ StronglySorted (fun a b => (createdAt a <= createdAt b)%Z) msgs
    /\ total = length (List.filter (visible_to userId) (messages chat))
    /\ (forall n, limit = Some n -> (0 <= n)%Z -> (Z.of_nat (length msgs) <= n)%Z).
Proof.
  unfold getMessages. destruct (findById d chatId) as [chat|]; [|done].
  destruct (includes_id (participants chat) userId) eqn:Hp; [|done]. simpl.
  intros [= <- <- _ _]. exists chat. split; [done|].
  split; [by apply includes_id_spec|].
  set (skip := JS.num_mul (JS.num_sub page (Some 1%Z)) limit).
  set (desc := JS.sort _ _).
  assert (desc ≡ₚ List.filter (visible_to userId) (messages chat)) as Hperm
    by apply sort_perm.
  split; [|split; [|split; [|split]]].
  - rewrite <- Permutation_rev.
    etrans; [apply sublist_submseteq, slice_sublist|].
    fold desc. rewrite Hperm. apply sublist_submseteq, filter_sublist.
  - intros m Hm. apply list_elem_of_In, in_rev, list_elem_of_In in Hm.
    apply (fun H => elem_of_sublist _ _ _ H (slice_sublist _ _ _)) in Hm.
    fold desc in Hm. rewrite Hperm in Hm.
    apply list_elem_of_In, filter_In in Hm as [_ Hm].
    by apply negb_true_iff, includes_id_false in Hm.
  - apply (StronglySorted_rev (fun a b => (createdAt b <= createdAt a)%Z)).
    apply StronglySorted_slice, (sort_newest_first createdAt).
  - by rewrite resetUnreadCount_messages.
  - intros n -> Hn. rewrite length_rev. by apply slice_length_le.
Qed.

Lemma getMessages_page_witness :
  let r := (getMessages Scenario.bob 100 (Some 1%Z) (Some 1%Z) Scenario.db_answered).1 in
  r = respond 200 (MessagePage [Scenario.msg_answer] 2 (Some 1%Z) (Some 1%Z))
  /\ exists chat,
       findById Scenario.db_answered 100 = Some chat
       /\ [Scenario.msg_answer] ⊆+ messages chat
       /\ (Z.of_nat (length [Scenario.msg_answer]) <= 1)%Z.
Proof.
  intros r. assert (r = respond 200 (MessagePage [Scenario.msg_answer] 2 (Some 1%Z) (Some 1%Z)))
    as H by reflexivity.
  split; [exact H|].
  destruct (getMessages_page Scenario.bob 100 (Some 1%Z) (Some 1%Z)
              Scenario.db_answered _ _ _ _ H) as (chat & H1 & _ & H2 & _ & _ & _ & H3).
  exists chat. split; [exact H1|]. split; [exact H2|].
  apply (H3 1%Z); [reflexivity|lia].
Defined.

(** X3. A participant who asks for a page with a page number or a limit
    that is not a number, or with the limit 0, is answered 200 with an
    empty page; [totalCount] still counts the messages that are not
    deleted for the requester. *)
Theorem getMessages_without_page
    (userId : UserId) (chatId : ChatId) (page limit : option Z) (d : DB)
    (chat : Chat) :
  findById d chatId = Some chat ->
  userId ∈ participants chat ->
  page = None \/ limit = None \/ limit = Some 0%Z ->
  (getMessages userId chatId page limit d).1
  = respond 200
      (MessagePage [] (length (List.filter (visible_to userId) (messages chat)))
                   page limit).
Proof.
  intros Hc Hp%includes_id_spec Hq. unfold getMessages. rewrite Hc, Hp. simpl.
  rewrite resetUnreadCount_messages. do 2 f_equal.
  set (l := JS.sort _ _).
  assert (forall s, JS.slice l s (JS.num_add s (Some 0%Z)) = []) as H0.
  { intros s. apply length_zero_iff_nil.
    pose proof (slice_length_le l s 0 ltac:(lia)). lia. }
  destruct Hq as [ -> | [ -> | -> ] ].
  - done.
  - by destruct page.
  - by rewrite H0.
Qed.

Lemma getMessages_without_page_witness :
  findById Scenario.db_answered 100 = Some Cases.chat_answered
  /\ Scenario.bob ∈ participants Cases.chat_answered
  /\ (getMessages Scenario.bob 100 None (Some 50%Z) Scenario.db_answered).1
     = respond 200 (MessagePage [] 2 None (Some 50%Z)).
Proof.
  assert (Scenario.bob ∈ participants Cases.chat_answered) as H
    by (apply includes_id_spec; reflexivity).
  split; [reflexivity|]. split; [exact H|].
  exact (getMessages_without_page Scenario.bob 100 None (Some 50%Z)
           Scenario.db_answered Cases.chat_answered eq_refl H (or_introl eq_refl)).
Defined.

Lemma slice_take_drop {A} (l : list A) (a b : nat) :
  JS.slice l (Some (Z.of_nat a)) (Some (Z.of_nat a + Z.of_nat b)%Z)
  = take b (drop a l).
Proof.
  unfold JS.slice, JS.rel_index.
  destruct (Z.ltb_spec (Z.of_nat a) 0); [lia|].
  destruct (Z.ltb_spec (Z.of_nat a + Z.of_nat b) 0); [lia|].
  destruct (decide (a <= length l)) as [Ha|Ha].
  - replace (Z.to_nat (Z.min (Z.of_nat a) (Z.of_nat (length l)))) with a by lia.
    destruct (decide (a + b <= length l)) as [Hb|Hb].
    + f_equal. lia.
    + rewrite !take_ge; [done| |]; rewrite length_drop; lia.
  - rewrite !drop_ge by lia. by rewrite !take_nil.
Qed.

Lemma concat_chunks {A} (L N : nat) (l : list A) :
  length l <= N * L ->
  concat (map (fun i => take L (drop (i * L) l)) (seq 0 N)) = l.
Proof.
  revert l. induction N as [|N IH]; intros l Hl; simpl.
  { symmetry. apply length_zero_iff_nil. lia. }
  rewrite <- seq_shift, map_map.
  transitivity (take L l ++ drop L l); [|apply take_drop]. f_equal.
  etrans; [|apply (IH (drop L l)); rewrite length_drop; lia].
  f_equal. apply map_ext. intros i. by rewrite drop_drop.
Qed.

(** X4. With the limit [L], the pages 1, 2, ..., [N] of a participant,
    each read backwards, make up the messages of the chat that are not
    deleted for the participant, the newest first, as soon as [N] pages
    of [L] messages have room for them all: every such message is on
    exactly one page. *)
Theorem getMessages_pages_cover
    (userId : UserId) (chatId : ChatId) (L N : nat) (d : DB) (chat : Chat) :
  findById d chatId = Some chat ->
  userId ∈ participants chat ->
  length (newest_first userId chat) <= N * L ->
  concat
    (map (fun p =>
            rev (page_messages
                   (getMessages userId chatId (Some (Z.of_nat p))
                                (Some (Z.of_nat L)) d).1))
         (seq 1 N))
  = newest_first userId chat.
Proof.
  intros Hc Hp%includes_id_spec Hlen.
  etrans; [|apply (concat_chunks L N (newest_first userId chat) Hlen)].
  rewrite <- seq_shift, map_map. f_equal. apply map_ext. intros i.
  unfold getMessages. rewrite Hc, Hp. cbn [negb fst page_messages body respond].
  rewrite rev_involutive. fold (newest_first userId chat).
  cbn [JS.num_mul JS.num_sub JS.num_add].
  replace ((Z.of_nat (S i) - 1) * Z.of_nat L)%Z with (Z.of_nat (i * L)) by lia.
  apply slice_take_drop.
Qed.

Lemma getMessages_pages_cover_witness :
  length (newest_first Scenario.bob Cases.chat_answered) <= 2 * 1
  /\ concat
       (map (fun p =>
               rev (page_messages
                      (getMessages Scenario.bob 100 (Some (Z.of_nat p))
                                   (Some (Z.of_nat 1)) Scenario.db_answered).1))
            (seq 1 2))
     = newest_first Scenario.bob Cases.chat_answered.
Proof.
  assert (length (newest_first Scenario.bob Cases.chat_answered) <= 2 * 1) as H
    by (vm_compute; lia).
  split; [exact H|].
  apply (getMessages_pages_cover Scenario.bob 100 1 2 Scenario.db_answered
           Cases.chat_answered); [reflexivity| |exact H].
  apply includes_id_spec. reflexivity.
Defined.

(** ** Deleting and editing a message *)
Lemma save_update_again g c d cid mid m :
  findById d cid = Some c -> message_by_id c mid = Some m ->
  (forall x, msg_id (g x) = msg_id x) -> g (g m) = g m ->
  let c1 := update_message mid g c in
  let d1 := save c1 d in
  findById d1 cid = Some c1
  /\ message_by_id c1 mid = Some (g m)
  /\ lookup_message d1 cid mid = Some (g m)
  /\ save (update_message mid g c1) d1 = d1.
Proof.
  intros Hc Hm Hid Hgg c1 d1.
  assert (findById d1 cid = Some c1) as Hc1
    by (by apply (findById_save_same c)).
  assert (message_by_id c1 mid = Some (g m)) as Hm1.
  { unfold c1. rewrite message_by_id_update by done. rewrite Hm. simpl.
    by destruct (decide (mid = mid)). }
  split; [done|]. split; [done|]. split.
  { unfold lookup_message. rewrite Hc1. simpl. exact Hm1. }
  assert (update_message mid g c1 = c1) as ->.
  { unfold c1, update_message, set_messages. simpl. f_equal.
    by apply (update_first_found _ _ _ (g m)). }
  apply save_found. unfold c1. simpl. by rewrite (findById_chat_id _ _ _ Hc).
Qed.

Lemma delete_for_again u m : delete_for u (delete_for u m) = delete_for u m.
Proof.
  unfold delete_for. destruct (includes_id (deletedFor m) u) eqn:E; simpl.
  - by rewrite E.
  - assert (includes_id (deletedFor m ++ [u]) u = true) as ->; [|done].
    apply includes_id_spec, elem_of_app. right. by left.
Qed.

Lemma delete_for_members u m v :
  v ∈ deletedFor (delete_for u m) <-> v = u \/ v ∈ deletedFor m.
Proof.
  unfold delete_for. destruct (includes_id (deletedFor m) u) eqn:E; simpl.
  - apply includes_id_spec in E. split; [by right|]. by intros [->|].
  - rewrite elem_of_app, list_elem_of_singleton. tauto.
Qed.

Lemma deleted_not_on_page u cid page limit d x :
  u ∈ deletedFor x -> x ∉ page_messages (getMessages u cid page limit d).1.
Proof.
  intros Hu Hin.
  destruct (getMessages u cid page limit d).1
    as [code [| | | |msgs total p l| |]] eqn:E; simpl in Hin;
    try by apply elem_of_nil in Hin.
  unfold page_messages in Hin. simpl in Hin.
  assert (code = 200%N) as ->.
  { revert E. unfold getMessages, respond. repeat case_match; simpl; congruence. }
  by destruct (getMessages_hides_deleted _ _ _ _ _ _ _ _ _ E _ Hin) as [Hno _].
Qed.

(** X5. Any user may delete a stored message for themselves: the
    request answers 200 and puts the user into [deletedFor] of the
    message, and nobody else; the content, the attachments, [isDeleted]
    and every other field of the message are as before, and repeating
    the request changes nothing.  From then on, whatever requests and
    socket events follow, the message is stored with the user in its
    [deletedFor], and no page of [getMessages] for that user holds it. *)
Theorem deleteMessage_for_oneself
    (userId : UserId) (chatId : ChatId) (messageId : MessageId) (d : DB)
    (chat : Chat) (m : Message) :
  findById d chatId = Some chat ->
  message_by_id chat messageId = Some m ->
  let r := deleteMessage userId chatId messageId false d in
  exists m',
    r.1 = respond 200 (Deleted "Message deleted successfully" false)
    /\ lookup_message r.2 chatId messageId = Some m'
    /\ (forall v, v ∈ deletedFor m' <-> v = userId \/ v ∈ deletedFor m)
    /\ (msg_id m', sender m', content m', attachments m', reactions m',
        readBy m', deliveredTo m', isDeleted m', replyTo m', edited m',
        editHistory m', createdAt m')
       = (msg_id m, sender m, content m, attachments m, reactions m,
          readBy m, deliveredTo m, isDeleted m, replyTo m, edited m,
          editHistory m, createdAt m)
    /\ deleteMessage userId chatId messageId false r.2 = r
    /\ (forall (registry : gmap UserId SocketId) (actions : list Action),
          let later := run {| db := r.2; userSockets := registry |} actions in
          exists m'',
            lookup_message (db later) chatId messageId = Some m''
            /\ userId ∈ deletedFor m''
            /\ forall page limit,
                 m'' ∉ page_messages
                         (getMessages userId chatId page limit (db later)).1).
Proof.
  intros Hc Hm r.
  assert (forall x, msg_id (delete_for userId x) = msg_id x) as Hid.
  { intros x. unfold delete_for. by destruct (negb _). }
  destruct (save_update_again (delete_for userId) chat d chatId messageId m
              Hc Hm Hid (delete_for_again _ _)) as (Hc1 & Hm1 & Hl & Hagain).
  assert (r = (respond 200 (Deleted "Message deleted successfully" false),
               save (update_message messageId (delete_for userId) chat) d)) as Hr.
  { unfold r, deleteMessage. by rewrite Hc, Hm. }
  exists (delete_for userId m). rewrite Hr. cbn [fst snd].
  split; [done|]. split; [done|].
  split; [apply delete_for_members|].
  split; [unfold delete_for; by destruct (negb _)|].
  split.
  - unfold deleteMessage. rewrite Hc1, Hm1. simpl. by rewrite Hagain.
  - intros registry actions.
    destruct (run_evolves actions
                {| db := save (update_message messageId (delete_for userId) chat) d;
                   userSockets := registry |} _ _ _ Hl) as (m'' & Hm'' & Hev).
    exists m''. split; [exact Hm''|].
    assert (userId ∈ deletedFor m'') as Hin.
    { apply (evolves_deletedFor _ _ Hev), delete_for_members. by left. }
    split; [exact Hin|]. intros page limit. by apply deleted_not_on_page.
Qed.

Lemma deleteMessage_for_oneself_witness :
  let r := deleteMessage Scenario.alice 100 101 false Scenario.db_sent in
  let later :=
    run (Cases.quiet r.2)
        [ Http (EditMessage 3000 Scenario.bob 100 101 "Annual Report");
          Ws Scenario.bob (EvAddReaction 100 101 "eyes") ] in
  findById Scenario.db_sent 100 = Some Scenario.chat_sent
  /\ message_by_id Scenario.chat_sent 101 = Some Scenario.msg_report
  /\ (exists m',
        lookup_message r.2 100 101 = Some m'
        /\ (forall v, v ∈ deletedFor m'
                      <-> v = Scenario.alice \/ v ∈ deletedFor Scenario.msg_report)
        /\ attachments m' = attachments Scenario.msg_report)
  /\ (exists m'',
        lookup_message (db later) 100 101 = Some m''
        /\ m'' ∉ page_messages
                   (getMessages Scenario.alice 100 (Some 1%Z) (Some 50%Z)
                                (db later)).1).
Proof.
  intros r later. split; [reflexivity|]. split; [reflexivity|].
  destruct (deleteMessage_for_oneself Scenario.alice 100 101 Scenario.db_sent
              Scenario.chat_sent Scenario.msg_report eq_refl eq_refl)
    as (m' & _ & H1 & H2 & H3 & _ & H4).
  split.
  - exists m'. split; [exact H1|]. split; [exact H2|]. by injection H3.
  - destruct (H4 ∅ [ Http (EditMessage 3000 Scenario.bob 100 101 "Annual Report");
                     Ws Scenario.bob (EvAddReaction 100 101 "eyes") ])
      as (m'' & H5 & _ & H6).
    exists m''. split; [exact H5|exact (H6 (Some 1%Z) (Some 50%Z))].
Defined.

(** X6. Of a stored message, only the sender may ask the HTTP route to
    delete it for everyone: anyone else is answered 403 and nothing
    changes.  For the sender the request answers 200; the message stays
    stored with [isDeleted] set, the placeholder as content and no
    attachment, whatever they were, its reactions and receipts are kept,
    and repeating the request changes nothing. *)
Theorem deleteMessage_for_everyone_by_sender
    (chatId : ChatId) (messageId : MessageId) (d : DB) (chat : Chat) (m : Message) :
  findById d chatId = Some chat ->
  message_by_id chat messageId = Some m ->
  (forall v, v <> sender m ->
     deleteMessage v chatId messageId true d
     = (respond 403 (Msg "Only the sender can delete for everyone"), d))
  /\ let r := deleteMessage (sender m) chatId messageId true d in
     exists m',
       r.1 = respond 200 (Deleted "Message deleted successfully" true)
       /\ lookup_message r.2 chatId messageId = Some m'
       /\ isDeleted m' = true
       /\ content m' = "This message was deleted"%string
       /\ attachments m' = []
       /\ reactions m' = reactions m /\ readBy m' = readBy m
       /\ sender m' = sender m
       /\ deleteMessage (sender m) chatId messageId true r.2 = r.
Proof.
  intros Hc Hm. split.
  - intros v Hv. apply (deleteMessage_not_sender v chatId messageId d chat m); auto.
  - intros r.
    destruct (deleteMessage_for_everyone (sender m) chatId messageId d chat m
                Hc Hm eq_refl) as (H1 & H2 & H3).
    exists (tombstone m). by repeat split.
Qed.

Lemma deleteMessage_for_everyone_by_sender_witness :
  findById Scenario.db_sent 100 = Some Scenario.chat_sent
  /\ message_by_id Scenario.chat_sent 101 = Some Scenario.msg_report
  /\ deleteMessage Scenario.alice 100 101 true Scenario.db_sent
     = (respond 403 (Msg "Only the sender can delete for everyone"), Scenario.db_sent).
Proof.
  split; [reflexivity|]. split; [reflexivity|].
  destruct (deleteMessage_for_everyone_by_sender 100 101 Scenario.db_sent
              Scenario.chat_sent Scenario.msg_report eq_refl eq_refl) as [H _].
  apply (H Scenario.alice). discriminate.
Defined.

(** X7. Of a stored message, only the sender may edit it: anyone else is
    answered 403 and nothing changes, and an empty new content fails with
    500 and changes nothing.  For the sender with a new content the
    request answers 200 with the edited message: the content is the new
    one, [edited] is set, the edit history is longer by exactly the
    previous content with the time of the edit, and everything else of
    the message is as before, [isDeleted] included (so the sender can
    replace the placeholder of a message deleted for everyone); no other
    message changes. *)
Theorem editMessage_by_sender
    (now : Time) (chatId : ChatId) (messageId : MessageId) (text : string)
    (d : DB) (chat : Chat) (m : Message) :
  findById d chatId = Some chat ->
  message_by_id chat messageId = Some m ->
  (forall v, v <> sender m ->
     editMessage now v chatId messageId text d
     = (respond 403 (Msg "Not authorized to edit this message"), d))
  /\ (JS.truthy text = false ->
      editMessage now (sender m) chatId messageId text d = (server_error, d))
  /\ (JS.truthy text = true ->
      let r := editMessage now (sender m) chatId messageId text d in
      exists m',
        r.1 = respond 200 (MessageDoc m')
        /\ lookup_message r.2 chatId messageId = Some m'
        /\ content m' = text /\ edited m' = true
        /\ editHistory m'
           = editHistory m ++ [{| previous_content := content m; editedAt := now |}]
        /\ (msg_id m', sender m', attachments m', reactions m', readBy m',
            deliveredTo m', isDeleted m', deletedFor m', replyTo m', createdAt m')
           = (msg_id m, sender m, attachments m, reactions m, readBy m,
              deliveredTo m, isDeleted m, deletedFor m, replyTo m, createdAt m)
        /\ (forall c' i, (c', i) <> (chatId, messageId) ->
              lookup_message r.2 c' i = lookup_message d c' i)).
Proof.
  intros Hc Hm. split; [|split].
  - intros v Hv. by apply (editMessage_forbidden now v chatId messageId text d chat m).
  - intros Ht. unfold editMessage. rewrite Hc, Hm. unfold same_id.
    by rewrite N.eqb_refl, Ht.
  - intros Ht r.
    assert (r = (respond 200 (MessageDoc (edit now text m)),
                 save (update_message messageId (edit now text) chat) d)) as ->.
    { unfold r, editMessage. rewrite Hc, Hm. unfold same_id.
      by rewrite N.eqb_refl, Ht. }
    exists (edit now text m). simpl.
    assert (forall c' i,
              lookup_message (save (update_message messageId (edit now text) chat) d) c' i
              = (if decide (chatId = c' /\ messageId = i) then edit now text else id)
                <$> lookup_message d c' i) as Hl.
    { intros c' i. by apply lookup_message_save_update. }
    split; [done|]. split.
    { rewrite Hl. unfold lookup_message at 1. rewrite Hc. simpl. rewrite Hm. simpl.
      destruct (decide _) as [|Hn]; [done|by destruct Hn]. }
    repeat (split; [done|]).
    intros c' i Hne. rewrite Hl.
    destruct (decide _) as [[-> ->]|]; [done|apply option_fmap_id].
Qed.

Lemma editMessage_by_sender_witness :
  findById Scenario.db_sent 100 = Some Scenario.chat_sent
  /\ message_by_id Scenario.chat_sent 101 = Some Scenario.msg_report
  /\ JS.truthy "Annual Report" = true
  /\ exists m',
       (editMessage 3000 Scenario.bob 100 101 "Annual Report" Scenario.db_sent).1
       = respond 200 (MessageDoc m')
       /\ content m' = "Annual Report"%string
       /\ editHistory m'
          = [{| previous_content := "Quarterly Report"; editedAt := 3000 |}].
Proof.
  split; [reflexivity|]. split; [reflexivity|]. split; [reflexivity|].
  destruct (editMessage_by_sender 3000 100 101 "Annual Report" Scenario.db_sent
              Scenario.chat_sent Scenario.msg_report eq_refl eq_refl)
    as (_ & _ & H).
  destruct (H eq_refl) as (m' & H1 & _ & H2 & _ & H3 & _).
  exists m'. split; [exact H1|]. split; [exact H2|exact H3].
Defined.

(** ** Marking a chat as read *)
Lemma resetUnreadCount_entry c u :
  exists i,
    find (fun item => same_id (unread_user item) u)
         (unreadCounts (resetUnreadCount c u)) = Some i
    /\ count i = 0%Z.
Proof.
  unfold resetUnreadCount.
  destruct (find _ (unreadCounts c)) as [i|] eqn:E; simpl.
  - rewrite (find_update_first_key unread_user) by done. rewrite E. simpl.
    destruct (decide (u = u)); [|done]. eauto.
  - exists {| unread_user := u; count := 0 |}. split; [|done].
    induction (unreadCounts c) as [|x l IH]; simpl in *.
    + unfold same_id. by rewrite N.eqb_refl.
    + destruct (same_id (unread_user x) u); [done|auto].
Qed.

Lemma mapM_mark_read_again now u ms :
  Forall (fun m => read_by u (readBy m) = Some true) ms ->
  mapM (mark_read now u) ms = Some ms.
Proof.
  induction 1 as [|m ms Hm _ IH]; simpl; [done|].
  by rewrite (mark_read_again _ _ _ Hm), IH.
Qed.

(** X8. When [markMessagesAsRead] answers 200, the requester is a
    participant of the chat, the unread counter of the requester is 0 and
    the counters of the others are as before; the chat holds the same
    messages, each of them now read by the requester; and asking again,
    at any time, is answered in the same way and changes nothing. *)
Theorem markMessagesAsRead_done
    (now : Time) (userId : UserId) (chatId : ChatId) (d : DB) :
  status (markMessagesAsRead now userId chatId d).1 = 200%N ->
  let r := markMessagesAsRead now userId chatId d in
  exists chat chat',
    findById d chatId = Some chat
    /\ userId ∈ participants chat
    /\ findById r.2 chatId = Some chat'
    /\ getUnreadCount chat' userId = 0%Z
    /\ (forall v, v <> userId -> getUnreadCount chat' v = getUnreadCount chat v)
    /\ map msg_id (messages chat') = map msg_id (messages chat)
    /\ Forall (fun m' => read_by userId (readBy m') = Some true) (messages chat')
    /\ (forall later, markMessagesAsRead later userId chatId r.2 = r).
Proof.
  intros H200 r. revert H200. unfold r, markMessagesAsRead.
  destruct (findById d chatId) as [chat|] eqn:Hc; [|done].
  destruct (includes_id (participants chat) userId) eqn:Hp; [|done]. simpl.
  destruct (mapM _ _) as [ms|] eqn:HM; [|done]. simpl. intros _.
  set (chat0 := resetUnreadCount chat userId) in *.
  set (chat1 := set_messages ms chat0).
  assert (chat_id chat1 = chat_id chat) as Hid
    by apply resetUnreadCount_chat_id.
  assert (findById (save chat1 d) chatId = Some chat1) as Hc1
    by (by apply (findById_save_same chat)).
  assert (Forall (fun m' => read_by userId (readBy m') = Some true) ms) as Hread.
  { apply mapM_Some in HM. clear -HM.
    induction HM as [|x y l k Hxy _ IH]; constructor; eauto using mark_read_read. }
  exists chat, chat1. split; [done|]. split; [by apply includes_id_spec|].
  split; [done|].
  split; [apply getUnreadCount_reset_same|].
  split; [intros v Hv; by apply getUnreadCount_reset_other|].
  split.
  { simpl. apply mapM_Some in HM. unfold chat0 in HM.
    rewrite resetUnreadCount_messages in HM. clear -HM.
    induction HM as [|x y l k Hxy _ IH]; simpl; [done|]. f_equal; [|done].
    by destruct (evolves_mark_read _ _ _ _ Hxy). }
  split; [done|].
  intros later. rewrite Hc1.
  assert (participants chat1 = participants chat) as ->
    by apply resetUnreadCount_participants.
  rewrite Hp. simpl.
  assert (resetUnreadCount chat1 userId = chat1) as ->.
  { destruct (resetUnreadCount_entry chat userId) as (i & Hi & H0).
    fold chat0 in Hi. unfold resetUnreadCount. simpl. rewrite Hi.
    unfold set_unreadCounts, chat1, set_messages. simpl. f_equal.
    apply (update_first_found _ _ _ i); [done|]. destruct i. simpl in *. by subst. }
  simpl. rewrite (mapM_mark_read_again _ _ _ Hread).
  f_equal. apply save_found.
  change (set_messages ms chat1) with chat1.
  by rewrite Hid, (findById_chat_id _ _ _ Hc).
Qed.

Lemma markMessagesAsRead_done_witness :
  let r := markMessagesAsRead 3000 Scenario.alice 100 Scenario.db_sent in
  status r.1 = 200%N
  /\ exists chat',
       findById r.2 100 = Some chat'
       /\ getUnreadCount chat' Scenario.alice = 0%Z
       /\ (forall later, markMessagesAsRead later Scenario.alice 100 r.2 = r).
Proof.
  intros r. assert (status r.1 = 200%N) as H by reflexivity.
  split; [exact H|].
  destruct (markMessagesAsRead_done 3000 Scenario.alice 100 Scenario.db_sent H)
    as (chat & chat' & _ & _ & H1 & H2 & _ & _ & _ & H3).
  exists chat'. split; [exact H1|]. split; [exact H2|exact H3].
Defined.

(** ** Chats and their members, over time *)
Lemma unique_ids_elem seen ids x :
  x ∈ unique_ids seen ids <-> x ∈ ids /\ x ∉ seen.
Proof.
  revert seen. induction ids as [|y ids IH]; intros seen; simpl.
  - split; [by intros ?%elem_of_nil|by intros [?%elem_of_nil _]].
  - destruct (includes_id seen y) eqn:E.
    + apply includes_id_spec in E. rewrite IH, elem_of_cons.
      split; [tauto|]. intros [[->|?] ?]; [done|tauto].
    + apply includes_id_false in E. rewrite !elem_of_cons, IH, elem_of_cons.
      split.
      * intros [->|[? ?]]; tauto.
      * intros [[->|?] ?]; [by left|].
        destruct (decide (x = y)) as [->|]; [by left|right; tauto].
Qed.

Lemma unique_ids_NoDup seen ids : NoDup (unique_ids seen ids).
Proof.
  revert seen. induction ids as [|y ids IH]; intros seen; simpl; [constructor|].
  destruct (includes_id seen y); [done|]. constructor; [|done].
  rewrite unique_ids_elem, elem_of_cons. tauto.
Qed.

Lemma replies_ok_empty c : messages c = [] -> replies_ok c.
Proof. unfold replies_ok, message_refs. intros -> i r H. by apply elem_of_nil in H. Qed.

Lemma chat_grows_refl c : chat_grows c c.
Proof.
  split; [done|]. exists []. split; [by rewrite app_nil_r|].
  intros i r H. by apply elem_of_nil in H.
Qed.

Lemma chat_grows_trans c1 c2 c3 :
  chat_grows c1 c2 -> chat_grows c2 c3 -> chat_grows c1 c3.
Proof.
  intros [S1 (n1 & E1 & H1)] [S2 (n2 & E2 & H2)]. split; [congruence|].
  exists (n1 ++ n2). split; [by rewrite E2, E1, app_assoc|].
  intros i r [H|H]%elem_of_app; [|eauto].
  apply H1 in H. rewrite E2, fmap_app, elem_of_app. by left.
Qed.

Lemma chat_grows_ok c c' : chat_grows c c' -> chat_ok c -> chat_ok c'.
Proof.
  intros [S (n & E & Hn)] (Hr & Hg & Hd).
  unfold chat_static in S. injection S as Hid Hty Hps Had Hna.
  split; [|split].
  - intros i r H. rewrite E in H. apply elem_of_app in H as [H|H]; [|eauto].
    apply Hr in H. rewrite E, fmap_app, elem_of_app. by left.
  - unfold group_ok. rewrite Hty, Hps, Had. exact Hg.
  - unfold direct_ok. rewrite Hty, Hps, Had. exact Hd.
Qed.

Lemma message_refs_update_message mid f c :
  (forall m, msg_id (f m) = msg_id m /\ replyTo (f m) = replyTo m) ->
  message_refs (update_message mid f c) = message_refs c.
Proof.
  intros Hf. unfold message_refs, update_message. simpl.
  induction (messages c) as [|m l IH]; simpl; [done|].
  destruct (same_id (msg_id m) mid); simpl; [|by rewrite IH].
  by destruct (Hf m) as [-> ->].
Qed.

Lemma chat_grows_update_message mid f c :
  (forall m, msg_id (f m) = msg_id m /\ replyTo (f m) = replyTo m) ->
  chat_grows c (update_message mid f c).
Proof.
  intros Hf. split; [done|]. exists [].
  rewrite message_refs_update_message by done.
  split; [by rewrite app_nil_r|]. intros i r H. by apply elem_of_nil in H.
Qed.

Lemma chat_grows_set_unreadCounts c ucs : chat_grows c (set_unreadCounts ucs c).
Proof.
  split; [done|]. exists []. split; [by rewrite app_nil_r|].
  intros i r H. by apply elem_of_nil in H.
Qed.

Lemma chat_grows_reset c u : chat_grows c (resetUnreadCount c u).
Proof.
  unfold resetUnreadCount. destruct (find _ _); apply chat_grows_set_unreadCounts.
Qed.

Lemma chat_grows_push c ucs m :
  (forall r, replyTo m = Some r -> is_Some (message_by_id c r)) ->
  chat_grows c (set_unreadCounts ucs (set_messages (messages c ++ [m]) c)).
Proof.
  intros Hr. split; [done|]. exists [(msg_id m, replyTo m)].
  unfold message_refs at 1 3. simpl. rewrite map_app. split; [done|].
  intros i r [= -> Hm]%list_elem_of_singleton. symmetry in Hm.
  destruct (Hr r Hm) as [m0 H0].
  apply (find_key_Some msg_id) in H0 as [<- H0].
  rewrite fmap_app, elem_of_app. left.
  apply list_elem_of_fmap. exists (msg_id m0, replyTo m0). split; [done|].
  apply list_elem_of_fmap. by exists m0.
Qed.

Lemma chat_grows_marked now u c ms :
  mapM (mark_read now u) (messages c) = Some ms ->
  chat_grows c (set_messages ms c).
Proof.
  intros HM. split; [done|]. exists []. rewrite app_nil_r.
  split; [|intros i r H; by apply elem_of_nil in H].
  unfold message_refs. simpl. apply mapM_Some in HM.
  induction HM as [|x y l k Hxy _ IH]; simpl; [done|]. f_equal; [|done].
  unfold mark_read in Hxy. destruct (read_by u (readBy x)) as [[]|]; simpl in Hxy;
    [| |done]; by injection Hxy as <-.
Qed.

Lemma store_grows_refl d : store_grows d d.
Proof.
  exists (chats d), []. split; [by rewrite app_nil_r|].
  split; [|done]. apply Forall2_same_length_lookup_2; [done|].
  intros i x y Hx Hy. rewrite Hx in Hy. injection Hy as <-. apply chat_grows_refl.
Qed.

Lemma Forall2_chat_grows_update_first p f (l : list Chat) :
  (forall c, c ∈ l -> chat_grows c (f c)) ->
  Forall2 chat_grows l (JS.update_first p f l).
Proof.
  induction l as [|x l IH]; intros Hf; simpl; [constructor|].
  destruct (p x).
  - constructor; [apply Hf; by left|].
    apply Forall2_same_length_lookup_2; [done|].
    intros i a b Ha Hb. rewrite Ha in Hb. injection Hb as <-. apply chat_grows_refl.
  - constructor; [apply chat_grows_refl|]. apply IH. intros c Hc. apply Hf. by right.
Qed.

Lemma store_grows_save c c' k d :
  findById d k = Some c -> chat_grows c c' -> store_grows d (save c' d).
Proof.
  intros Hc Hg. exists (chats (save c' d)), []. split; [by rewrite app_nil_r|].
  split; [|done]. simpl.
  assert (chat_id c' = k) as ->.
  { destruct Hg as [S _]. unfold chat_static in S. injection S as -> _ _ _ _.
    by apply findById_chat_id in Hc. }
  unfold findById in Hc. induction (chats d) as [|x l IH]; simpl in *; [done|].
  destruct (same_id (chat_id x) k).
  - injection Hc as ->. constructor; [done|].
    apply Forall2_same_length_lookup_2; [done|].
    intros i a b Ha Hb. rewrite Ha in Hb. injection Hb as <-. apply chat_grows_refl.
  - constructor; [apply chat_grows_refl|auto].
Qed.

Lemma store_grows_take_id d d' : store_grows d d' -> store_grows d (take_id d').
Proof. done. Qed.

Lemma store_grows_insert mk d :
  chat_ok (mk (nextId d)) -> store_grows d (insert_chat mk d).2.
Proof.
  intros H. exists (chats d), [mk (nextId d)]. split; [done|].
  split; [|by constructor].
  destruct (store_grows_refl d) as (k & n & E & HF & Hn).
  apply Forall2_same_length_lookup_2; [done|].
  intros i a b Ha Hb. rewrite Ha in Hb. injection Hb as <-. apply chat_grows_refl.
Qed.

Lemma store_grows_updateOne cid mid f d :
  (forall m, msg_id (f m) = msg_id m /\ replyTo (f m) = replyTo m) ->
  store_grows d (updateOne cid mid f d).
Proof.
  intros Hf. exists (chats (updateOne cid mid f d)), [].
  split; [by rewrite app_nil_r|]. split; [|done]. simpl.
  apply Forall2_chat_grows_update_first. intros c _.
  by apply chat_grows_update_message.
Qed.

Lemma store_grows_trans d1 d2 d3 :
  store_grows d1 d2 -> store_grows d2 d3 -> store_grows d1 d3.
Proof.
  intros (k1 & n1 & E1 & F1 & N1) (k2 & n2 & E2 & F2 & N2).
  rewrite E1 in F2. apply Forall2_app_inv_l in F2 as (k2a & k2b & Fa & Fb & ->).
  exists k2a, (k2b ++ n2). split; [by rewrite E2, app_assoc|]. split.
  - clear -F1 Fa. revert k2a Fa.
    induction F1 as [|x y l k Hxy _ IH]; intros k2a Fa.
    + by apply Forall2_nil_inv_l in Fa as ->.
    + apply Forall2_cons_inv_l in Fa as (z & k' & Hyz & Fa & ->).
      constructor; [by apply (chat_grows_trans x y z)|auto].
  - apply Forall_app. split; [|done]. clear -N1 Fb.
    induction Fb as [|x y l k Hxy _ IH]; [done|].
    apply Forall_cons in N1 as [Hx Hl].
    constructor; [by apply (chat_grows_ok x y)|auto].
Qed.

Lemma handle_grows r d : store_grows d (handle r d).2.
Proof.
  handler_cases r; simpl; try apply store_grows_refl;
    try (name_inserted; apply store_grows_insert);
    try apply store_grows_take_id;
    try (eapply store_grows_save; [eassumption|]).
  all: try (apply chat_grows_update_message; intros m0;
            unfold edit, tombstone, delete_for, react, unreact;
            by repeat case_match).
  all: try apply chat_grows_reset.
  - split; [by apply replies_ok_empty|]. by split.
  - split; [by apply replies_ok_empty|]. split; [|done].
    intros _. cbn [admins participants].
    split; [done|]. split; [|apply unique_ids_NoDup].
    intros x ->%list_elem_of_singleton. simpl. by left.
  - apply chat_grows_push. by intros r.
  - apply chat_grows_push. simpl. intros r [= <-]. by eexists.
  - apply (chat_grows_trans _ (resetUnreadCount c userId));
      [apply chat_grows_reset|]. by eapply chat_grows_marked.
Qed.

Lemma on_grows u e st : store_grows (db st) (db (on u e st).1).
Proof.
  destruct e; cbn [on]; try apply store_grows_refl.
  - unfold on_sendMessage. repeat case_match; apply store_grows_refl.
  - unfold on_messageRead. case_match; simpl; by apply store_grows_updateOne.
  - unfold on_addReaction. simpl.
    eapply store_grows_trans; by apply store_grows_updateOne.
  - unfold on_removeReaction. simpl. by apply store_grows_updateOne.
  - unfold on_deleteMessage. repeat case_match; simpl;
      try apply store_grows_refl; by apply store_grows_updateOne.
Qed.

Lemma run_grows st actions : store_grows (db st) (db (run st actions)).
Proof.
  revert st. induction actions as [|a actions IH]; intros st; simpl;
    [apply store_grows_refl|].
  eapply store_grows_trans; [|apply IH].
  destruct a; simpl; [apply handle_grows|apply on_grows].
Qed.

Lemma store_grows_findById d d' k c :
  store_grows d d' -> findById d k = Some c ->
  exists c', findById d' k = Some c' /\ chat_grows c c'.
Proof.
  intros (kept & new & E & F & _) Hc. unfold findById in *. rewrite E.
  clear E. induction F as [|x y l l' Hxy _ IH]; simpl in *; [done|].
  assert (chat_id y = chat_id x) as ->.
  { destruct Hxy as [S _]. unfold chat_static in S. by injection S. }
  destruct (same_id (chat_id x) k); [|auto].
  injection Hc as <-. eauto.
Qed.

Lemma store_grows_ok d d' :
  store_grows d d' -> Forall chat_ok (chats d) -> Forall chat_ok (chats d').
Proof.
  intros (kept & new & E & F & N) H. rewrite E. apply Forall_app. split; [|done].
  clear E N. induction F as [|x y l l' Hxy _ IH]; [done|].
  apply Forall_cons in H as [Hx Hl].
  constructor; [by apply (chat_grows_ok x y)|auto].
Qed.

Lemma chat_grows_replies_ok c c' : chat_grows c c' -> replies_ok c -> replies_ok c'.
Proof.
  intros [_ (n & E & Hn)] Hr i r H. rewrite E in H.
  apply elem_of_app in H as [H|H]; [|eauto].
  apply Hr in H. rewrite E, fmap_app, elem_of_app. by left.
Qed.

Lemma chat_grows_members c c' :
  chat_grows c c' -> group_ok c /\ direct_ok c -> group_ok c' /\ direct_ok c'.
Proof.
  intros [S _] [Hg Hd]. unfold chat_static in S. injection S as _ Hty Hps Had _.
  unfold group_ok, direct_ok. by rewrite Hty, Hps, Had.
Qed.

Lemma store_grows_Forall (P : Chat -> Prop) d d' :
  (forall c c', chat_grows c c' -> P c -> P c') ->
  (forall c, chat_ok c -> P c) ->
  store_grows d d' -> Forall P (chats d) -> Forall P (chats d').
Proof.
  intros Hstep Hnew (kept & new & E & F & N) H. rewrite E. apply Forall_app. split.
  - clear E N. induction F as [|x y l l' Hxy _ IH]; [done|].
    apply Forall_cons in H as [Hx Hl]. constructor; eauto.
  - eapply Forall_impl; [exact N|]. auto.
Qed.

Lemma find_key_is_Some {A} (key : A -> N) (l : list A) (x : A) :
  x ∈ l -> is_Some (find (fun y => same_id (key y) (key x)) l).
Proof.
  intros Hx. destruct (find _ l) eqn:E; [by eexists|]. exfalso.
  apply (find_key_None key) in E.
  assert (existsb (fun y => same_id (key y) (key x)) l = true); [|congruence].
  apply existsb_exists. exists x. split; [by apply list_elem_of_In|].
  unfold same_id. apply N.eqb_refl.
Qed.

(** X9. Whatever requests and socket events come, a stored chat stays
    stored under its id with the type, the participants, the admins and
    the name it had (no handler adds or removes a member), and the
    messages it had stay in it, in their order, before the ones that have
    come since. *)
Theorem chats_keep_their_members
    (st : Server) (actions : list Action) (chatId : ChatId) (chat : Chat) :
  findById (db st) chatId = Some chat ->
  exists chat',
    findById (db (run st actions)) chatId = Some chat'
    /\ chatType chat' = chatType chat
    /\ participants chat' = participants chat
    /\ admins chat' = admins chat
    /\ name chat' = name chat
    /\ map msg_id (messages chat) `prefix_of` map msg_id (messages chat').
Proof.
  intros Hc.
  destruct (store_grows_findById _ _ _ _ (run_grows st actions) Hc)
    as (chat' & Hc' & S & new & E & _).
  exists chat'. unfold chat_static in S. injection S as _ Hty Hps Had Hna.
  repeat (split; [done|]).
  exists (new.*1).
  assert (forall c, map msg_id (messages c) = (message_refs c).*1) as Hids.
  { intros c. unfold message_refs. induction (messages c) as [|m l IH]; simpl; [done|].
    by rewrite IH. }
  by rewrite !Hids, E, fmap_app.
Qed.

Lemma chats_keep_their_members_witness :
  findById (db (Cases.quiet Scenario.db_chat)) 100 = Some Scenario.chat_empty
  /\ exists chat',
       findById (db (run (Cases.quiet Scenario.db_chat) Cases.story)) 100
       = Some chat'
       /\ participants chat' = [Scenario.alice; Scenario.bob].
Proof.
  split; [reflexivity|].
  destruct (chats_keep_their_members (Cases.quiet Scenario.db_chat) Cases.story
              100 Scenario.chat_empty eq_refl)
    as (chat' & H1 & _ & H2 & _).
  exists chat'. split; [exact H1|exact H2].
Defined.

(** X10. In a store in which every reply refers to a message of its own
    chat (as in a store without messages), this stays so whatever
    requests and socket events come: the message that a stored reply
    names in [replyTo] can be found in the chat of the reply; no handler
    removes a message from a chat. *)
Theorem replies_refer_to_messages_of_the_chat
    (st : Server) (actions : list Action) (chatId : ChatId) (chat : Chat)
    (m : Message) (r : MessageId) :
  Forall replies_ok (chats (db st)) ->
  findById (db (run st actions)) chatId = Some chat ->
  m ∈ messages chat -> replyTo m = Some r ->
  exists original,
    message_by_id chat r = Some original /\ msg_id original = r.
Proof.
  intros H0 Hc Hm Hr.
  assert (replies_ok chat) as Hok.
  { eapply findById_Forall; [|exact Hc].
    eapply (store_grows_Forall replies_ok); [| |apply run_grows|exact H0].
    - apply chat_grows_replies_ok.
    - by intros c [? _]. }
  assert (r ∈ (message_refs chat).*1) as Hin.
  { apply (Hok (msg_id m)). unfold message_refs. rewrite <- Hr.
    apply list_elem_of_fmap. by exists m. }
  unfold message_refs in Hin.
  apply list_elem_of_fmap in Hin as ([i q] & -> & Hin). simpl.
  apply list_elem_of_fmap in Hin as (m0 & [= -> ->] & Hin).
  destruct (find_key_is_Some msg_id _ _ Hin) as [original Ho].
  exists original. split; [exact Ho|].
  by apply (find_key_Some msg_id) in Ho as [? _].
Qed.

Lemma replies_refer_to_messages_of_the_chat_witness :
  Forall replies_ok (chats (db (Cases.quiet Scenario.db_chat)))
  /\ findById (db (run (Cases.quiet Scenario.db_chat) Cases.story)) 100
     = Some Cases.chat_replied
  /\ Cases.msg_reply ∈ messages Cases.chat_replied
  /\ replyTo Cases.msg_reply = Some 101%N
  /\ exists original,
       message_by_id Cases.chat_replied 101 = Some original
       /\ msg_id original = 101%N.
Proof.
  assert (Forall replies_ok (chats (db (Cases.quiet Scenario.db_chat)))) as H0.
  { constructor; [|constructor]. intros i r H. simpl in H.
    by apply elem_of_nil in H. }
  assert (Cases.msg_reply ∈ messages Cases.chat_replied) as Hin.
  { right. left. }
  split; [exact H0|]. split; [reflexivity|]. split; [exact Hin|].
  split; [reflexivity|].
  exact (replies_refer_to_messages_of_the_chat
           (Cases.quiet Scenario.db_chat) Cases.story 100 Cases.chat_replied
           Cases.msg_reply 101 H0 eq_refl Hin eq_refl).
Defined.

(** X11. In a store whose chats are well formed (as in a store without
    chats), they stay so whatever requests and socket events come: a
    group chat has an admin, its admins are among its participants and no
    participant is listed twice; a direct chat has two participants and
    no admin. *)
Theorem chats_stay_well_formed
    (st : Server) (actions : list Action) (chat : Chat) :
  Forall (fun c => group_ok c /\ direct_ok c) (chats (db st)) ->
  chat ∈ chats (db (run st actions)) ->
  (chatType chat = group ->
     admins chat <> [] /\ admins chat ⊆ participants chat
     /\ NoDup (participants chat))
  /\ (chatType chat = direct ->
      length (participants chat) = 2 /\ admins chat = []).
Proof.
  intros H0 Hin.
  assert (Forall (fun c => group_ok c /\ direct_ok c) (chats (db (run st actions))))
    as H.
  { eapply (store_grows_Forall (fun c => group_ok c /\ direct_ok c));
      [| |apply run_grows|exact H0].
    - apply chat_grows_members.
    - by intros c (_ & ? & ?). }
  rewrite Forall_forall in H. exact (H chat Hin).
Qed.

Lemma chats_stay_well_formed_witness :
  Forall (fun c => group_ok c /\ direct_ok c)
         (chats (db (Cases.quiet Scenario.db_start)))
  /\ Cases.chat_reports
       ∈ chats (db (run (Cases.quiet Scenario.db_start) Cases.open_reports))
  /\ chatType Cases.chat_reports = group
  /\ NoDup (participants Cases.chat_reports).
Proof.
  assert (Forall (fun c => group_ok c /\ direct_ok c)
                 (chats (db (Cases.quiet Scenario.db_start)))) as H0
    by constructor.
  assert (Cases.chat_reports
            ∈ chats (db (run (Cases.quiet Scenario.db_start) Cases.open_reports)))
    as Hin by left.
  split; [exact H0|]. split; [exact Hin|]. split; [reflexivity|].
  exact (proj2 (proj2 (proj1 (chats_stay_well_formed
           (Cases.quiet Scenario.db_start) Cases.open_reports
           Cases.chat_reports H0 Hin) eq_refl))).
Defined.

(** ** Opening a chat *)
Lemma some_other_company_false co us :
  some_other_company co us = Some false ->
  Forall (fun u => company u = Some co) us.
Proof.
  induction us as [|u us IH]; simpl; [done|].
  destruct (company u) as [c|] eqn:Ec; [|done]. unfold same_id.
  destruct (N.eqb_spec c co) as [->|]; simpl; [|done].
  intros H. constructor; auto.
Qed.

Lemma getUnreadCount_new (ps : list UserId) c p :
  unreadCounts c = map (fun id => {| unread_user := id; count := 0 |}) ps ->
  getUnreadCount c p = 0%Z /\ (p ∈ ps -> has_counter c p).
Proof.
  intros E. unfold getUnreadCount, has_counter. rewrite E. split.
  - clear E. induction ps as [|x ps IH]; simpl; [done|]. by destruct (same_id x p).
  - intros Hp. rewrite map_map. simpl. by rewrite map_id.
Qed.

(** X12. When [createGroupChat] answers 201 (in a store in which no two
    users share an id), the chat it answers with is appended to the
    chats; it is a group chat with the name asked for, which is not
    empty, without messages, with the requester as its only admin; its
    participants are the requester and the users named in the request,
    each once; each of them is a stored user of one and the same
    company, and has an unread counter, which is 0. *)
Theorem createGroupChat_created
    (userId : UserId) (groupName : string) (asked : option (list UserId))
    (d : DB) :
  NoDup (map user_id (users d)) ->
  status (createGroupChat userId groupName asked d).1 = 201%N ->
  let r := createGroupChat userId groupName asked d in
  exists c ps,
    asked = Some ps
    /\ r.1 = respond 201 (ChatDoc c)
    /\ chats r.2 = chats d ++ [c]
    /\ chatType c = group /\ name c = groupName /\ groupName <> ""%string
    /\ messages c = [] /\ admins c = [userId]
    /\ NoDup (participants c)
    /\ (forall x, x ∈ participants c <-> x = userId \/ x ∈ ps)
    /\ (forall p, p ∈ participants c ->
          has_counter c p /\ getUnreadCount c p = 0%Z)
    /\ exists co,
         forall p, p ∈ participants c ->
           exists u, u ∈ users d /\ user_id u = p /\ company u = Some co.
Proof.
  intros Hnd H201 r. revert H201. unfold r, createGroupChat.
  destruct asked as [ps|]; [|done].
  destruct (JS.truthy groupName) eqn:Hname; [|done]. cbn [negb].
  set (allParticipants := unique_ids [] (userId :: ps)).
  set (participantUsers :=
         List.filter (fun u => includes_id allParticipants (user_id u)) (users d)).
  destruct (length participantUsers =? length allParticipants)%nat eqn:Hlen;
    [|done]. cbn [negb].
  destruct (findUser d userId ≫= company) as [co|]; [|done].
  destruct (some_other_company co participantUsers) as [[]|] eqn:Hco; try done.
  unfold insert_chat. cbn [fst snd]. intros _.
  eexists _, ps. split; [done|]. split; [reflexivity|]. split; [reflexivity|].
  cbn [chatType name messages admins participants].
  split; [done|]. split; [done|].
  split; [by intros ->|]. split; [done|]. split; [done|].
  split; [apply unique_ids_NoDup|].
  split.
  { intros x. unfold allParticipants. rewrite unique_ids_elem, elem_of_cons.
    split; [tauto|]. intros H. split; [done|]. by intros ?%elem_of_nil. }
  split.
  { intros p Hp.
    destruct (getUnreadCount_new allParticipants
                {| chat_id := nextId d; chatType := group;
                   participants := allParticipants; messages := [];
                   name := groupName; admins := [userId];
                   unreadCounts :=
                     map (fun id => {| unread_user := id; count := 0 |})
                         allParticipants |} p eq_refl) as [H0 Hc].
    split; [by apply Hc|exact H0]. }
  exists co. intros p Hp.
  apply Nat.eqb_eq in Hlen. apply some_other_company_false in Hco.
  assert (map user_id participantUsers ≡ₚ allParticipants) as Hperm.
  { apply submseteq_length_Permutation; [|by rewrite length_map, Hlen].
    apply NoDup_submseteq.
    - eapply sublist_NoDup; [exact Hnd|].
      apply (fmap_sublist user_id), filter_sublist.
    - intros x (u & -> & [_ Hu]%list_elem_of_In%filter_In)%list_elem_of_fmap.
      by apply includes_id_spec. }
  rewrite <- Hperm in Hp.
  apply list_elem_of_fmap in Hp as (u & -> & Hu).
  exists u. split; [|split; [done|]].
  - apply list_elem_of_In in Hu. apply filter_In in Hu as [Hu _].
    by apply list_elem_of_In.
  - rewrite Forall_forall in Hco. by apply Hco.
Qed.

Lemma createGroupChat_created_witness :
  let r :=
    createGroupChat Scenario.alice "Reports"
      (Some [Scenario.bob; Scenario.alice; Scenario.bob]) Scenario.db_start in
  NoDup (map user_id (users Scenario.db_start))
  /\ status r.1 = 201%N
  /\ exists c,
       r.1 = respond 201 (ChatDoc c)
       /\ NoDup (participants c)
       /\ admins c = [Scenario.alice].
Proof.
  intros r.
  assert (NoDup (map user_id (users Scenario.db_start))) as Hnd.
  { apply (bool_decide_unpack _). vm_compute. exact I. }
  split; [exact Hnd|]. split; [reflexivity|].
  destruct (createGroupChat_created Scenario.alice "Reports"
              (Some [Scenario.bob; Scenario.alice; Scenario.bob])
              Scenario.db_start Hnd eq_refl)
    as (c & ps & _ & H1 & _ & _ & _ & _ & _ & H2 & H3 & _).
  exists c. split; [exact H1|]. split; [exact H3|exact H2].
Defined.

Lemma find_app_new {A} (p : A -> bool) l x :
  find p l = None -> p x = true -> find p (l ++ [x]) = Some x.
Proof.
  intros Hl Hx. induction l as [|y l IH]; simpl in *; [by rewrite Hx|].
  destruct (p y); [done|auto].
Qed.

Lemma direct_between_spec a b c :
  direct_between a b c = true <->
  chatType c = direct /\ a ∈ participants c /\ b ∈ participants c
  /\ length (participants c) = 2.
Proof.
  unfold direct_between. rewrite !andb_true_iff, !includes_id_spec, Nat.eqb_eq.
  rewrite bool_decide_eq_true. tauto.
Qed.

(** X13. When [createDirectChat] answers 200 or 201, the chat it answers
    with is a stored direct chat of two participants, the requester and
    the target among them; and from then on the same request, and the
    request of the target for a chat with the requester, are answered 200
    with that same chat and store nothing. *)
Theorem createDirectChat_again (userId targetUserId : UserId) (d : DB) :
  (status (createDirectChat userId targetUserId d).1 < 400)%N ->
  let r := createDirectChat userId targetUserId d in
  exists c,
    body r.1 = ChatDoc c
    /\ c ∈ chats r.2
    /\ chatType c = direct
    /\ userId ∈ participants c /\ targetUserId ∈ participants c
    /\ length (participants c) = 2
    /\ createDirectChat userId targetUserId r.2 = (respond 200 (ChatDoc c), r.2)
    /\ createDirectChat targetUserId userId r.2 = (respond 200 (ChatDoc c), r.2).
Proof.
  intros Hst r. revert Hst. unfold r. clear r. unfold createDirectChat.
  destruct (findUser d userId) as [cu|] eqn:Hu; [|simpl; lia].
  destruct (findUser d targetUserId) as [tu|] eqn:Ht; [|simpl; lia].
  destruct (company cu) as [c1|] eqn:H1; [|simpl; lia].
  destruct (company tu) as [c2|] eqn:H2; [|simpl; lia].
  unfold same_id. destruct (N.eqb_spec c1 c2) as [<-|]; [|simpl; lia].
  cbn [negb].
  destruct (findDirectChat d userId targetUserId) as [existing|] eqn:Hex.
  - intros _. cbn [fst snd body respond]. exists existing.
    pose proof Hex as Hfound. unfold findDirectChat in Hfound.
    apply find_some in Hfound as [Hin Hd]. apply direct_between_spec in Hd.
    split; [done|]. split; [by apply list_elem_of_In|].
    destruct Hd as (? & ? & ? & ?). repeat (split; [done|]).
    rewrite Hu, Ht, H1, H2, N.eqb_refl, Hex. cbn [negb].
    split; [done|].
    assert (findDirectChat d targetUserId userId = Some existing) as ->; [|done].
    unfold findDirectChat. rewrite <- Hex. apply find_ext.
    intros c. apply direct_between_comm.
  - intros _. unfold insert_chat. cbn [fst snd body respond].
    set (c := {| chat_id := nextId d; chatType := direct;
                 participants := [userId; targetUserId]; messages := [];
                 name := ""; admins := [];
                 unreadCounts := [ {| unread_user := userId; count := 0 |};
                                   {| unread_user := targetUserId; count := 0 |} ] |}).
    exists c.
    assert (direct_between userId targetUserId c = true) as Hd.
    { apply direct_between_spec. simpl.
      split; [done|]. split; [by left|]. split; [right; by left|done]. }
    split; [done|]. split; [apply elem_of_app; right; by left|].
    pose proof Hd as Hd'. apply direct_between_spec in Hd' as (? & ? & ? & ?).
    repeat (split; [done|]).
    unfold findUser, findDirectChat in *. cbn [users chats].
    rewrite Hu, Ht, H1, H2, N.eqb_refl. cbn [negb].
    rewrite (find_app_new _ _ c Hex Hd). split; [done|].
    rewrite (find_app_new (direct_between targetUserId userId) _ c); [done| |].
    + rewrite <- Hex. apply find_ext. intros c0. apply direct_between_comm.
    + by rewrite direct_between_comm.
Qed.

Lemma createDirectChat_again_witness :
  let r := createDirectChat Scenario.alice Scenario.bob Scenario.db_start in
  (status r.1 < 400)%N
  /\ exists c,
       body r.1 = ChatDoc c
       /\ createDirectChat Scenario.bob Scenario.alice r.2
          = (respond 200 (ChatDoc c), r.2).
Proof.
  intros r. assert (status r.1 < 400)%N as H by (vm_compute; reflexivity).
  split; [exact H|].
  destruct (createDirectChat_again Scenario.alice Scenario.bob Scenario.db_start H)
    as (c & H1 & _ & _ & _ & _ & _ & _ & H2).
  exists c. split; [exact H1|exact H2].
Defined.

(** ** The socket events and the requests *)
Lemma updateOne_save cid mid g d c m :
  findById d cid = Some c -> message_by_id c mid = Some m ->
  updateOne cid mid g d = save (update_message mid g c) d.
Proof.
  intros Hc Hm. unfold updateOne, save. f_equal. simpl.
  unfold findById in Hc. induction (chats d) as [|x l IH]; simpl in *; [done|].
  destruct (same_id (chat_id x) cid) eqn:E.
  - injection Hc as ->.
    assert (matches cid mid c = true) as ->.
    { unfold matches. rewrite E. simpl.
      destruct (existsb _ _) eqn:Ex; [done|].
      apply (find_key_None msg_id) in Ex. unfold message_by_id in Hm. congruence. }
    unfold same_id. by rewrite N.eqb_refl.
  - assert (matches cid mid x = false) as -> by (unfold matches; by rewrite E).
    rewrite (IH Hc).
    destruct (same_id (chat_id x) (chat_id c)) eqn:E'; [|done].
    exfalso. unfold same_id in *. apply N.eqb_eq in E'.
    apply (find_key_Some chat_id) in Hc as [Hc _]. rewrite E', Hc, N.eqb_refl in E.
    done.
Qed.

Lemma addToSet_delete_for u m :
  set_deletedFor (JS.addToSet u (deletedFor m)) m = delete_for u m.
Proof.
  unfold delete_for, JS.addToSet.
  destruct (includes_id (deletedFor m) u) eqn:E; simpl.
  - apply includes_id_spec in E. rewrite bool_decide_eq_true_2 by done.
    by destruct m.
  - apply includes_id_false in E. by rewrite bool_decide_eq_false_2.
Qed.

(** X14. Where the request is answered 200, the socket event of the same
    name leaves the same store behind as the request: for adding a
    reaction, for removing one, and for deleting a message for oneself. *)
Theorem socket_event_stores_what_the_request_stores
    (userId : UserId) (chatId : ChatId) (messageId : MessageId) (st : Server) :
  (forall e,
     status (addReaction userId chatId messageId e (db st)).1 = 200%N ->
     db (on_addReaction userId chatId messageId e st).1
     = (addReaction userId chatId messageId e (db st)).2)
  /\ (status (removeReaction userId chatId messageId (db st)).1 = 200%N ->
      db (on_removeReaction userId chatId messageId st).1
      = (removeReaction userId chatId messageId (db st)).2)
  /\ (status (deleteMessage userId chatId messageId false (db st)).1 = 200%N ->
      db (on_deleteMessage userId chatId messageId false st).1
      = (deleteMessage userId chatId messageId false (db st)).2).
Proof.
  split; [|split].
  - intros e. rewrite on_addReaction_db. unfold addReaction.
    destruct (negb (JS.truthy e)); [done|].
    destruct (findById (db st) chatId) as [c|] eqn:Hc; [|done].
    destruct (negb _); [done|].
    destruct (message_by_id c messageId) as [m|] eqn:Hm; [|done].
    intros _. simpl. by apply (updateOne_save _ _ _ _ c m).
  - unfold removeReaction, on_removeReaction.
    destruct (findById (db st) chatId) as [c|] eqn:Hc; [|done].
    destruct (message_by_id c messageId) as [m|] eqn:Hm; [|done].
    intros _. simpl. by apply (updateOne_save _ _ _ _ c m).
  - unfold deleteMessage, on_deleteMessage.
    destruct (findById (db st) chatId) as [c|] eqn:Hc; [|done].
    destruct (message_by_id c messageId) as [m|] eqn:Hm; [|done].
    intros _. simpl. rewrite (updateOne_save _ _ _ _ c m) by done.
    f_equal. unfold update_message. f_equal. apply update_first_ext.
    intros x. apply addToSet_delete_for.
Qed.

Lemma socket_event_stores_what_the_request_stores_witness :
  let st := Cases.quiet Scenario.db_sent in
  status (addReaction Scenario.alice 100 101 "+1" (db st)).1 = 200%N
  /\ db (on_addReaction Scenario.alice 100 101 "+1" st).1
     = (addReaction Scenario.alice 100 101 "+1" (db st)).2.
Proof.
  intros st. split; [reflexivity|].
  exact (proj1 (socket_event_stores_what_the_request_stores
                  Scenario.alice 100 101 st) "+1"%string eq_refl).
Defined.

(** X15. The socket events do not ask whether the user belongs to the
    chat.  For a user who is not a participant of the chat of a stored
    message, the requests to react to it and to mark the chat as read are
    refused with 403 and store nothing; but the socket event of that user
    stores the reaction, the event to delete the message for oneself
    stores the user in [deletedFor], and a [messageRead] event, which
    names the reader itself, stores the receipt it is sent with, whoever
    sends it and whomever it names. *)
Theorem socket_events_skip_the_participant_check
    (now : Time) (userId reader : UserId) (chatId : ChatId)
    (messageId : MessageId) (emoji_ : string) (st : Server)
    (chat : Chat) (m : Message) :
  findById (db st) chatId = Some chat ->
  message_by_id chat messageId = Some m ->
  userId ∉ participants chat ->
  JS.truthy emoji_ = true ->
  status (addReaction userId chatId messageId emoji_ (db st)).1 = 403%N
  /\ status (markMessagesAsRead now userId chatId (db st)).1 = 403%N
  /\ lookup_message (db (on_addReaction userId chatId messageId emoji_ st).1)
                    chatId messageId
     = Some (react userId emoji_ m)
  /\ (exists m',
        lookup_message (db (on_deleteMessage userId chatId messageId false st).1)
                       chatId messageId = Some m'
        /\ userId ∈ deletedFor m')
  /\ (exists m',
        lookup_message (db (on_messageRead now chatId messageId reader st).1)
                       chatId messageId = Some m'
        /\ ReceiptUserId reader now ∈ readBy m').
Proof.
  intros Hc Hm Hu He.
  assert (lookup_message (db st) chatId messageId = Some m) as Hl.
  { unfold lookup_message. rewrite Hc. exact Hm. }
  split; [by rewrite (addReaction_forbidden _ _ _ _ _ chat)|].
  split; [by rewrite (markMessagesAsRead_forbidden _ _ _ _ chat)|].
  split.
  { rewrite lookup_message_on_addReaction, Hl. simpl.
    destruct (decide _) as [|Hn]; [done|by destruct Hn]. }
  split.
  - exists (delete_for userId m). split.
    + unfold on_deleteMessage. simpl. rewrite lookup_message_updateOne by done.
      rewrite Hl. simpl. destruct (decide _) as [|Hn]; [|by destruct Hn].
      f_equal. apply addToSet_delete_for.
    + unfold delete_for. destruct (includes_id (deletedFor m) userId) eqn:E; simpl.
      * by apply includes_id_spec.
      * apply elem_of_app. right. by left.
  - exists (set_readBy (readBy m ++ [ReceiptUserId reader now]) m).
    split.
    + assert (db (on_messageRead now chatId messageId reader st).1
              = updateOne chatId messageId
                  (fun m => set_readBy (readBy m ++ [ReceiptUserId reader now]) m)
                  (db st)) as ->.
      { unfold on_messageRead. by case_match. }
      rewrite lookup_message_updateOne by done. rewrite Hl. simpl.
      destruct (decide _) as [|Hn]; [done|by destruct Hn].
    + simpl. apply elem_of_app. right. by left.
Qed.

Lemma socket_events_skip_the_participant_check_witness :
  let st := Cases.quiet Scenario.db_sent in
  findById (db st) 100 = Some Scenario.chat_sent
  /\ message_by_id Scenario.chat_sent 101 = Some Scenario.msg_report
  /\ (Scenario.carol ∉ participants Scenario.chat_sent)
  /\ JS.truthy "+1" = true
  /\ status (addReaction Scenario.carol 100 101 "+1" (db st)).1 = 403%N
  /\ lookup_message (db (on_addReaction Scenario.carol 100 101 "+1" st).1) 100 101
     = Some (react Scenario.carol "+1" Scenario.msg_report).
Proof.
  intros st.
  assert (Scenario.carol ∉ participants Scenario.chat_sent) as Hn.
  { apply includes_id_false. reflexivity. }
  split; [reflexivity|]. split; [reflexivity|]. split; [exact Hn|].
  split; [reflexivity|].
  destruct (socket_events_skip_the_participant_check 2000 Scenario.carol
              Scenario.alice 100 101 "+1" st Scenario.chat_sent
              Scenario.msg_report eq_refl eq_refl Hn eq_refl)
    as (H1 & _ & H2 & _).
  split; [exact H1|exact H2].
Defined.

(** ** Presence *)
Lemma getUserStatus_online registry u :
  getUserStatus registry u = online <-> is_Some (registry !! u).
Proof.
  unfold getUserStatus. case_bool_decide; split; done.
Qed.

(** X16. The registry keeps one socket for a user.  When a user connects
    a second time, the second socket replaces the first; and when then
    one of the two connections closes, the user is no longer online, for
    [getUserStatus], for [getOnlineUsers] and for the presence query,
    although the other connection is still open.  The status of the other
    users is as before. *)
Theorem second_connection_then_disconnect
    (userId : UserId) (first second : SocketId) (st : Server) :
  let st2 := (on_connection userId second (on_connection userId first st).1).1 in
  let st3 := (on_disconnect userId st2).1 in
  userSockets st2 !! userId = Some second
  /\ getUserStatus (userSockets st2) userId = online
  /\ getUserStatus (userSockets st3) userId = offline
  /\ (userId ∉ getOnlineUsers (userSockets st3))
  /\ presence_of (userSockets st3) [userId] !! userId = Some offline
  /\ (forall v, v <> userId ->
        getUserStatus (userSockets st3) v = getUserStatus (userSockets st) v).
Proof.
  intros st2 st3. simpl.
  split; [by rewrite lookup_insert_eq|].
  split; [apply getUserStatus_online; by rewrite lookup_insert_eq|].
  assert (getUserStatus
            (delete userId (<[userId:=second]> (<[userId:=first]> (userSockets st))))
            userId = offline) as Hoff.
  { unfold getUserStatus. rewrite lookup_delete_eq.
    rewrite bool_decide_eq_false_2; [done|]. by intros [? ?]. }
  split; [exact Hoff|].
  split.
  { unfold getOnlineUsers. intros ([k s] & -> & H)%list_elem_of_fmap.
    apply elem_of_map_to_list in H. simpl in H. by rewrite lookup_delete_eq in H. }
  split.
  { rewrite presence_of_lookup, decide_True by (by left). by rewrite Hoff. }
  intros v Hv. unfold getUserStatus.
  by rewrite lookup_delete_ne, !lookup_insert_ne by done.
Qed.

(** X17. The online users are the users with a registered socket, each
    listed once; and the status of a user changes only by a connection or
    a disconnection of that user: no request, no other socket event and
    no connection of somebody else changes it. *)
Theorem presence_changes_only_by_connection
    (userId : UserId) (st : Server) (actions : list Action) :
  forallb (fun a => negb (touches_presence_of userId a)) actions = true ->
  let registry := userSockets (run st actions) in
  registry !! userId = userSockets st !! userId
  /\ getUserStatus registry userId = getUserStatus (userSockets st) userId
  /\ (userId ∈ getOnlineUsers registry <-> getUserStatus registry userId = online)
  /\ NoDup (getOnlineUsers registry).
Proof.
  intros Hall registry.
  assert (registry !! userId = userSockets st !! userId) as Hsame.
  { unfold registry. clear registry. revert st.
    induction actions as [|a actions IH]; intros st; simpl in *; [done|].
    apply andb_true_iff in Hall as [Ha Hall]. rewrite (IH Hall).
    apply negb_true_iff in Ha.
    destruct a as [r|u e]; simpl; [done|].
    destruct e; simpl in *; try done.
    - unfold same_id in Ha. apply N.eqb_neq in Ha. by rewrite lookup_insert_ne.
    - unfold same_id in Ha. apply N.eqb_neq in Ha. by rewrite lookup_delete_ne.
    - unfold on_sendMessage. by repeat case_match.
    - unfold on_messageRead. by case_match.
    - unfold on_deleteMessage. by repeat case_match. }
  split; [exact Hsame|].
  split; [unfold getUserStatus; by rewrite Hsame|].
  split.
  - rewrite getUserStatus_online. unfold getOnlineUsers. split.
    + intros ([k s] & -> & H)%list_elem_of_fmap.
      apply elem_of_map_to_list in H. by eexists.
    + intros [s H]. apply list_elem_of_fmap. exists (userId, s).
      split; [done|]. by apply elem_of_map_to_list.
  - apply NoDup_fst_map_to_list.
Qed.

Lemma presence_changes_only_by_connection_witness :
  let actions :=
    [ Ws Scenario.bob (Connection 8);
      Http (SendMessage 1000 Scenario.bob 100 "Quarterly Report" []);
      Ws Scenario.bob Disconnect ] in
  forallb (fun a => negb (touches_presence_of Scenario.alice a)) actions = true
  /\ getUserStatus
       (userSockets (run (Scenario.only_alice_online Scenario.db_chat) actions))
       Scenario.alice
     = getUserStatus (userSockets (Scenario.only_alice_online Scenario.db_chat))
                     Scenario.alice.
Proof.
  intros actions. split; [reflexivity|].
  exact (proj1 (proj2 (presence_changes_only_by_connection Scenario.alice
                         (Scenario.only_alice_online Scenario.db_chat)
                         actions eq_refl))).
Defined.

(** ** What every stored message is like *)
Lemma truthy_spec s : JS.truthy s = true <-> s <> ""%string.
Proof.
  unfold JS.truthy. destruct (String.eqb_spec s ""); simpl; split; congruence.
Qed.

Lemma sound_new id now u text files reply :
  JS.truthy text = true -> message_sound (new_message id now u text files reply).
Proof.
  intros Ht%truthy_spec. split; [done|]. split; [by exists now|].
  split; [|constructor]. simpl. split; [done|]. by intros [].
Qed.

Lemma sound_edit now text m :
  JS.truthy text = true -> message_sound m -> message_sound (edit now text m).
Proof.
  intros Ht%truthy_spec (Hc & Hr & He & Hh). split; [done|]. split; [done|].
  simpl. split.
  - split; [|done]. intros _ E. by apply app_eq_nil in E as [_ ?].
  - apply Forall_app. split; [done|]. by constructor.
Qed.

Lemma sound_tombstone m : message_sound m -> message_sound (tombstone m).
Proof. intros (Hc & Hr & He & Hh). by split. Qed.

Lemma sound_kept m m' :
  content m' = content m -> sender m' = sender m ->
  readBy m `prefix_of` readBy m' ->
  edited m' = edited m -> editHistory m' = editHistory m ->
  message_sound m -> message_sound m'.
Proof.
  intros Ec Es [k Er] Ee Eh (Hc & [t Hr] & He & Hh).
  unfold message_sound. rewrite Ec, Es, Ee, Eh. split; [done|].
  split; [|done]. exists t. rewrite Er.
  destruct (readBy m); [done|]. exact Hr.
Qed.

Lemma sound_evolving g :
  (forall m, evolves m (g m)) ->
  (forall m, content (g m) = content m /\ edited (g m) = edited m
             /\ editHistory (g m) = editHistory m) ->
  forall m, message_sound m -> message_sound (g m).
Proof.
  intros Hev Hg m. destruct (Hg m) as (? & ? & ?). destruct (Hev m).
  by apply sound_kept.
Qed.

Lemma sound_mark_read now u m m' :
  mark_read now u m = Some m' -> message_sound m -> message_sound m'.
Proof.
  intros H. pose proof (evolves_mark_read _ _ _ _ H) as [].
  unfold mark_read in H. destruct (read_by u (readBy m)) as [[]|]; simpl in H;
    [| |done]; injection H as <-; by apply sound_kept.
Qed.

Lemma store_sound_save c' d :
  store_sound d -> Forall message_sound (messages c') -> store_sound (save c' d).
Proof. intros H Hc. by apply (Forall_save _ c' d). Qed.

Lemma sound_update_message mid g c :
  (forall m, message_sound m -> message_sound (g m)) ->
  Forall message_sound (messages c) ->
  Forall message_sound (messages (update_message mid g c)).
Proof. intros Hg H. simpl. apply Forall_update_first; [done|]. auto. Qed.

Lemma store_sound_updateOne cid mid g d :
  (forall m, message_sound m -> message_sound (g m)) ->
  store_sound d -> store_sound (updateOne cid mid g d).
Proof.
  intros Hg H. unfold store_sound. simpl. apply Forall_update_first; [done|].
  intros c _. by apply sound_update_message.
Qed.

Lemma sound_delete_for u m : message_sound m -> message_sound (delete_for u m).
Proof.
  apply sound_evolving; [apply evolves_delete_for|].
  intros x. unfold delete_for. by destruct (negb _).
Qed.

Lemma sound_react u e m : message_sound m -> message_sound (react u e m).
Proof. by apply sound_evolving; [apply evolves_react|]. Qed.

Lemma sound_unreact u m : message_sound m -> message_sound (unreact u m).
Proof. by apply (sound_evolving (unreact u)); [apply evolves_unreact|]. Qed.

Lemma handle_sound r d : store_sound d -> store_sound (handle r d).2.
Proof.
  intros H.
  handler_cases r; try done;
    try (name_inserted; apply Forall_app; split; [done|]; by repeat constructor);
    try change (store_sound (take_id ?x)) with (store_sound x);
    apply store_sound_save; try done;
    match goal with
    | Hc : findById _ _ = Some ?c |- _ =>
        pose proof (findById_Forall _ _ _ _ H Hc) as Hok; simpl in Hok
    end;
    eauto using sound_update_message, sound_tombstone, sound_delete_for,
                sound_react, sound_unreact.
  - by rewrite resetUnreadCount_messages.
  - simpl. apply Forall_app. split; [done|].
    apply Forall_singleton, sound_new.
    match goal with Ht : negb (JS.truthy _) = false |- _ =>
      by apply negb_false_iff in Ht end.
  - apply sound_update_message; [|done]. intros ?. apply sound_edit.
    match goal with Ht : negb (JS.truthy _) = false |- _ =>
      by apply negb_false_iff in Ht end.
  - simpl. apply Forall_app. split; [done|].
    apply Forall_singleton, sound_new.
    match goal with Ht : negb (JS.truthy _) || _ = false |- _ =>
      apply orb_false_iff in Ht as [Ht _]; by apply negb_false_iff in Ht end.
  - simpl. rewrite resetUnreadCount_messages in *.
    match goal with HM : mapM _ _ = Some _ |- _ => apply mapM_Some in HM;
      induction HM as [|x y ms ms' Hxy _ IH]; [done|] end.
    apply Forall_cons in Hok as [Hx Hms].
    constructor; [by eapply sound_mark_read|by apply IH].
Qed.

Lemma on_sound u e st : store_sound (db st) -> store_sound (db (on u e st).1).
Proof.
  intros H. destruct e; cbn [on]; try done.
  - unfold on_sendMessage. by repeat case_match.
  - unfold on_messageRead. case_match; apply store_sound_updateOne; try done;
      by (apply sound_evolving; [intros ?; apply evolves_socket_read|]).
  - rewrite on_addReaction_db. apply store_sound_updateOne; [|done].
    intros ?. apply sound_react.
  - unfold on_removeReaction. apply store_sound_updateOne; [|done].
    intros ?. apply (sound_unreact u).
  - unfold on_deleteMessage. repeat case_match; try done;
      apply store_sound_updateOne; try done;
      apply sound_evolving; try done;
      intros ?; apply evolves_socket_delete || apply evolves_socket_delete_for.
Qed.

(** X18. In a store whose messages are sound (as in a store without
    messages), they stay so whatever requests and socket events come:
    every stored message has a content that is not empty (a message of
    attachments alone is never stored), the first receipt in its
    [readBy] is the one of its sender, it counts as edited exactly when
    it has an edit history, and the history holds no empty content. *)
Theorem stored_messages_stay_sound
    (st : Server) (actions : list Action) (chatId : ChatId)
    (messageId : MessageId) (m : Message) :
  store_sound (db st) ->
  lookup_message (db (run st actions)) chatId messageId = Some m ->
  content m <> ""%string
  /\ (exists t, head (readBy m) = Some (ReceiptUser (sender m) t))
  /\ (edited m = true <-> editHistory m <> [])
  /\ Forall (fun e => previous_content e <> ""%string) (editHistory m).
Proof.
  intros H0 Hm.
  assert (store_sound (db (run st actions))) as H.
  { clear Hm. revert st H0.
    induction actions as [|a actions IH]; intros st H0; simpl; [done|].
    apply IH. destruct a; simpl; auto using handle_sound, on_sound. }
  unfold lookup_message in Hm.
  destruct (findById (db (run st actions)) chatId) as [c|] eqn:Hc; [|done].
  simpl in Hm. pose proof (findById_Forall _ _ _ _ H Hc) as Hok. simpl in Hok.
  apply (find_key_Some msg_id) in Hm as [_ Hin].
  rewrite Forall_forall in Hok. exact (Hok m Hin).
Qed.

Lemma stored_messages_stay_sound_witness :
  store_sound (db (Cases.quiet Scenario.db_chat))
  /\ lookup_message (db (run (Cases.quiet Scenario.db_chat) Cases.story)) 100 102
     = Some Cases.msg_reply
  /\ content Cases.msg_reply <> ""%string.
Proof.
  assert (store_sound (db (Cases.quiet Scenario.db_chat))) as H0
    by (by repeat constructor).
  split; [exact H0|]. split; [reflexivity|].
  exact (proj1 (stored_messages_stay_sound (Cases.quiet Scenario.db_chat)
                  Cases.story 100 102 Cases.msg_reply H0 eq_refl)).
Defined.

(** X19. A message needs a text.  A request to send a message without
    a text is never answered 201 and stores nothing: without files it is
    answered 400; with files, from a participant of the chat, it fails
    with 500, because the stored content may not be empty. *)
Theorem sendMessage_needs_text
    (now : Time) (userId : UserId) (chatId : ChatId) (files : list File)
    (d : DB) :
  let r := sendMessage now userId chatId "" files d in
  r.2 = d
  /\ (400 <= status r.1)%N
  /\ (files = [] -> status r.1 = 400%N)
  /\ (forall chat, files <> [] -> findById d chatId = Some chat ->
        userId ∈ participants chat -> status r.1 = 500%N).
Proof.
  intros r. unfold r, sendMessage. simpl.
  split; [by repeat case_match|].
  split; [repeat case_match; simpl; lia|].
  split; [by intros ->|].
  intros chat Hf Hc Hp. destruct files as [|f files]; [done|]. simpl.
  rewrite Hc. apply existsb_same_id_spec in Hp. by rewrite Hp.
Qed.

(** ** Grouping the messages of a sender *)
Lemma chain_snoc {A} (R : A -> A -> Prop) l x y :
  chain R (l ++ [x]) -> R x y -> chain R (l ++ [x; y]).
Proof.
  intros H Hxy. induction l as [|a l IH]; simpl in *; [done|].
  destruct l as [|b l]; simpl in *.
  - by destruct H.
  - destruct H as [Hab H]. split; [done|]. by apply IH.
Qed.

Lemma chain_last_change {A} (R : A -> A -> Prop) l x x' :
  chain R (l ++ [x]) -> (forall z, R z x -> R z x') -> chain R (l ++ [x']).
Proof.
  intros H Hx. induction l as [|a l IH]; simpl in *; [done|].
  destruct l as [|b l]; simpl in *.
  - destruct H as [Hax _]. split; [|done]. by apply Hx.
  - destruct H as [Hab H]. split; [done|]. by apply IH.
Qed.

Lemma foldl_add_message ms :
  let st := foldl Grouping.add_message ([], None) ms in
  let gs := st.1 ++ option_list st.2 in
  (st.2 = None -> st.1 = [] /\ ms = [])
  /\ concat (map Grouping.group_messages gs) = ms
  /\ Forall group_wf gs
  /\ chain apart gs.
Proof.
  induction ms as [|m ms IH] using rev_ind; simpl; [done|].
  rewrite foldl_app. simpl.
  destruct (foldl Grouping.add_message ([], None) ms) as [closed cur].
  simpl in IH. destruct IH as (Hnone & Hcat & Hwf & Hch).
  assert (group_wf {| Grouping.group_sender := sender m;
                      Grouping.group_messages := [m];
                      Grouping.lastMessageAt := createdAt m |}) as Hfresh.
  { split; [by exists m|]. split; [by constructor|done]. }
  destruct cur as [g|]; simpl in Hcat, Hwf, Hch |- *.
  - destruct (negb (same_id (Grouping.group_sender g) (sender m))
              || (300000 <? createdAt m - Grouping.lastMessageAt g)%Z) eqn:E; simpl.
    + split; [done|].
      split; [by rewrite map_app, concat_app, Hcat|].
      split; [apply Forall_app; split; [done|by constructor]|].
      rewrite <- app_assoc. simpl.
      apply chain_snoc; [done|]. intros a b Ha Hb [Hs Ht]. simpl in Hb.
      injection Hb as <-.
      apply Forall_app in Hwf as [_ Hg]. rewrite Forall_singleton in Hg.
      destruct Hg as ((m0 & Hm0 & Hlast) & Hsend & _).
      rewrite Ha in Hm0. injection Hm0 as <-.
      assert (sender a = Grouping.group_sender g) as Hsa.
      { rewrite Forall_forall in Hsend. apply Hsend.
        apply last_Some in Ha as [l' ->]. apply elem_of_app. right. by left. }
      apply orb_true_iff in E as [E|E].
      * apply negb_true_iff in E. unfold same_id in E. apply N.eqb_neq in E.
        congruence.
      * apply Z.ltb_lt in E. lia.
    + apply orb_false_iff in E as [E1 E2]. apply negb_false_iff in E1.
      unfold same_id in E1. apply N.eqb_eq in E1. apply Z.ltb_ge in E2.
      apply Forall_app in Hwf as [Hwf Hg]. rewrite Forall_singleton in Hg.
      destruct Hg as ((m0 & Hm0 & Hlast) & Hsend & Hclose).
      split; [done|]. split.
      { rewrite map_app, concat_app in *. simpl in *.
        rewrite !app_nil_r in *. by rewrite app_assoc, Hcat. }
      split.
      { apply Forall_app. split; [done|]. apply Forall_singleton.
        split; [|split]; simpl.
        - exists m. by rewrite last_snoc.
        - apply Forall_app. split; [done|]. by apply Forall_singleton.
        - apply last_Some in Hm0 as [l' E]. rewrite E in *.
          rewrite <- app_assoc. simpl. apply chain_snoc; [done|].
          split; [|lia].
          rewrite Forall_forall in Hsend. rewrite <- E1. apply Hsend.
          apply elem_of_app. right. by left. }
      eapply chain_last_change; [exact Hch|].
      intros z Hz a b Ha Hb. simpl in Hb. apply (Hz a b Ha).
      apply last_Some in Hm0 as [l' E]. rewrite E in *.
      by destruct l'.
  - destruct (Hnone eq_refl) as [-> ->]. simpl.
    split; [done|]. split; [done|]. split; [by constructor|done].
Qed.

(** X20. [groupMessages] cuts the messages it is given into groups
    without losing or reordering any: the messages of the groups, one
    group after the other, are the messages given.  No group is empty;
    the messages of a group are all of the sender of the group, each at
    most five minutes (300000 ms) after the one before it, and
    [lastMessageAt] is the time of the last of them; and between two
    groups that follow each other the sender changes or more than five
    minutes pass. *)
Theorem groupMessages_groups (ms : list Message) :
  let groups := Grouping.groupMessages ms in
  concat (map Grouping.group_messages groups) = ms
  /\ Forall (fun g =>
               Grouping.group_messages g <> []
               /\ (exists m, last (Grouping.group_messages g) = Some m
                             /\ Grouping.lastMessageAt g = createdAt m)
               /\ Forall (fun m => sender m = Grouping.group_sender g)
                         (Grouping.group_messages g)
               /\ chain (fun a b =>
                           (createdAt b - createdAt a <= 300000)%Z)
                        (Grouping.group_messages g)) groups
  /\ chain (fun g1 g2 =>
              forall a b,
                last (Grouping.group_messages g1) = Some a ->
                head (Grouping.group_messages g2) = Some b ->
                sender a <> sender b
                \/ (300000 < createdAt b - createdAt a)%Z) groups.
Proof.
  intros groups. unfold groups, Grouping.groupMessages.
  pose proof (foldl_add_message ms) as H.
  destruct (foldl Grouping.add_message ([], None) ms) as [closed cur].
  simpl in H. destruct H as (_ & Hcat & Hwf & Hch).
  split; [done|]. split.
  - eapply Forall_impl; [exact Hwf|]. intros g ((m & Hm & Hl) & Hs & Hc).
    split; [by destruct (Grouping.group_messages g)|].
    split; [by exists m|]. split; [done|].
    clear -Hc. induction (Grouping.group_messages g) as [|a l IH]; [done|].
    destruct l as [|b l]; [done|]. destruct Hc as [[_ Hab] Hc].
    split; [done|]. by apply IH.
  - clear -Hch. induction (closed ++ option_list cur) as [|g1 l IH]; [done|].
    destruct l as [|g2 l]; [done|]. destruct Hch as [H12 Hch].
    split; [|by apply IH].
    intros a b Ha Hb. specialize (H12 a b Ha Hb). unfold close_to in H12.
    destruct (decide (sender a = sender b)); [|by left]. right. lia.
Qed.

(** ** The routes that get no request *)
Lemma lit_matches_nonempty l s :
  l <> ""%string ->
  Express.segment_matches (Express.Lit l) s = true ->
  Express.segment_matches (Express.Param "id") s = true.
Proof.
  intros Hl H. simpl in *. destruct s; [|done].
  destruct l; [done|]. discriminate.
Qed.

(** A route of one literal segment that is declared after a route of one
    parameter, for the same method, gets no request. *)
Lemma shadowed_by_parameter before name0 h0 between l h after m path r :
  Express.dispatch
    (before ++ Express.route m [Express.Param name0] h0
            :: between ++ Express.route m [Express.Lit l] h :: after)
    m path = Some r ->
  l <> ""%string ->
  Express.route_matches m path r = true
  /\ (r ∈ before ++ [Express.route m [Express.Param name0] h0]
      \/ Express.path_matches [Express.Lit l] path = false).
Proof.
  intros Hd Hl. unfold Express.dispatch in Hd.
  pose proof (find_some _ _ Hd) as [_ Hr]. split; [done|].
  destruct (Express.path_matches [Express.Lit l] path) eqn:Hp; [left|by right].
  assert (Express.route_matches m path
            (Express.route m [Express.Param name0] h0) = true) as H0.
  { unfold Express.route_matches. simpl. rewrite bool_decide_eq_true_2 by done.
    destruct path as [|s [|? ?]]; simpl in *; try done;
      [|by rewrite andb_false_r in Hp].
    rewrite andb_true_r in *. by apply (lit_matches_nonempty l). }
  clear Hr Hp. induction before as [|x before IH]; simpl in *.
  - rewrite H0 in Hd. injection Hd as <-. by left.
  - destruct (Express.route_matches m path x).
    + injection Hd as <-. by left.
    + right. by apply IH.
Qed.

Ltac route_cases H :=
  repeat (apply elem_of_cons in H as [->|H]); [..|by apply elem_of_nil in H].

Ltac not_among H :=
  repeat (apply elem_of_cons in H as [H|H]; [discriminate|]);
  by apply elem_of_nil in H.

Ltac reached_route :=
  match goal with
  | |- reached _ ?r <-> _ =>
      split;
        [ intros _; simpl; discriminate
        | intros _; exists (path_for r); vm_compute; reflexivity ]
  end.

(** X21. In each of the three routers, every route but one gets requests
    of its own, and that one gets none, because a route with a parameter,
    declared before it, takes them: [GET /search] of the chat router goes
    to [getChatById] and never to [searchChats]; [DELETE /clear-all] of
    the notification router goes to [deleteNotification] and never to
    [clearAllNotifications]; [GET /created-by-me] of the task router goes
    to [getTaskById] and never to [getTasksCreatedByMe]. *)
Theorem routes_behind_a_parameter_get_no_request :
  (forall r, r ∈ Express.chat_routes ->
     reached Express.chat_routes r <-> Express.handler r <> "searchChats"%string)
  /\ (forall r, r ∈ Express.notification_routes ->
        reached Express.notification_routes r
        <-> Express.handler r <> "clearAllNotifications"%string)
  /\ (forall r, r ∈ Express.task_routes ->
        reached Express.task_routes r
        <-> Express.handler r <> "getTasksCreatedByMe"%string)
  /\ Express.handler <$> Express.dispatch Express.chat_routes Express.GET ["search"]
     = Some "getChatById"%string
  /\ Express.handler
       <$> Express.dispatch Express.notification_routes Express.DELETE ["clear-all"]
     = Some "deleteNotification"%string
  /\ Express.handler
       <$> Express.dispatch Express.task_routes Express.GET ["created-by-me"]
     = Some "getTaskById"%string.
Proof.
  split; [|split; [|split; [|by repeat split]]].
  - intros r Hr. route_cases Hr; try reached_route.
    split; [|intros H; by destruct H]. intros [path Hd] _.
    apply (shadowed_by_parameter
             (take 3 Express.chat_routes) "chatId" "getChatById"
             (take 9 (drop 4 Express.chat_routes)) "search" "searchChats"
             (drop 14 Express.chat_routes)) in Hd as [Hm [Hin|Hp]]; [| |done].
    + simpl in Hin. not_among Hin.
    + unfold Express.route_matches in Hm.
      cbn [Express.pattern Express.route] in Hm.
      rewrite Hp in Hm. by rewrite andb_false_r in Hm.
  - intros r Hr. route_cases Hr; try reached_route.
    split; [|intros H; by destruct H]. intros [path Hd] _.
    apply (shadowed_by_parameter
             (take 4 Express.notification_routes) "id" "deleteNotification"
             [] "clear-all" "clearAllNotifications" [])
      in Hd as [Hm [Hin|Hp]]; [| |done].
    + simpl in Hin. not_among Hin.
    + unfold Express.route_matches in Hm.
      cbn [Express.pattern Express.route] in Hm.
      rewrite Hp in Hm. by rewrite andb_false_r in Hm.
  - intros r Hr. route_cases Hr; try reached_route.
    split; [|intros H; by destruct H]. intros [path Hd] _.
    apply (shadowed_by_parameter
             (take 10 Express.task_routes) "id" "getTaskById"
             (take 4 (drop 11 Express.task_routes)) "created-by-me"
             "getTasksCreatedByMe" (drop 16 Express.task_routes))
      in Hd as [Hm [Hin|Hp]]; [| |done].
    + simpl in Hin. not_among Hin.
    + unfold Express.route_matches in Hm.
      cbn [Express.pattern Express.route] in Hm.
      rewrite Hp in Hm. by rewrite andb_false_r in Hm.
Qed.

(** ** The notifications of a user *)
Section notifications.
Import NotificationController.

Lemma filter_update_first_other {A} (q p : A -> bool) f (l : list A) :
  (forall x, p x = true -> q x = false /\ q (f x) = false) ->
  List.filter q (JS.update_first p f l) = List.filter q l.
Proof.
  intros H. induction l as [|x l IH]; simpl; [done|].
  destruct (p x) eqn:E; simpl.
  - destruct (H x E) as [-> ->]. done.
  - by rewrite IH.
Qed.

Lemma filter_delete_first_other {A} (q p : A -> bool) (l : list A) :
  (forall x, p x = true -> q x = false) ->
  List.filter q (delete_first p l) = List.filter q l.
Proof.
  intros H. induction l as [|x l IH]; simpl; [done|].
  destruct (p x) eqn:E; simpl.
  - by rewrite (H x E).
  - by rewrite IH.
Qed.

Lemma filter_filter_other {A} (q p : A -> bool) (l : list A) :
  (forall x, q x = true -> p x = true) ->
  List.filter q (List.filter p l) = List.filter q l.
Proof.
  intros H. induction l as [|x l IH]; simpl; [done|].
  destruct (p x) eqn:E; simpl.
  - by rewrite IH.
  - rewrite IH. destruct (q x) eqn:Eq; [|done].
    rewrite (H x Eq) in E. done.
Qed.

Lemma filter_map_other {A} (q : A -> bool) g (l : list A) :
  (forall x, q (g x) = q x) -> (forall x, q x = true -> g x = x) ->
  List.filter q (map g l) = List.filter q l.
Proof.
  intros H1 H2. induction l as [|x l IH]; simpl; [done|].
  rewrite H1, IH. destruct (q x) eqn:E; [|done]. by rewrite (H2 x E).
Qed.

Lemma same_id_other a u v : same_id a u = true -> u <> v -> same_id a v = false.
Proof.
  unfold same_id. intros ->%N.eqb_eq Hne. by apply N.eqb_neq.
Qed.

Lemma handle_of_user u v r docs :
  u <> v -> of_user v (collection (handle u r docs)) = of_user v docs.
Proof.
  intros Hne. unfold of_user.
  destruct r as [|[id|]| |[id|]|]; simpl; try done.
  - destruct (find (own id u) docs); simpl; [|done].
    apply filter_update_first_other. intros x [_ Hx]%andb_true_iff. simpl.
    by rewrite (same_id_other _ u v).
  - apply filter_map_other.
    + intros x. by destruct (unread_of u x).
    + intros x Hv. unfold unread_of.
      destruct (same_id (notification_user x.2) u) eqn:E; [|done].
      by rewrite (same_id_other _ u v) in Hv.
  - destruct (find (own id u) docs); simpl; [|done].
    apply filter_delete_first_other. intros x [_ Hx]%andb_true_iff.
    by apply (same_id_other _ u v).
  - apply filter_filter_other. intros x Hv. unfold read_of.
    destruct (same_id (notification_user x.2) u) eqn:E; [|done].
    by rewrite (same_id_other _ u v) in Hv.
Qed.

(** X22. The requests of a user about notifications reach the
    notifications of that user only: whatever sequence of requests to
    count, mark as read, mark all as read, delete and clear comes from
    other users, the notifications of a user are as before, the same
    documents in the same order. *)
Theorem notifications_of_others_are_untouched
    (userId : UserId) (docs : list Stored) (requests : list (UserId * Request)) :
  Forall (fun ur => ur.1 <> userId) requests ->
  of_user userId (run docs requests) = of_user userId docs.
Proof.
  intros H. revert docs. induction H as [|[u r] requests Hu _ IH]; intros docs;
    simpl; [done|].
  unfold run in *. simpl. rewrite IH. by apply handle_of_user.
Qed.

Lemma notifications_of_others_are_untouched_witness :
  let requests :=
    [ (Scenario.alice, MarkAllAsRead);
      (Scenario.alice, DeleteNotification (Some 202%N));
      (Scenario.carol, MarkAsRead (Some 202%N));
      (Scenario.alice, ClearAllNotifications) ] in
  Forall (fun ur => ur.1 <> Scenario.bob) requests
  /\ of_user Scenario.bob (run Cases.inbox requests)
     = [(202%N, Cases.note Scenario.bob "Review the report" false)].
Proof.
  intros requests.
  assert (Forall (fun ur => ur.1 <> Scenario.bob) requests) as H
    by (repeat constructor; discriminate).
  split; [exact H|].
  exact (notifications_of_others_are_untouched Scenario.bob Cases.inbox
           requests H).
Defined.

Lemma countUnread_of_user u docs : countUnread u docs = countUnread u (of_user u docs).
Proof.
  unfold countUnread, of_user. f_equal. symmetry.
  apply filter_filter_other. by intros x [? _]%andb_true_iff.
Qed.

(** X23. [markAllAsRead] leaves the user without unread notifications,
    which is the count 0 that it emits; it keeps every document, under
    its id and in its place, changes nothing but the [read] mark, leaves
    the notifications of the other users as they are, and does nothing
    when asked again. *)
Theorem markAllAsRead_reads_all_of_the_user
    (userId : UserId) (docs : list Stored) :
  let o := markAllAsRead userId docs in
  countUnread userId (collection o) = 0
  /\ emitted o = Some (countUnread userId (collection o))
  /\ map fst (collection o) = map fst docs
  /\ Forall2 (fun a b =>
                b = a \/ (notification_user a.2 = userId /\ read a.2 = false
                          /\ b = (a.1, set_read a.2)))
             docs (collection o)
  /\ (forall v, v <> userId -> of_user v (collection o) = of_user v docs)
  /\ collection (markAllAsRead userId (collection o)) = collection o.
Proof.
  intros o.
  assert (countUnread userId (collection o) = 0) as H0.
  { unfold countUnread. simpl. induction docs as [|x l IH]; simpl; [done|].
    destruct (unread_of userId x) eqn:E.
    - unfold unread_of at 1. simpl. rewrite andb_false_r. exact IH.
    - rewrite E. exact IH. }
  split; [exact H0|]. split; [by rewrite H0|].
  split.
  { simpl. rewrite map_map. apply map_ext. intros x. by destruct (unread_of _ _). }
  split.
  { simpl. clear. induction docs as [|x l IH]; simpl; constructor; [|done].
    destruct (unread_of userId x) eqn:E; [|by left]. right.
    apply andb_true_iff in E as [E1 E2]. apply N.eqb_eq in E1.
    by apply negb_true_iff in E2. }
  split.
  { intros v Hv. by apply (handle_of_user userId v MarkAllAsRead). }
  simpl. rewrite map_map. apply map_ext_in. intros x _.
  destruct (unread_of userId x) eqn:E; [|by rewrite E].
  unfold unread_of. simpl. by rewrite andb_false_r.
Qed.

Lemma countUnread_update_first id u docs doc :
  find (own id u) docs = Some doc ->
  countUnread u (JS.update_first (own id u) (fun d => (d.1, set_read d.2)) docs)
  + (if read doc.2 then 0 else 1)
  = countUnread u docs.
Proof.
  unfold countUnread. induction docs as [|x l IH]; simpl; [done|].
  destruct (own id u x) eqn:E; simpl.
  - intros [= ->]. apply andb_true_iff in E as [_ E].
    unfold unread_of. simpl. rewrite E, andb_false_r. simpl.
    destruct (read doc.2); simpl; lia.
  - intros H. specialize (IH H). destruct (unread_of u x); simpl; lia.
Qed.

(** X24. [markAsRead] marks a notification of the user only.  When the
    id is not the text of an ObjectId it fails with 500; when no
    notification of the user has the id (none at all, or one of somebody
    else), it answers 404; in both cases nothing changes and nothing is
    emitted.  Otherwise it answers with the notification, now read; the
    other documents are as before; the count it emits is the number of
    unread notifications the user has left, which is one less than
    before if the notification was unread, and the same if it was read. *)
Theorem markAsRead_of_the_user
    (id : ObjectId) (userId : UserId) (docs : list Stored) :
  markAsRead None userId docs
  = {| reply := Text 500 "Error updating notification"; collection := docs;
       emitted := None |}
  /\ ((forall doc, doc ∈ docs -> doc.1 = id -> notification_user doc.2 <> userId) ->
      markAsRead (Some id) userId docs
      = {| reply := Text 404 "Notification not found"; collection := docs;
           emitted := None |})
  /\ (forall doc,
        find (own id userId) docs = Some doc ->
        let o := markAsRead (Some id) userId docs in
        doc ∈ docs /\ doc.1 = id /\ notification_user doc.2 = userId
        /\ reply o = Document (id, set_read doc.2)
        /\ emitted o = Some (countUnread userId (collection o))
        /\ countUnread userId (collection o) + (if read doc.2 then 0 else 1)
           = countUnread userId docs
        /\ map fst (collection o) = map fst docs
        /\ (forall v, v <> userId -> of_user v (collection o) = of_user v docs)).
Proof.
  split; [done|]. split.
  - intros H. unfold markAsRead.
    destruct (find (own id userId) docs) as [doc|] eqn:E; [|done].
    apply find_some in E as [Hin Hown]. apply andb_true_iff in Hown as [H1 H2].
    apply N.eqb_eq in H1, H2. apply list_elem_of_In in Hin.
    by destruct (H doc Hin H1).
  - intros doc Hdoc o. unfold o, markAsRead. rewrite Hdoc. simpl.
    pose proof (find_some _ _ Hdoc) as [Hin Hown].
    apply andb_true_iff in Hown as [H1 H2]. apply N.eqb_eq in H1, H2.
    split; [by apply list_elem_of_In|]. split; [done|]. split; [done|].
    split; [by rewrite H1|]. split; [done|].
    split; [by apply countUnread_update_first|].
    split.
    { clear. induction docs as [|x l IH]; simpl; [done|].
      destruct (own id userId x); simpl; [done|by rewrite IH]. }
    intros v Hv.
    pose proof (handle_of_user userId v (MarkAsRead (Some id)) docs
                  (not_eq_sym Hv)) as H.
    simpl in H. unfold markAsRead in H. by rewrite Hdoc in H.
Qed.

Lemma markAsRead_of_the_user_witness :
  let o := markAsRead (Some 201%N) Scenario.alice Cases.inbox in
  find (own 201 Scenario.alice) Cases.inbox
  = Some (201%N, Cases.note Scenario.alice "Report due" false)
  /\ emitted o = Some (countUnread Scenario.alice (collection o))
  /\ countUnread Scenario.alice (collection o) + 1
     = countUnread Scenario.alice Cases.inbox.
Proof.
  intros o. split; [reflexivity|].
  destruct (proj2 (proj2 (markAsRead_of_the_user 201 Scenario.alice Cases.inbox))
              (201%N, Cases.note Scenario.alice "Report due" false) eq_refl)
    as (_ & _ & _ & _ & H1 & H2 & _).
  split; [exact H1|exact H2].
Defined.

Lemma delete_first_Permutation {A} (p : A -> bool) l x :
  find p l = Some x -> l ≡ₚ x :: delete_first p l.
Proof.
  induction l as [|y l IH]; simpl; [done|].
  destruct (p y).
  - by intros [= ->].
  - intros H. rewrite (IH H) at 1. apply Permutation_swap.
Qed.

(** X25. Deleting reaches the notifications of the user only.
    [clearAllNotifications] removes the notifications of the user that
    are read and no other: what is left are the other documents, in
    their order; nobody's unread count changes; and clearing again
    removes nothing more.  [deleteNotification] removes one document, a
    notification of the user with the id given, when there is one;
    otherwise it answers 404 (or 500 when the id is not the text of an
    ObjectId) and removes nothing. *)
Theorem deleting_notifications
    (id : ObjectId) (userId : UserId) (docs : list Stored) :
  let cleared := collection (clearAllNotifications userId docs) in
  let o := deleteNotification (Some id) userId docs in
  (forall doc, doc ∈ cleared <->
     doc ∈ docs /\ ~ (notification_user doc.2 = userId /\ read doc.2 = true))
  /\ cleared `sublist_of` docs
  /\ (forall v, countUnread v cleared = countUnread v docs)
  /\ collection (clearAllNotifications userId cleared) = cleared
  /\ (forall doc, find (own id userId) docs = Some doc ->
        reply o = Text 200 "Notification deleted"
        /\ doc.1 = id /\ notification_user doc.2 = userId
        /\ docs ≡ₚ doc :: collection o
        /\ collection o `sublist_of` docs)
  /\ (find (own id userId) docs = None ->
        reply o = Text 404 "Notification not found" /\ collection o = docs)
  /\ collection (deleteNotification None userId docs) = docs.
Proof.
  intros cleared o. unfold cleared, o. simpl.
  split.
  { intros doc. rewrite list_elem_of_In, filter_In, <- list_elem_of_In.
    unfold read_of, same_id. rewrite negb_true_iff, andb_false_iff.
    rewrite N.eqb_neq. destruct (read doc.2); split; intros [? ?]; split;
      try done.
    - destruct H0; [tauto|done].
    - destruct (decide (notification_user doc.2 = userId)); [|by left].
      tauto.
    - intros [_ ?]. done.
    - by right. }
  split; [apply filter_sublist|].
  split.
  { intros v. unfold countUnread. f_equal. apply filter_filter_other.
    intros x [_ Hx]%andb_true_iff. unfold read_of.
    apply negb_true_iff in Hx. by rewrite Hx, andb_false_r. }
  split.
  { clear. induction docs as [|x l IH]; simpl; [done|].
    destruct (negb (read_of userId x)) eqn:E; simpl; [|done].
    by rewrite E, IH. }
  split.
  { intros doc Hdoc. unfold deleteNotification. rewrite Hdoc. simpl.
    pose proof (find_some _ _ Hdoc) as [_ Hown].
    apply andb_true_iff in Hown as [H1 H2]. apply N.eqb_eq in H1, H2.
    repeat (split; [done|]). split; [by apply delete_first_Permutation|].
    clear. induction docs as [|x l IH]; simpl; [done|].
    destruct (own id userId x); by constructor. }
  split; [|done].
  intros Hnone. unfold deleteNotification. by rewrite Hnone.
Qed.

Lemma deleting_notifications_witness :
  find (own 203 Scenario.alice) Cases.inbox
  = Some (203%N, Cases.note Scenario.alice "Welcome" true)
  /\ Cases.inbox
     ≡ₚ (203%N, Cases.note Scenario.alice "Welcome" true)
        :: collection (deleteNotification (Some 203%N) Scenario.alice Cases.inbox).
Proof.
  split; [reflexivity|].
  destruct (deleting_notifications 203 Scenario.alice Cases.inbox)
    as (_ & _ & _ & _ & H & _).
  destruct (H (203%N, Cases.note Scenario.alice "Welcome" true) eq_refl)
    as (_ & _ & _ & H1 & _).
  exact H1.
Defined.

End notifications.

(** ** Searching a chat *)
Lemma lower_ascii_idemp c : JS.lower_ascii (JS.lower_ascii c) = JS.lower_ascii c.
Proof. destruct c as [[] [] [] [] [] [] [] []]; reflexivity. Qed.

Lemma toLowerCase_idemp s : JS.toLowerCase (JS.toLowerCase s) = JS.toLowerCase s.
Proof.
  induction s as [|c s IH]; simpl; [done|]. by rewrite lower_ascii_idemp, IH.
Qed.






(** ** One reaction of a user on a message *)
Lemma lookup_message_found d cid mid c m :
  findById d cid = Some c -> message_by_id c mid = Some m ->
  lookup_message d cid mid = Some m.
Proof. intros Hc Hm. unfold lookup_message. by rewrite Hc. Qed.

Lemma run_keeps_participants st actions cid c :
  findById (db st) cid = Some c ->
  exists c', findById (db (run st actions)) cid = Some c'
             /\ participants c' = participants c.
Proof.
  intros Hc.
  destruct (store_grows_findById _ _ _ _ (run_grows st actions) Hc)
    as (c' & Hc' & S & _).
  exists c'. split; [done|]. unfold chat_static in S. by injection S.
Qed.

(** C4. Take a stored message on which a user has at most one reaction (a
    new message has none).  After any sequence of requests and socket
    events, of this user or of others, the message is still stored and
    the user has at most one reaction on it.  When the user then adds a
    reaction with an emoji [e], the reactions of the user on the message
    are exactly the one reaction with emoji [e], and the reactions of the
    other users are as before: so it is by the socket event, and by the
    HTTP request, which answers a participant of the chat with 200 and
    that reaction.  When the user removes the reaction, by the request,
    which is answered 200, or by the event, no reaction of the user is
    left, and the reactions of the others are as before. *)
Theorem single_reaction_per_user
    (userId : UserId) (chatId : ChatId) (messageId : MessageId)
    (st : Server) (chat : Chat) (m : Message) (actions : list Action) :
  findById (db st) chatId = Some chat ->
  message_by_id chat messageId = Some m ->
  length (reactions_of userId m) <= 1 ->
  let st' := run st actions in
  let mine e := [{| reaction_user := userId; emoji := e |}] in
  exists m',
    lookup_message (db st') chatId messageId = Some m'
    /\ length (reactions_of userId m') <= 1
    /\ (userId ∈ participants chat ->
        forall e, JS.truthy e = true ->
          let r := addReaction userId chatId messageId e (db st') in
          r.1 = respond 200 (ReactionAdded "Reaction added successfully"
                               {| reaction_user := userId; emoji := e |})
          /\ exists m2,
               lookup_message r.2 chatId messageId = Some m2
               /\ reactions_of userId m2 = mine e
               /\ (forall v, v <> userId -> reactions_of v m2 = reactions_of v m'))
    /\ (forall e,
          exists m2,
            lookup_message (db (on_addReaction userId chatId messageId e st').1)
                           chatId messageId = Some m2
            /\ reactions_of userId m2 = mine e
            /\ (forall v, v <> userId -> reactions_of v m2 = reactions_of v m'))
    /\ (let r := removeReaction userId chatId messageId (db st') in
        r.1 = respond 200 (Msg "Reaction removed successfully")
        /\ exists m2,
             lookup_message r.2 chatId messageId = Some m2
             /\ reactions_of userId m2 = []
             /\ (forall v, v <> userId -> reactions_of v m2 = reactions_of v m'))
    /\ (exists m2,
          lookup_message (db (on_removeReaction userId chatId messageId st').1)
                         chatId messageId = Some m2
          /\ reactions_of userId m2 = []
          /\ (forall v, v <> userId -> reactions_of v m2 = reactions_of v m')).
Proof.
  intros Hc Hm Hone st' mine.
  pose proof (lookup_message_found _ _ _ _ _ Hc Hm) as Hl.
  destruct (run_evolves actions st _ _ _ Hl) as (m' & Hm' & Hev).
  destruct (run_keeps_participants st actions _ _ Hc) as (c' & Hc' & Hps).
  fold st' in Hm', Hc'. exists m'. split; [done|].
  split; [by apply (evolves_reactions _ _ Hev)|].
  assert (message_by_id c' messageId = Some m') as Hmc.
  { unfold lookup_message in Hm'. by rewrite Hc' in Hm'. }
  assert (forall e, reactions_of userId (react userId e m') = mine e
                    /\ (forall v, v <> userId ->
                          reactions_of v (react userId e m') = reactions_of v m'))
    as Hreact.
  { intros e. split.
    - rewrite reactions_of_react. by destruct (decide (userId = userId)).
    - intros v Hv. rewrite reactions_of_react. by destruct (decide (v = userId)). }
  assert (reactions_of userId (unreact userId m') = []
          /\ (forall v, v <> userId ->
                reactions_of v (unreact userId m') = reactions_of v m'))
    as Hunreact.
  { split.
    - rewrite reactions_of_unreact. by destruct (decide (userId = userId)).
    - intros v Hv. rewrite reactions_of_unreact. by destruct (decide (v = userId)). }
  split; [|split; [|split]].
  - intros Hp e He r. rewrite <- Hps in Hp.
    assert (r = (respond 200 (ReactionAdded "Reaction added successfully"
                                {| reaction_user := userId; emoji := e |}),
                 save (update_message messageId (react userId e) c') (db st')))
      as -> by (by apply (addReaction_accepted _ _ _ _ _ c' m')).
    split; [done|]. exists (react userId e m'). split; [|apply Hreact].
    cbn [snd]. erewrite lookup_message_save_update by done.
    rewrite Hm'. simpl. destruct (decide _) as [|Hn]; [done|by destruct Hn].
  - intros e. rewrite lookup_message_on_addReaction, Hm'. simpl.
    destruct (decide _) as [|Hn]; [|by destruct Hn].
    exists (react userId e m'). split; [done|apply Hreact].
  - unfold removeReaction. rewrite Hc', Hmc. cbn [fst snd].
    split; [done|]. exists (unreact userId m'). split; [|apply Hunreact].
    erewrite lookup_message_save_update by done.
    rewrite Hm'. simpl. destruct (decide _) as [|Hn]; [done|by destruct Hn].
  - rewrite lookup_message_on_removeReaction, Hm'. simpl.
    destruct (decide _) as [|Hn]; [|by destruct Hn].
    exists (unreact userId m'). split; [done|apply Hunreact].
Qed.

Lemma single_reaction_per_user_witness :
  let st := Scenario.only_alice_online Scenario.db_sent in
  let actions :=
    [ Http (AddReaction Scenario.alice 100 101 "thumbsup");
      Ws Scenario.bob (EvAddReaction 100 101 "eyes");
      Ws Scenario.alice (EvAddReaction 100 101 "heart");
      Http (RemoveReaction Scenario.bob 100 101) ] in
  let r := addReaction Scenario.alice 100 101 "smile" (db (run st actions)) in
  findById (db st) 100 = Some Scenario.chat_sent
  /\ message_by_id Scenario.chat_sent 101 = Some Scenario.msg_report
  /\ length (reactions_of Scenario.alice Scenario.msg_report) <= 1
  /\ Scenario.alice ∈ participants Scenario.chat_sent
  /\ JS.truthy "smile" = true
  /\ r.1 = respond 200 (ReactionAdded "Reaction added successfully"
                          {| reaction_user := Scenario.alice; emoji := "smile" |})
  /\ exists m2,
       lookup_message r.2 100 101 = Some m2
       /\ reactions_of Scenario.alice m2
          = [{| reaction_user := Scenario.alice; emoji := "smile" |}].
Proof.
  intros st actions r.
  assert (length (reactions_of Scenario.alice Scenario.msg_report) <= 1) as H2
    by (simpl; lia).
  assert (Scenario.alice ∈ participants Scenario.chat_sent) as Hp by left.
  split; [reflexivity|]. split; [reflexivity|]. split; [exact H2|].
  split; [exact Hp|]. split; [reflexivity|].
  destruct (single_reaction_per_user Scenario.alice 100 101 st
              Scenario.chat_sent Scenario.msg_report actions eq_refl eq_refl H2)
    as (m' & _ & _ & Hadd & _).
  destruct (Hadd Hp "smile"%string eq_refl) as (H200 & m2 & Hm2 & Hmine & _).
  split; [exact H200|]. exists m2. split; [exact Hm2|exact Hmine].
Defined.
